(* ===================================================================== *)
(*  Uptane server: object synchronisation and namespace lifecycle         *)
(*                                                                         *)
(*  Shallow embedding of the express route handlers of                     *)
(*    - the treehub router keyed by team      (POST / HEAD / GET objects)  *)
(*    - the treehub router keyed by namespace (PUT / GET objects)          *)
(*    - the admin router (namespaces, provisioning credentials) and its    *)
(*      two sibling revisions (root-CA per namespace, single metadata).    *)
(*                                                                         *)
(*  A handler is a function from the world (relational store, key store,   *)
(*  blob store, log of store calls) to a result and a new world.  An       *)
(*  exception that leaves the async handler is the result [Raise].         *)
(* ===================================================================== *)

From Stdlib Require Import ZArith Ascii String.
From Stdlib.Strings Require Import Byte.
From stdpp Require Import gmap strings list fin_maps sorting.

Local Open Scope string_scope.
Local Open Scope Z_scope.

(* --------------------------------------------------------------------- *)
(*  JavaScript values the handlers compute with                            *)
(* --------------------------------------------------------------------- *)

Module Js.

(** A JS number as far as [parseInt] can produce one: NaN, an integer
    that a float64 holds exactly, or an infinity. *)
Inductive num := NaN | Num (z : Z) | Inf (negative : bool).

(** The float64 nearest to an integer, ties to the even mantissa: below
    2^53 the integer itself, above it the 53 leading bits rounded, and an
    infinity from 2^1024 on. *)
Definition to_double (z : Z) : num :=
  let a := Z.abs z in
  if a <? 2 ^ 53 then Num z
  else
    let e := Z.log2 a - 52 in
    let q := Z.shiftr a e in
    let r := a - Z.shiftl q e in
    let half := Z.shiftl 1 (e - 1) in
    let q' := if (half <? r) || ((r =? half) && Z.odd q) then q + 1 else q in
    let m := Z.shiftl q' e in
    if 2 ^ 1024 <=? m then Inf (z <? 0) else Num (Z.sgn z * m).

Definition is_ws (c : ascii) : bool :=
  let n := nat_of_ascii c in
  (Nat.eqb n 32 || Nat.eqb n 9 || Nat.eqb n 10 || Nat.eqb n 11
   || Nat.eqb n 12 || Nat.eqb n 13)%bool.

Fixpoint skip_ws (s : string) : string :=
  match s with
  | String c r => if is_ws c then skip_ws r else s
  | EmptyString => s
  end.

(** Value of a character as a digit, in any radix up to 36. *)
Definition digit_of (c : ascii) : option Z :=
  let n := Z.of_nat (nat_of_ascii c) in
  if (48 <=? n) && (n <=? 57) then Some (n - 48)
  else if (97 <=? n) && (n <=? 122) then Some (n - 87)
  else if (65 <=? n) && (n <=? 90) then Some (n - 55)
  else None.

(** Longest prefix of digits of the radix; [acc] is [None] until a digit
    has been read. *)
Fixpoint digits (radix : Z) (s : string) (acc : option Z) : option Z :=
  match s with
  | String c r =>
      match digit_of c with
      | Some d =>
          if d <? radix
          then digits radix r (Some (radix * default 0 acc + d))
          else acc
      | None => acc
      end
  | EmptyString => acc
  end.

Definition strip_sign (s : string) : Z * string :=
  match s with
  | String "-" r => (-1, r)
  | String "+" r => (1, r)
  | _ => (1, s)
  end.

Definition strip_hex (s : string) : Z * string :=
  match s with
  | String "0" (String "x" r) => (16, r)
  | String "0" (String "X" r) => (16, r)
  | _ => (10, s)
  end.

(** [parseInt(string)] with no radix argument. *)
Definition parseInt (s : string) : num :=
  let '(sign, s1) := strip_sign (skip_ws s) in
  let '(radix, s2) := strip_hex s1 in
  match digits radix s2 None with
  | Some z => to_double (sign * z)
  | None => NaN
  end.

(** [req.get(h)] is [undefined] when the header was not sent and
    [parseInt(undefined)] parses the string "undefined". *)
Definition parseInt_header (h : option string) : num :=
  parseInt (default "undefined" h).

(** [!n] *)
Definition not_num (n : num) : bool :=
  match n with NaN => true | Num z => z =? 0 | Inf _ => false end.

(** [n === 0] *)
Definition eq_zero (n : num) : bool :=
  match n with NaN => false | Num z => z =? 0 | Inf _ => false end.

Definition isNaN (n : num) : bool :=
  match n with NaN => true | Num _ => false | Inf _ => false end.

(** A string of the model is the UTF-8 form of a JavaScript string, whose
    [length] and [substring] count UTF-16 code units.  A character is a
    byte that is no continuation byte with the continuation bytes after
    it; it is one code unit, or two (a surrogate pair) when its first byte
    opens a sequence of four, from 0xF0 on. *)
Definition is_cont (c : ascii) : bool :=
  let n := N_of_ascii c in ((128 <=? n) && (n <? 192))%N.

Definition is_astral (c : ascii) : bool := (240 <=? N_of_ascii c)%N.

Fixpoint conts (s : string) : string :=
  match s with
  | String c r => if is_cont c then String c (conts r) else EmptyString
  | EmptyString => EmptyString
  end.

Fixpoint skip_conts (s : string) : string :=
  match s with
  | String c r => if is_cont c then skip_conts r else s
  | EmptyString => s
  end.

(** [s.length] *)
Fixpoint length (s : string) : nat :=
  match s with
  | String c r =>
      ((if is_cont c then 0 else if is_astral c then 2 else 1) + length r)%nat
  | EmptyString => 0%nat
  end.

(** The twenty bits a sequence of four bytes adds to 0x10000. *)
Definition astral_offset (ch : string) : N :=
  match ch with
  | String b0 (String b1 (String b2 (String b3 _))) =>
      ((N_of_ascii b0 mod 8 * 262144 + N_of_ascii b1 mod 64 * 4096
        + N_of_ascii b2 mod 64 * 64 + N_of_ascii b3 mod 64 + 983040)
       mod 1048576)%N
  | _ => 0%N
  end.

(** A surrogate left alone by a cut through its pair has no UTF-8 form;
    it is kept in the three bytes the encoding would give its code unit,
    0xD800 + [ten] for a high and 0xDC00 + [ten] for a low surrogate. *)
Definition lone_surrogate (low : bool) (ten : N) : string :=
  String (ascii_of_N 237)
    (String (ascii_of_N ((if low then 176 else 160) + (ten / 64) mod 16))
       (String (ascii_of_N (128 + ten mod 64)) EmptyString)).

Definition high_surrogate (ch : string) : string :=
  lone_surrogate false (astral_offset ch / 1024).

Definition low_surrogate (ch : string) : string :=
  lone_surrogate true (astral_offset ch mod 1024).

(** [s.substring(0, n)] *)
Fixpoint take (n : nat) (s : string) : string :=
  match n, s with
  | S n', String c r =>
      let ch := String c (conts r) in
      if is_astral c
      then match n' with
           | O => high_surrogate ch
           | S n'' => ch +:+ take n'' (skip_conts r)
           end
      else ch +:+ take n' (skip_conts r)
  | _, _ => EmptyString
  end.

(** [s.substring(n)] *)
Fixpoint drop (n : nat) (s : string) : string :=
  match n, s with
  | S n', String c r =>
      if is_astral c
      then match n' with
           | O => low_surrogate (String c (conts r)) +:+ skip_conts r
           | S n'' => drop n'' (skip_conts r)
           end
      else drop n' (skip_conts r)
  | _, _ => s
  end.


End Js.

(* --------------------------------------------------------------------- *)
(*  Data model                                                             *)
(* --------------------------------------------------------------------- *)

Inductive UploadStatus := uploading | uploaded.
Inductive TUFRepo := image | director.
Inductive TUFRole := root | targets | snapshot | timestamp.

#[global] Instance UploadStatus_eq_dec : EqDecision UploadStatus.
Proof. solve_decision. Defined.
#[global] Instance TUFRepo_eq_dec : EqDecision TUFRepo.
Proof. solve_decision. Defined.
#[global] Instance TUFRole_eq_dec : EqDecision TUFRole.
Proof. solve_decision. Defined.

(** What a blob holds: [req.body] of [express.raw] is a Buffer, the PEM
    certificate is a string. *)
Inductive Content := Buffer (bytes : list byte) | Text (s : string).

(** JS truthiness of what [getObject] resolves to: [undefined] and the
    empty string are falsy, a Buffer never is. *)
Definition truthy (c : option Content) : bool :=
  match c with
  | None => false
  | Some (Buffer _) => true
  | Some (Text s) => negb (String.eqb s "")
  end.
Arguments truthy : simpl never.

(** Address of a blob, as the driver is called: [putObject(bucketId, c)]
    in the namespace router, [putObject(bucket, key, c)] elsewhere. *)
Inductive BlobAddr :=
| Flat (bucketId : string)
| InBucket (bucket key : string).

#[global] Instance BlobAddr_eq_dec : EqDecision BlobAddr.
Proof. solve_decision. Defined.

#[global] Instance BlobAddr_countable : Countable BlobAddr.
Proof.
  refine (inj_countable'
    (fun a => match a with Flat b => inl b | InBucket b k => inr (b, k) end)
    (fun s => match s with inl b => Flat b | inr (b, k) => InBucket b k end) _).
  intros []; reflexivity.
Defined.

Record KeyPair := { privateKey : string; publicKey : string }.

Record ObjectRow := { size : Js.num; status : UploadStatus }.

Record NamespaceRow := { id : string; created_at : nat; updated_at : nat }.

(** A TUF root document, as far as the handlers look into it. *)
Record RootDoc := {
  expires : nat;
  doc_version : Z;
  doc_keys : list (TUFRole * string);
}.

Record MetadataRow := {
  namespace_id : string;
  repo : option TUFRepo;
  role : TUFRole;
  version : Z;
  value : RootDoc;
  expires_at : option nat;
}.

(** The relational store.  The Prisma schema is not among the sources: the
    tables carry the unique keys the queries name ([id] of a namespace or
    team, the pair [(tenant, object_id)] of an object) and no foreign-key
    check. *)
Record Db := {
  namespaces : gmap string NamespaceRow;
  objects : gmap (string * string) ObjectRow;
  metadata : list MetadataRow;
  images : gmap string string;
}.

Record BlobStore := {
  blobs : gmap BlobAddr Content;
  buckets : gset string;
  outage : bool;
  absent_rejects : bool;
}.

Inductive Handle := ViaTx | ViaClient.

(** One entry per call to a store. *)
Inductive Event :=
| DbTenantCount (tenant : string)
| DbObjectUpsert (h : Handle) (tenant object_id : string)
| DbObjectUpdate (h : Handle) (tenant object_id : string)
| DbObjectFind (tenant object_id : string)
| DbNamespaceCreate (h : Handle)
| DbNamespaceDelete (h : Handle) (tenant : string)
| DbMetadataCreate (h : Handle) (tenant : string)
| BlobPut (a : BlobAddr)
| BlobGet (a : BlobAddr)
| BlobDeleteObject (a : BlobAddr)
| BlobCreateBucket (b : string)
| BlobDeleteBucket (b : string)
| KeyPut (k : string)
| KeyGet (k : string)
| KeyDelete (k : string).

#[global] Instance Handle_eq_dec : EqDecision Handle.
Proof. solve_decision. Defined.
#[global] Instance Event_eq_dec : EqDecision Event.
Proof. solve_decision. Defined.

Record World := {
  db : Db;
  tx_snapshot : option Db;
  keys : gmap string string;
  bs : BlobStore;
  log : list Event;
}.

(* --------------------------------------------------------------------- *)
(*  Handlers as state transformers that may raise                          *)
(* --------------------------------------------------------------------- *)

Inductive Error :=
| BlobFailure
| KeyNotFound
| UniqueViolation
| RecordNotFound
| MalformedPem.

Inductive Res (A : Type) :=
| Ret (a : A)
| Raise (e : Error).
Arguments Ret {A} a.
Arguments Raise {A} e.

Definition M (A : Type) : Type := World -> Res A * World.

Definition ret {A} (a : A) : M A := fun w => (Ret a, w).
Definition raise {A} (e : Error) : M A := fun w => (Raise e, w).
Definition bind {A B} (m : M A) (k : A -> M B) : M B :=
  fun w => match m w with
           | (Ret a, w') => k a w'
           | (Raise e, w') => (Raise e, w')
           end.

Notation "x <- m ;; k" := (bind m (fun x => k))
  (at level 100, m at next level, right associativity).
Notation "m ;;; k" := (bind m (fun _ => k))
  (at level 100, right associativity).

Definition set_db (d : Db) (w : World) : World :=
  {| db := d; tx_snapshot := tx_snapshot w; keys := keys w; bs := bs w;
     log := log w |}.
Definition set_snapshot (o : option Db) (w : World) : World :=
  {| db := db w; tx_snapshot := o; keys := keys w; bs := bs w; log := log w |}.
Definition set_keys (k : gmap string string) (w : World) : World :=
  {| db := db w; tx_snapshot := tx_snapshot w; keys := k; bs := bs w;
     log := log w |}.
Definition set_bs (b : BlobStore) (w : World) : World :=
  {| db := db w; tx_snapshot := tx_snapshot w; keys := keys w; bs := b;
     log := log w |}.

Definition emit (e : Event) : M unit := fun w =>
  (Ret tt, {| db := db w; tx_snapshot := tx_snapshot w; keys := keys w;
              bs := bs w; log := log w ++ [e] |}).

(** A statement on the relational store.  On the transaction handle it
    changes what the transaction sees; on the global client it is committed
    on its own, whether or not a transaction is open. *)
Definition write_db (h : Handle) (f : Db -> Db) : M unit := fun w =>
  (Ret tt,
   set_snapshot (match h with
                 | ViaTx => tx_snapshot w
                 | ViaClient => f <$> tx_snapshot w
                 end)
                (set_db (f (db w)) w)).

(** [prisma.$transaction(async tx => ...)]: an interactive transaction.
    The statements issued on [tx] are committed when the callback resolves
    and rolled back when it rejects; the rejection is passed on.  Calls to
    the key store and the blob store made in the callback are not undone. *)
Definition transaction {A} (callback : M A) : M A := fun w =>
  match callback (set_snapshot (Some (db w)) w) with
  | (Ret a, w') => (Ret a, set_snapshot None w')
  | (Raise e, w') =>
      (Raise e, set_snapshot None (set_db (default (db w') (tx_snapshot w')) w'))
  end.

(* ---- relational store ------------------------------------------------ *)

Definition set_namespaces (n : gmap string NamespaceRow) (d : Db) : Db :=
  {| namespaces := n; objects := objects d; metadata := metadata d;
     images := images d |}.
Definition set_objects (o : gmap (string * string) ObjectRow) (d : Db) : Db :=
  {| namespaces := namespaces d; objects := o; metadata := metadata d;
     images := images d |}.
Definition set_metadata (m : list MetadataRow) (d : Db) : Db :=
  {| namespaces := namespaces d; objects := objects d; metadata := m;
     images := images d |}.

(** [prisma.namespace.count({where: {id}})], [prisma.team.count(...)] *)
Definition tenant_count (tenant : string) : M Z :=
  emit (DbTenantCount tenant) ;;;
  fun w => (Ret (match namespaces (db w) !! tenant with
                 | Some _ => 1
                 | None => 0
                 end), w).

(** [object.upsert]: [create] and [update] both set [size] and [status].
    The [where] of this and of the next two operations selects on the
    pair of tenant and object id.  The schema is not among the sources:
    the names its client gives to that compound key in the handlers
    ([team_id_object_id], [namespace_object_id], [_object_id]) are all
    taken to be accepted and to name that pair. *)
Definition object_upsert (h : Handle) (tenant object_id : string)
    (sz : Js.num) (st : UploadStatus) : M unit :=
  emit (DbObjectUpsert h tenant object_id) ;;;
  write_db h (fun d =>
    set_objects (<[(tenant, object_id) := {| size := sz; status := st |}]>
                   (objects d)) d).

(** [object.update({where, data: {status}})]: rejects when no row matches. *)
Definition object_update (h : Handle) (tenant object_id : string)
    (st : UploadStatus) : M unit :=
  emit (DbObjectUpdate h tenant object_id) ;;;
  fun w =>
    match objects (db w) !! (tenant, object_id) with
    | Some _ =>
        write_db h (fun d =>
          set_objects (alter (fun r => {| size := size r; status := st |})
                             (tenant, object_id) (objects d)) d) w
    | None => (Raise RecordNotFound, w)
    end.

(** [prisma.object.findUnique({where: {<tenant>_object_id: ...}})] *)
Definition object_findUnique (tenant object_id : string)
    : M (option ObjectRow) :=
  emit (DbObjectFind tenant object_id) ;;;
  fun w => (Ret (objects (db w) !! (tenant, object_id)), w).

(** [namespace.create({data: {}})]: the store generates the row; a primary
    key already taken is a unique-constraint violation. *)
Definition namespace_create (h : Handle) (generated : NamespaceRow)
    : M NamespaceRow :=
  emit (DbNamespaceCreate h) ;;;
  fun w =>
    match namespaces (db w) !! id generated with
    | Some _ => (Raise UniqueViolation, w)
    | None =>
        (write_db h (fun d =>
           set_namespaces (<[id generated := generated]> (namespaces d)) d) ;;;
         ret generated) w
    end.

Definition metadata_create (h : Handle) (row : MetadataRow) : M unit :=
  emit (DbMetadataCreate h (namespace_id row)) ;;;
  write_db h (fun d => set_metadata (metadata d ++ [row]) d).

(** Rows that go with a namespace when it is deleted (the handlers'
    comment: "this cascades to all resources"). *)
Definition cascade (tenant : string) (d : Db) : Db :=
  {| namespaces := delete tenant (namespaces d);
     objects := filter (fun kv => kv.1.1 <> tenant) (objects d);
     metadata := filter (fun m => namespace_id m <> tenant) (metadata d);
     images := filter (fun kv => kv.2 <> tenant) (images d) |}.

(** [namespace.delete({where: {id}, include: {objects, images}})]: resolves
    to the object ids and image ids of the deleted namespace. *)
Definition namespace_delete (h : Handle) (tenant : string)
    : M (list string * list string) :=
  emit (DbNamespaceDelete h tenant) ;;;
  fun w =>
    match namespaces (db w) !! tenant with
    | None => (Raise RecordNotFound, w)
    | Some _ =>
        let objs :=
          (fun kv => kv.1.2) <$>
            map_to_list (filter (fun kv => kv.1.1 = tenant) (objects (db w))) in
        let imgs :=
          (fun kv => kv.1) <$>
            map_to_list (filter (fun kv => kv.2 = tenant) (images (db w))) in
        (write_db h (cascade tenant) ;;; ret (objs, imgs)) w
    end.

(* ---- blob store and key store ---------------------------------------- *)

Definition set_blobs (b : gmap BlobAddr Content) (s : BlobStore) : BlobStore :=
  {| blobs := b; buckets := buckets s; outage := outage s;
     absent_rejects := absent_rejects s |}.
Definition set_buckets (b : gset string) (s : BlobStore) : BlobStore :=
  {| blobs := blobs s; buckets := b; outage := outage s;
     absent_rejects := absent_rejects s |}.

(** Modelled from the spec: the blob-store driver ([core/blob-storage]),
    a "minimal capability interface (get/put/delete)" whose calls can fail
    on their own.  [outage] makes every call reject (the injected fault);
    [absent_rejects] says how the driver answers a read of a key it does
    not hold: by rejecting, or by resolving to nothing. *)
Definition blob_call {A} (e : Event) (k : M A) : M A :=
  emit e ;;;
  fun w => if outage (bs w) then (Raise BlobFailure, w) else k w.

Definition putObject (a : BlobAddr) (c : Content) : M unit :=
  blob_call (BlobPut a)
    (fun w => (Ret tt, set_bs (set_blobs (<[a := c]> (blobs (bs w))) (bs w)) w)).

Definition getObject (a : BlobAddr) : M (option Content) :=
  blob_call (BlobGet a)
    (fun w => match blobs (bs w) !! a with
              | Some c => (Ret (Some c), w)
              | None => if absent_rejects (bs w)
                        then (Raise BlobFailure, w)
                        else (Ret None, w)
              end).

Definition deleteObject (a : BlobAddr) : M unit :=
  blob_call (BlobDeleteObject a)
    (fun w => (Ret tt, set_bs (set_blobs (delete a (blobs (bs w))) (bs w)) w)).

Definition createBucket (b : string) : M unit :=
  blob_call (BlobCreateBucket b)
    (fun w => (Ret tt, set_bs (set_buckets ({[b]} ∪ buckets (bs w)) (bs w)) w)).

Definition in_bucket (b : string) (a : BlobAddr) : bool :=
  match a with
  | InBucket b' _ => bool_decide (b' = b)
  | Flat _ => false
  end.

Definition deleteBucket (b : string) : M unit :=
  blob_call (BlobDeleteBucket b)
    (fun w =>
       (Ret tt,
        set_bs (set_buckets (buckets (bs w) ∖ {[b]})
                  (set_blobs (filter (fun kv => in_bucket b kv.1 = false)
                                     (blobs (bs w))) (bs w))) w)).

(** Modelled from the spec: the key-store driver ([core/key-storage]), a
    named-secret store with get/put/delete; reading a name that holds no
    secret rejects. *)
Definition putKey (k v : string) : M unit :=
  emit (KeyPut k) ;;; fun w => (Ret tt, set_keys (<[k := v]> (keys w)) w).

Definition getKey (k : string) : M string :=
  emit (KeyGet k) ;;;
  fun w => match keys w !! k with
           | Some v => (Ret v, w)
           | None => (Raise KeyNotFound, w)
           end.

Definition deleteKey (k : string) : M unit :=
  emit (KeyDelete k) ;;; fun w => (Ret tt, set_keys (delete k (keys w)) w).

(* ---- responses -------------------------------------------------------- *)

Record NamespacePublic := {
  pub_id : string;
  pub_created_at : nat;
  pub_updated_at : nat;
}.

(** An X.509 certificate as far as the handlers determine it: whose
    public key it certifies, under which common name, with which private
    key it is signed and which certificate it is chained to. *)
Inductive Certificate :=
| SelfSigned (subject_publicKey signing_privateKey : string)
| Issued (subject_publicKey commonName signing_privateKey : string)
         (parent : Certificate).

Record PKCS12 := {
  p12_key : string;
  p12_chain : list Certificate;
  p12_password : option string;
}.

Inductive ArchiveEntry :=
| FileText (s : string)
| FileP12 (p : PKCS12).

Inductive Body :=
| End
| Send (s : string)
| SendContent (c : option Content)
| Json (n : NamespacePublic)
| Pipe (archive : list (string * ArchiveEntry)).

Record Response := {
  code : Z;
  content_type : option string;
  body : Body;
}.

Definition respond (c : Z) (b : Body) : Response :=
  {| code := c; content_type := None; body := b |}.

(* --------------------------------------------------------------------- *)
(*  Treehub router keyed by team                                           *)
(* --------------------------------------------------------------------- *)

Module TreehubTeam.

(** [router.post('/:team_id/objects/:prefix/:suffix')] *)
Definition upload (teamID prefix suffix : string) (content : Content)
    (content_length : option string) : M Response :=
  let object_id := prefix +:+ suffix in
  let size := Js.parseInt_header content_length in
  if Js.not_num size || Js.eq_zero size || Js.isNaN size
  then ret (respond 400 End)
  else
    teamCount <- tenant_count teamID ;;
    if teamCount =? 0
    then ret (respond 400 (Send "could not upload ostree object"))
    else
      transaction (
        object_upsert ViaTx teamID object_id size uploading ;;;
        putObject (InBucket teamID ("treehub/" +:+ prefix +:+ "/" +:+ suffix))
                  content ;;;
        object_update ViaTx teamID object_id uploaded) ;;;
      ret (respond 204 End).

(** [router.head('/:team_id/objects/:prefix/:suffix')] *)
Definition head (teamID prefix suffix : string) : M Response :=
  let object_id := prefix +:+ suffix in
  object <- object_findUnique teamID object_id ;;
  match object with
  | None => ret (respond 404 End)
  | Some _ => ret (respond 200 End)
  end.

(** [router.get('/objects/:prefix/:suffix', mustBeRobot, ...)]: the team
    is the one of the authenticated robot.  The [catch] turns a rejected
    read into the 500. *)
Definition download (team_id prefix suffix : string) : M Response :=
  let object_id := prefix +:+ suffix in
  object <- object_findUnique team_id object_id ;;
  match object with
  | None => ret (respond 404 End)
  | Some _ =>
      fun w =>
        match getObject (InBucket team_id
                           ("treehub/" +:+ prefix +:+ "/" +:+ suffix)) w with
        | (Ret content, w') =>
            (Ret {| code := 200;
                    content_type := Some "application/octet-stream";
                    body := SendContent content |}, w')
        | (Raise _, w') => (Ret (respond 500 End), w')
        end
  end.

End TreehubTeam.

(* --------------------------------------------------------------------- *)
(*  Treehub router keyed by namespace                                      *)
(* --------------------------------------------------------------------- *)

Module TreehubNamespace.

(** [router.put('/:namespace/objects/:prefix/:suffix')]; the upsert
    selects on [_object_id], the update on [namespace_object_id]. *)
Definition upload (namespace prefix suffix : string) (content : Content)
    (content_length : option string) : M Response :=
  let size := Js.parseInt_header content_length in
  if Js.not_num size || Js.eq_zero size || Js.isNaN size
  then ret (respond 400 End)
  else
    let object_id := prefix +:+ suffix in
    let bucketId := namespace +:+ "/" +:+ prefix +:+ "/" +:+ suffix in
    transaction (
      object_upsert ViaTx namespace object_id size uploading ;;;
      putObject (Flat bucketId) content ;;;
      object_update ViaTx namespace object_id uploaded) ;;;
    ret (respond 200 End).

(** [router.get('/:namespace/objects/:prefix/:suffix')]: no [try]; a
    rejected read leaves the handler as an exception. *)
Definition download (namespace prefix suffix : string) : M Response :=
  let object_id := prefix +:+ suffix in
  let bucketId := namespace +:+ "/" +:+ prefix +:+ "/" +:+ suffix in
  object <- object_findUnique namespace object_id ;;
  match object with
  | None => ret (respond 404 End)
  | Some _ =>
      content <- getObject (Flat bucketId) ;;
      if negb (truthy content)
      then ret (respond 500 End)
      else ret {| code := 200;
                  content_type := Some "application/octet-stream";
                  body := SendContent content |}
  end.

End TreehubNamespace.

(* --------------------------------------------------------------------- *)
(*  Admin router                                                           *)
(* --------------------------------------------------------------------- *)

Record Config := {
  TUF_TTL_IMAGE_ROOT : nat;
  TUF_TTL_DIRECTOR_ROOT : nat;
  ROBOT_GATEWAY_HOSTNAME : string;
}.

(** The identifiers imported from [core/consts]. *)
Record Consts := {
  RootCABucket : string;
  RootCACertObjId : string;
  RootCAPrivateKeyId : string;
  RootCAPublicKeyId : string;
}.

(** The eight pairs [generateKeyPair(config.KEY_TYPE)] returns in a
    creation. *)
Record TufKeys := {
  imageRootKey : KeyPair;
  imageTargetsKey : KeyPair;
  imageSnapshotKey : KeyPair;
  imageTimestampKey : KeyPair;
  directorRootKey : KeyPair;
  directorTargetsKey : KeyPair;
  directorSnapshotKey : KeyPair;
  directorTimestampKey : KeyPair;
}.

Record CertOpts := {
  commonName : string;
  cert : Certificate;
  keyPair : KeyPair;
}.

(** Modelled from the spec: [generateRoot] of [core/tuf], a pure function
    from the TTL, the version and the four key pairs to a document with an
    expiry, the given version and one public key per role. *)
Definition generateRoot (now ttl : nat) (version : Z)
    (rootKey targetsKey snapshotKey timestampKey : KeyPair) : RootDoc :=
  {| expires := (now + ttl)%nat;
     doc_version := version;
     doc_keys := [(root, publicKey rootKey); (targets, publicKey targetsKey);
                  (snapshot, publicKey snapshotKey);
                  (timestamp, publicKey timestampKey)] |}.

(** Modelled from the spec: [generateCertificate] of [core/crypto]: with
    no options a self-signed certificate with no parent chain; with options
    a certificate with the given common name, signed with the private key
    of [opts.keyPair] and chained to [opts.cert]. *)
Definition generateCertificate (kp : KeyPair) (opts : option CertOpts)
    : Certificate :=
  match opts with
  | None => SelfSigned (publicKey kp) (privateKey kp)
  | Some o =>
      Issued (publicKey kp) (commonName o) (privateKey (keyPair o)) (cert o)
  end.

Section Admin.

Variable config : Config.
Variable consts : Consts.
(** The clock read by [generateRoot]. *)
Variable now : nat.
(** [forge.pki.certificateToPem], and the three readers
    [forge.pki.certificateFromPem], [forge.pki.privateKeyFromPem] and
    [forge.pki.publicKeyFromPem], which throw on what holds no PEM
    message of their kind ([None]).  The certificate reader is given what
    [getObject] resolved to: forge turns its argument into a string, so a
    Buffer that holds the PEM text is read like the text.  The key
    readers are given the strings of the key store and return the key
    the text holds. *)
Variable certificateToPem : Certificate -> string.
Variable certificateFromPem : Content -> option Certificate.
Variable privateKeyFromPem : string -> option string.
Variable publicKeyFromPem : string -> option string.

Definition public_attributes (n : NamespaceRow) : NamespacePublic :=
  {| pub_id := id n; pub_created_at := created_at n;
     pub_updated_at := updated_at n |}.

Definition root_row (ns : string) (r : TUFRepo) (v : Z) (doc : RootDoc)
    : MetadataRow :=
  {| namespace_id := ns; repo := Some r; role := root; version := v;
     value := doc; expires_at := Some (expires doc) |}.

(** The sixteen [putKey] calls of a creation, in the order of the
    source. *)
Definition put_tuf_keys (ns : string) (k : TufKeys) : M unit :=
  putKey (ns +:+ "-image-root-private") (privateKey (imageRootKey k)) ;;;
  putKey (ns +:+ "-image-targets-private") (privateKey (imageTargetsKey k)) ;;;
  putKey (ns +:+ "-image-snapshot-private") (privateKey (imageSnapshotKey k)) ;;;
  putKey (ns +:+ "-image-timestamp-private") (privateKey (imageTimestampKey k)) ;;;
  putKey (ns +:+ "-image-root-public") (publicKey (imageRootKey k)) ;;;
  putKey (ns +:+ "-image-targets-public") (publicKey (imageTargetsKey k)) ;;;
  putKey (ns +:+ "-image-snapshot-public") (publicKey (imageSnapshotKey k)) ;;;
  putKey (ns +:+ "-image-timestamp-public") (publicKey (imageTimestampKey k)) ;;;
  putKey (ns +:+ "-director-root-private") (privateKey (directorRootKey k)) ;;;
  putKey (ns +:+ "-director-targets-private") (privateKey (directorTargetsKey k)) ;;;
  putKey (ns +:+ "-director-snapshot-private") (privateKey (directorSnapshotKey k)) ;;;
  putKey (ns +:+ "-director-timestamp-private") (privateKey (directorTimestampKey k)) ;;;
  putKey (ns +:+ "-director-root-public") (publicKey (directorRootKey k)) ;;;
  putKey (ns +:+ "-director-targets-public") (publicKey (directorTargetsKey k)) ;;;
  putKey (ns +:+ "-director-snapshot-public") (publicKey (directorSnapshotKey k)) ;;;
  putKey (ns +:+ "-director-timestamp-public") (publicKey (directorTimestampKey k)).

(** The sixteen [deleteKey] calls of a deletion, in the order of the
    source. *)
Definition delete_tuf_keys (ns : string) : M unit :=
  deleteKey (ns +:+ "-image-root-private") ;;;
  deleteKey (ns +:+ "-image-targets-private") ;;;
  deleteKey (ns +:+ "-image-snapshot-private") ;;;
  deleteKey (ns +:+ "-image-timestamp-private") ;;;
  deleteKey (ns +:+ "-image-root-public") ;;;
  deleteKey (ns +:+ "-image-targets-public") ;;;
  deleteKey (ns +:+ "-image-snapshot-public") ;;;
  deleteKey (ns +:+ "-image-timestamp-public") ;;;
  deleteKey (ns +:+ "-director-root-private") ;;;
  deleteKey (ns +:+ "-director-targets-private") ;;;
  deleteKey (ns +:+ "-director-snapshot-private") ;;;
  deleteKey (ns +:+ "-director-timestamp-private") ;;;
  deleteKey (ns +:+ "-director-root-public") ;;;
  deleteKey (ns +:+ "-director-targets-public") ;;;
  deleteKey (ns +:+ "-director-snapshot-public") ;;;
  deleteKey (ns +:+ "-director-timestamp-public").

(** [router.post('/namespaces')] of [modules/admin/index.ts].  [generated]
    is the row the store makes up, [k] the freshly generated keys. *)
Definition create (generated : NamespaceRow) (k : TufKeys) : M Response :=
  let version := 1 in
  let directorRepoRoot :=
    generateRoot now (TUF_TTL_DIRECTOR_ROOT config) version
      (directorRootKey k) (directorTargetsKey k) (directorSnapshotKey k)
      (directorTimestampKey k) in
  let imageRepoRoot :=
    generateRoot now (TUF_TTL_IMAGE_ROOT config) version
      (imageRootKey k) (imageTargetsKey k) (imageSnapshotKey k)
      (imageTimestampKey k) in
  namespace <- transaction (
    namespace <- namespace_create ViaTx generated ;;
    metadata_create ViaTx (root_row (id namespace) image version imageRepoRoot) ;;;
    metadata_create ViaTx
      (root_row (id namespace) director version directorRepoRoot) ;;;
    createBucket (id namespace) ;;;
    put_tuf_keys (id namespace) k ;;;
    ret namespace) ;;
  ret (respond 200 (Json (public_attributes namespace))).

(** [router.delete('/namespaces/:namespace')] of [modules/admin/index.ts] *)
Definition delete_namespace (namespace : string) : M Response :=
  namespaceCount <- tenant_count namespace ;;
  if namespaceCount =? 0
  then ret (respond 400 (Send "could not delete namespace"))
  else
    transaction (
      namespace_delete ViaTx namespace ;;;
      deleteBucket namespace ;;;
      delete_tuf_keys namespace) ;;;
    ret (respond 200 (Send "namespace deleted")).

(** [router.get('/namespaces/:namespace/provisioning-credentials')].
    [provisioningKeyPair] and [uuid] are what [generateKeyPair(2048)] and
    [uuidv4()] return in this request.  The certificate is read first,
    then the private and the public key; a read of the certificate that
    resolved to nothing makes its reader throw like a text that is no
    PEM. *)
Definition provisioning_credentials (namespace : string)
    (provisioningKeyPair : KeyPair) (uuid : string) : M Response :=
  namespaceCount <- tenant_count namespace ;;
  if namespaceCount =? 0
  then ret (respond 400 (Send "could not create provisioning key"))
  else
    rootCaPrivateKeyStr <- getKey (RootCAPrivateKeyId consts) ;;
    rootCaPublicKeyStr <- getKey (RootCAPublicKeyId consts) ;;
    rootCaCertStr <-
      getObject (InBucket (RootCABucket consts) (RootCACertObjId consts)) ;;
    match match rootCaCertStr with
          | Some c => certificateFromPem c
          | None => None
          end with
    | None => raise MalformedPem
    | Some rootCaCert =>
        match privateKeyFromPem rootCaPrivateKeyStr with
        | None => raise MalformedPem
        | Some rootCaPrivateKey =>
            match publicKeyFromPem rootCaPublicKeyStr with
            | None => raise MalformedPem
            | Some rootCaPublicKey =>
                let opts :=
                  {| commonName := uuid;
                     cert := rootCaCert;
                     keyPair := {| privateKey := rootCaPrivateKey;
                                   publicKey := rootCaPublicKey |} |} in
                let provisioningCert :=
                  generateCertificate provisioningKeyPair (Some opts) in
                let p12 :=
                  {| p12_key := privateKey provisioningKeyPair;
                     p12_chain := [provisioningCert; rootCaCert];
                     p12_password := None |} in
                ret (respond 200 (Pipe [
                  ("autoprov.url",
                   FileText (ROBOT_GATEWAY_HOSTNAME config
                             +:+ "/api/v0/director/" +:+ namespace));
                  ("autoprov_credentials.p12", FileP12 p12)]))
            end
        end
    end.

(* ---- sibling revision with a root CA per namespace ------------------ *)

(** [router.post('/namespaces')] of the revision that creates a root CA
    for the namespace. *)
Definition create_rootca (generated : NamespaceRow) (k : TufKeys)
    (rootCaKeyPair : KeyPair) : M Response :=
  let rootCert := generateCertificate rootCaKeyPair None in
  let version := 1 in
  let directorRepoRoot :=
    generateRoot now (TUF_TTL_DIRECTOR_ROOT config) version
      (directorRootKey k) (directorTargetsKey k) (directorSnapshotKey k)
      (directorTimestampKey k) in
  let imageRepoRoot :=
    generateRoot now (TUF_TTL_IMAGE_ROOT config) version
      (imageRootKey k) (imageTargetsKey k) (imageSnapshotKey k)
      (imageTimestampKey k) in
  namespace <- transaction (
    namespace <- namespace_create ViaTx generated ;;
    metadata_create ViaTx (root_row (id namespace) image version imageRepoRoot) ;;;
    metadata_create ViaTx
      (root_row (id namespace) director version directorRepoRoot) ;;;
    createBucket (id namespace) ;;;
    putObject (InBucket (id namespace) "rootca")
              (Text (certificateToPem rootCert)) ;;;
    putKey (id namespace +:+ "-rootca-private") (privateKey rootCaKeyPair) ;;;
    putKey (id namespace +:+ "-rootca-public") (publicKey rootCaKeyPair) ;;;
    put_tuf_keys (id namespace) k ;;;
    ret namespace) ;;
  ret (respond 200 (Json (public_attributes namespace))).

(** [router.delete('/namespaces/:namespace')] of the same revision. *)
Definition delete_namespace_rootca (namespace : string) : M Response :=
  namespaceCount <- tenant_count namespace ;;
  if namespaceCount =? 0
  then ret (respond 400 (Send "could not delete namespace"))
  else
    transaction (
      namespace_delete ViaTx namespace ;;;
      deleteBucket namespace ;;;
      deleteKey (namespace +:+ "-rootca-private") ;;;
      deleteKey (namespace +:+ "-rootca-public") ;;;
      delete_tuf_keys namespace) ;;;
    ret (respond 200 (Send "namespace deleted")).

End Admin.

(* --------------------------------------------------------------------- *)
(*  Admin router, single-metadata revision                                 *)
(* --------------------------------------------------------------------- *)

Module AdminSingle.

Fixpoint for_await {A} (l : list A) (f : A -> M unit) : M unit :=
  match l with
  | [] => ret tt
  | x :: r => f x ;;; for_await r f
  end.

(** The bucket id of a treehub object, from its row alone. *)
Definition treehubBucketId (namespace_id object_id : string) : string :=
  if String.eqb object_id "summary"
  then namespace_id +:+ "/" +:+ object_id
  else namespace_id +:+ "/" +:+ Js.take 2 object_id +:+ "/"
       +:+ Js.drop 2 object_id.

(** [router.post('/namespaces')]: one root document, created on the
    global client inside the callback; eight private keys. *)
Definition create (now ttl_image_root : nat) (generated : NamespaceRow)
    (k : TufKeys) : M Response :=
  let version := 1 in
  let value :=
    generateRoot now ttl_image_root version (imageRootKey k)
      (imageTargetsKey k) (imageSnapshotKey k) (imageTimestampKey k) in
  namespace <- transaction (
    namespace <- namespace_create ViaTx generated ;;
    metadata_create ViaClient
      {| namespace_id := id namespace; repo := None; role := root;
         version := version; value := value; expires_at := None |} ;;;
    putKey (id namespace +:+ "-image-root") (privateKey (imageRootKey k)) ;;;
    putKey (id namespace +:+ "-image-targets") (privateKey (imageTargetsKey k)) ;;;
    putKey (id namespace +:+ "-image-snapshot") (privateKey (imageSnapshotKey k)) ;;;
    putKey (id namespace +:+ "-image-timestamp") (privateKey (imageTimestampKey k)) ;;;
    putKey (id namespace +:+ "-director-root") (privateKey (directorRootKey k)) ;;;
    putKey (id namespace +:+ "-director-targets") (privateKey (directorTargetsKey k)) ;;;
    putKey (id namespace +:+ "-director-snapshot") (privateKey (directorSnapshotKey k)) ;;;
    putKey (id namespace +:+ "-director-timestamp") (privateKey (directorTimestampKey k)) ;;;
    ret namespace) ;;
  ret (respond 200 (Json {| pub_id := id namespace;
                            pub_created_at := created_at namespace;
                            pub_updated_at := updated_at namespace |})).

(** [router.delete('/namespaces/:namespace')]: the blobs are deleted one
    by one, under bucket ids derived from the deleted rows. *)
Definition delete_namespace (namespace : string) : M Response :=
  namespaceCount <- tenant_count namespace ;;
  if namespaceCount =? 0
  then ret (respond 400 (Send "could not delete namespace"))
  else
    transaction (
      namespaceObj <- namespace_delete ViaClient namespace ;;
      let treehubBucketIds :=
        (fun object_id => treehubBucketId namespace object_id)
          <$> namespaceObj.1 in
      for_await treehubBucketIds (fun bucketId => deleteObject (Flat bucketId)) ;;;
      let imageBucketIds := namespaceObj.2 in
      for_await imageBucketIds (fun bucketId => deleteObject (Flat bucketId)) ;;;
      deleteKey (namespace +:+ "-image-root") ;;;
      deleteKey (namespace +:+ "-image-targets") ;;;
      deleteKey (namespace +:+ "-image-snapshot") ;;;
      deleteKey (namespace +:+ "-image-timestamp") ;;;
      deleteKey (namespace +:+ "-director-root") ;;;
      deleteKey (namespace +:+ "-director-targets") ;;;
      deleteKey (namespace +:+ "-director-snapshot") ;;;
      deleteKey (namespace +:+ "-director-timestamp")) ;;;
    ret (respond 200 (Send "namespace deleted")).

End AdminSingle.

(* --------------------------------------------------------------------- *)
(*  Reading the log                                                        *)
(* --------------------------------------------------------------------- *)

Definition is_blob_event (e : Event) : bool :=
  match e with
  | BlobPut _ | BlobGet _ | BlobDeleteObject _
  | BlobCreateBucket _ | BlobDeleteBucket _ => true
  | _ => false
  end.

Definition is_key_event (e : Event) : bool :=
  match e with
  | KeyPut _ | KeyGet _ | KeyDelete _ => true
  | _ => false
  end.

Definition key_put_id (e : Event) : option string :=
  match e with KeyPut k => Some k | _ => None end.

Definition key_delete_id (e : Event) : option string :=
  match e with KeyDelete k => Some k | _ => None end.

Definition key_get_id (e : Event) : option string :=
  match e with KeyGet k => Some k | _ => None end.

(** The calls a handler made: what it appended to the log. *)
Definition calls {A} (m : M A) (w : World) : list Event :=
  drop (length (log w)) (log (m w).2).

Definition empty_db : Db :=
  {| namespaces := ∅; objects := ∅; metadata := []; images := ∅ |}.

Definition empty_bs : BlobStore :=
  {| blobs := ∅; buckets := ∅; outage := false; absent_rejects := true |}.

Definition empty_world : World :=
  {| db := empty_db; tx_snapshot := None; keys := ∅; bs := empty_bs;
     log := [] |}.

(* --------------------------------------------------------------------- *)
(*  Admin router: listing and rollouts                                     *)
(* --------------------------------------------------------------------- *)

Module Listing.

(** [orderBy: {created_at: 'desc'}]: the later row first; rows created at
    the same time stay in the order the store holds them. *)
Fixpoint insert_desc (n : NamespaceRow) (l : list NamespaceRow)
    : list NamespaceRow :=
  match l with
  | [] => [n]
  | m :: r =>
      if (created_at m <? created_at n)%nat
      then n :: m :: r
      else m :: insert_desc n r
  end.

(** [prisma.namespace.findMany({orderBy: {created_at: 'desc'}})] *)
Definition findMany (d : Db) : list NamespaceRow :=
  foldr insert_desc [] ((map_to_list (namespaces d)).*2).

(** [router.get('/namespaces')]: the handler reads the relational store
    and nothing else; it is given as a function of it, to the status and
    the JSON array of the response. *)
Definition list_namespaces (d : Db) : Z * list NamespacePublic :=
  let namespaces := findMany d in
  let response :=
    (fun namespace => {| pub_id := id namespace;
                         pub_created_at := created_at namespace;
                         pub_updated_at := updated_at namespace |})
      <$> namespaces in
  (200, response).

End Listing.

Module Rollouts.

Record TmpEcuImages := {
  image_id : string;
  ecu_id : string;
  created_at : nat;
  updated_at : nat;
}.

(** The tables the rollout route works on besides those of [Db]: the ids
    of the ecus and the rows of [tmpEcuImages]. *)
Record Fleet := {
  relational : Db;
  ecus : gset string;
  tmpEcuImages : list TmpEcuImages;
}.

Inductive Query :=
| NamespaceCount (id : string)
| EcuCount (id : string)
| ImageCount (id : string)
| TmpEcuImagesCreate (image_id ecu_id : string).

(** [res.status(400).send('could not create rollout')],
    [res.status(200).json(response)], or no response at all: the insert
    rejected and the handler catches nothing. *)
Inductive Reply :=
| Refused
| Created (response : TmpEcuImages)
| Rejected.

Definition status_of (r : Reply) : option Z :=
  match r with
  | Refused => Some 400
  | Created _ => Some 200
  | Rejected => None
  end.

Section Handler.

(** Whether the table takes a row next to the rows it holds is decided by
    the constraints of its schema, which the handler does not show. *)
Variable admits : list TmpEcuImages -> TmpEcuImages -> bool.

(** [router.post('/namespaces/:namespace/rollouts')], for a body that
    holds both ids; [now] is the time the store stamps the new row with.
    The result is the reply, the tables afterwards and the queries made. *)
Definition create_rollout (namespace_id ecu_id image_id : string) (now : nat)
    (f : Fleet) : Reply * Fleet * list Query :=
  let namespaceCount : Z :=
    match namespaces (relational f) !! namespace_id with
    | Some _ => 1
    | None => 0
    end in
  if namespaceCount =? 0
  then (Refused, f, [NamespaceCount namespace_id])
  else
    let ecuCount : Z := if decide (ecu_id ∈ ecus f) then 1 else 0 in
    if ecuCount =? 0
    then (Refused, f, [NamespaceCount namespace_id; EcuCount ecu_id])
    else
      let imageCount : Z :=
        match images (relational f) !! image_id with
        | Some _ => 1
        | None => 0
        end in
      if imageCount =? 0
      then (Refused, f, [NamespaceCount namespace_id; EcuCount ecu_id;
                         ImageCount image_id])
      else
        let queries :=
          [NamespaceCount namespace_id; EcuCount ecu_id; ImageCount image_id;
           TmpEcuImagesCreate image_id ecu_id] in
        let tmpRollout :=
          {| image_id := image_id; ecu_id := ecu_id; created_at := now;
             updated_at := now |} in
        if admits (tmpEcuImages f) tmpRollout
        then (Created tmpRollout,
              {| relational := relational f; ecus := ecus f;
                 tmpEcuImages := tmpEcuImages f ++ [tmpRollout] |},
              queries)
        else (Rejected, f, queries).

End Handler.

End Rollouts.

(* --------------------------------------------------------------------- *)
(*  Vocabulary of the properties                                           *)
(* --------------------------------------------------------------------- *)

(** The test [!size || size === 0 || isNaN(size)] of both upload routes. *)
Definition size_refused (h : option string) : bool :=
  let size := Js.parseInt_header h in
  Js.not_num size || Js.eq_zero size || Js.isNaN size.

(** Changing the status of the row of an object, if there is one. *)
Definition with_status (tenant object_id : string) (st : UploadStatus)
    (w : World) : World :=
  set_db (set_objects
            (alter (fun r => {| size := size r; status := st |})
                   (tenant, object_id) (objects (db w))) (db w)) w.

(** The row and the blob an upload leaves when every call succeeds. *)
Definition stored (tenant object_id : string) (sz : Js.num) (d : Db) : Db :=
  set_objects (<[(tenant, object_id) := {| size := sz; status := uploaded |}]>
                 (objects d)) d.

Definition written (a : BlobAddr) (c : Content) (b : BlobStore) : BlobStore :=
  set_blobs (<[a := c]> (blobs b)) b.

(** A world with one tenant and a blob store that rejects every call. *)
Definition faulty_world : World :=
  {| db := {| namespaces :=
                {[ "t1" := {| id := "t1"; created_at := 0; updated_at := 0 |} ]};
              objects := ∅; metadata := []; images := ∅ |};
     tx_snapshot := None;
     keys := ∅;
     bs := {| blobs := ∅; buckets := ∅; outage := true;
              absent_rejects := true |};
     log := [] |}.

(** A row whose blob is gone, under either addressing, in a store whose
    driver rejects the read of a key it does not hold. *)
Definition diverged_world : World :=
  {| db := {| namespaces :=
                {[ "t1" := {| id := "t1"; created_at := 0; updated_at := 0 |} ]};
              objects :=
                {[ ("t1", "abcdef") :=
                     {| size := Js.Num 4; status := uploaded |} ]};
              metadata := []; images := ∅ |};
     tx_snapshot := None;
     keys := ∅;
     bs := {| blobs := ∅; buckets := {[ "t1" ]}; outage := false;
              absent_rejects := true |};
     log := [] |}.


(** Two tenants that hold the same object, each with its row and its
    blob under either addressing, in a blob store that works. *)
Definition two_tenant_world : World :=
  {| db := {| namespaces :=
                {[ "t1" := {| id := "t1"; created_at := 0; updated_at := 0 |};
                   "t2" := {| id := "t2"; created_at := 0; updated_at := 0 |} ]};
              objects :=
                {[ ("t1", "abcdef") :=
                     {| size := Js.Num 1; status := uploaded |};
                   ("t2", "abcdef") :=
                     {| size := Js.Num 1; status := uploaded |} ]};
              metadata := []; images := ∅ |};
     tx_snapshot := None;
     keys := ∅;
     bs := {| blobs := {[ InBucket "t1" "treehub/ab/cdef" := Buffer [x31];
                          InBucket "t2" "treehub/ab/cdef" := Buffer [x32];
                          Flat "t1/ab/cdef" := Buffer [x31];
                          Flat "t2/ab/cdef" := Buffer [x32] ]};
              buckets := {[ "t1"; "t2" ]}; outage := false;
              absent_rejects := true |};
     log := [] |}.



(** A tenant id is a path segment: it holds no "/". *)
Fixpoint no_slash (s : string) : bool :=
  match s with
  | EmptyString => true
  | String c r => negb (Ascii.eqb c "/") && no_slash r
  end.

(** [s.startsWith(p)] *)
Fixpoint starts_with (p s : string) : bool :=
  match p, s with
  | EmptyString, _ => true
  | String a p', String b s' => Ascii.eqb a b && starts_with p' s'
  | String _ _, EmptyString => false
  end.

(** The blobs of a tenant: those of its bucket, or, for a bucket id made
    by concatenation, those under "{tenant}/". *)
Definition owns (tenant : string) (a : BlobAddr) : bool :=
  match a with
  | Flat bucketId => starts_with (tenant +:+ "/") bucketId
  | InBucket bucket _ => String.eqb bucket tenant
  end.

(** A store call that names a row or a blob of the tenant. *)
Definition touches (tenant : string) (e : Event) : bool :=
  match e with
  | DbTenantCount t | DbNamespaceDelete _ t | DbMetadataCreate _ t
  | DbObjectUpsert _ t _ | DbObjectUpdate _ t _ | DbObjectFind t _ =>
      String.eqb t tenant
  | BlobPut a | BlobGet a | BlobDeleteObject a => owns tenant a
  | BlobCreateBucket b | BlobDeleteBucket b => String.eqb b tenant
  | DbNamespaceCreate _ | KeyPut _ | KeyGet _ | KeyDelete _ => false
  end.

(** A run for [t1] is isolated from [t2]: each of its store calls names
    [t1] and none names [t2], and the rows and blobs of [t2] are after the
    run what they were before. *)
Definition isolated {A} (m : M A) (t1 t2 : string) (w : World) : Prop :=
  Forall (fun e => touches t1 e = true /\ touches t2 e = false) (calls m w)
  /\ (forall object_id,
        objects (db (m w).2) !! (t2, object_id)
          = objects (db w) !! (t2, object_id))
  /\ (forall a, owns t2 a = true ->
        blobs (bs (m w).2) !! a = blobs (bs w) !! a).

Inductive KeyUse := private | public.

Definition repo_name (r : TUFRepo) : string :=
  match r with image => "image" | director => "director" end.

Definition role_name (r : TUFRole) : string :=
  match r with
  | root => "root" | targets => "targets"
  | snapshot => "snapshot" | timestamp => "timestamp"
  end.

Definition use_name (u : KeyUse) : string :=
  match u with private => "private" | public => "public" end.

(** The identifier of a key record, as the spec words it:
    {namespace_id}-{repo}-{role}-{private|public}. *)
Definition key_record_id (namespace_id : string) (r : TUFRepo) (rl : TUFRole)
    (u : KeyUse) : string :=
  namespace_id +:+ "-" +:+ repo_name r +:+ "-" +:+ role_name rl +:+ "-"
  +:+ use_name u.

(** The fixed enumeration of (repo, role, use). *)
Definition key_record_ids (namespace_id : string) : list string :=
  r ← [image; director];
  u ← [private; public];
  rl ← [root; targets; snapshot; timestamp];
  [key_record_id namespace_id r rl u].

(** The same for the revision that keeps private keys only:
    {namespace_id}-{repo}-{role}. *)
Definition private_key_ids (namespace_id : string) : list string :=
  r ← [image; director];
  rl ← [root; targets; snapshot; timestamp];
  [namespace_id +:+ "-" +:+ repo_name r +:+ "-" +:+ role_name rl].

Definition rootca_key_ids (namespace_id : string) : list string :=
  [namespace_id +:+ "-rootca-private"; namespace_id +:+ "-rootca-public"].

(** The relational store with one more namespace and its metadata rows. *)
Definition with_namespace (n : NamespaceRow) (rows : list MetadataRow)
    (d : Db) : Db :=
  {| namespaces := <[id n := n]> (namespaces d);
     objects := objects d;
     metadata := metadata d ++ rows;
     images := images d |}.

Definition image_root (config : Config) (now : nat) (k : TufKeys) : RootDoc :=
  generateRoot now (TUF_TTL_IMAGE_ROOT config) 1 (imageRootKey k)
    (imageTargetsKey k) (imageSnapshotKey k) (imageTimestampKey k).

Definition director_root (config : Config) (now : nat) (k : TufKeys)
    : RootDoc :=
  generateRoot now (TUF_TTL_DIRECTOR_ROOT config) 1 (directorRootKey k)
    (directorTargetsKey k) (directorSnapshotKey k) (directorTimestampKey k).

Definition two_roots (config : Config) (now : nat) (n : NamespaceRow)
    (k : TufKeys) : list MetadataRow :=
  [root_row (id n) image 1 (image_root config now k);
   root_row (id n) director 1 (director_root config now k)].

Definition delete_refused : Response :=
  respond 400 (Send "could not delete namespace").
Definition delete_done : Response :=
  respond 200 (Send "namespace deleted").

Definition is_db_event (e : Event) : bool :=
  negb (is_blob_event e) && negb (is_key_event e).

(** The statements a handler issued on the relational store. *)
Definition db_calls {A} (m : M A) (w : World) : list Event :=
  filter (fun e => is_db_event e = true) (calls m w).

(** A creation in a store with no namespace, and the keys it is given. *)
Definition sample_namespace : NamespaceRow :=
  {| id := "ns1"; created_at := 7; updated_at := 7 |}.

Definition sample_keys : TufKeys :=
  {| imageRootKey := {| privateKey := "ir-"; publicKey := "ir+" |};
     imageTargetsKey := {| privateKey := "it-"; publicKey := "it+" |};
     imageSnapshotKey := {| privateKey := "is-"; publicKey := "is+" |};
     imageTimestampKey := {| privateKey := "im-"; publicKey := "im+" |};
     directorRootKey := {| privateKey := "dr-"; publicKey := "dr+" |};
     directorTargetsKey := {| privateKey := "dt-"; publicKey := "dt+" |};
     directorSnapshotKey := {| privateKey := "ds-"; publicKey := "ds+" |};
     directorTimestampKey := {| privateKey := "dm-"; publicKey := "dm+" |} |}.

Definition sample_config : Config :=
  {| TUF_TTL_IMAGE_ROOT := 365; TUF_TTL_DIRECTOR_ROOT := 365;
     ROBOT_GATEWAY_HOSTNAME := "https://gateway.example" |}.

Definition provisioning_refused : Response :=
  respond 400 (Send "could not create provisioning key").

(** Sample values for the identifiers of [core/consts], and a store that
    holds a root CA under them besides the root CA that the root-CA
    revision of the creation stored for the namespace "ns1". *)
Definition sample_consts : Consts :=
  {| RootCABucket := "root-ca"; RootCACertObjId := "root-ca-cert";
     RootCAPrivateKeyId := "root-ca-private";
     RootCAPublicKeyId := "root-ca-public" |}.

(** Sample readers: a certificate is read from the text, or from the
    bytes of a Buffer taken as text; a key text holds its key after the
    heading "pem:". *)
Definition sample_fromPem (c : Content) : option Certificate :=
  let pem := match c with
             | Text s => s
             | Buffer b => string_of_list_byte b
             end in
  if String.eqb pem "SHARED-PEM" then Some (SelfSigned "shared+" "shared-")
  else if String.eqb pem "NS1-PEM" then Some (SelfSigned "ns1+" "ns1-")
  else None.

Definition sample_keyFromPem (s : string) : option string :=
  match s with
  | String "p" (String "e" (String "m" (String ":" key))) => Some key
  | _ => None
  end.

Definition two_ca_world : World :=
  {| db := {| namespaces := {[ "ns1" := sample_namespace ]};
              objects := ∅; metadata := []; images := ∅ |};
     tx_snapshot := None;
     keys := {[ "root-ca-private" := "pem:shared-";
                "root-ca-public" := "pem:shared+";
                "ns1-rootca-private" := "pem:ns1-";
                "ns1-rootca-public" := "pem:ns1+" ]};
     bs := {| blobs := {[ InBucket "root-ca" "root-ca-cert" := Text "SHARED-PEM";
                          InBucket "ns1" "rootca" := Text "NS1-PEM" ]};
              buckets := {[ "root-ca"; "ns1" ]};
              outage := false; absent_rejects := true |};
     log := [] |}.

(** The same store when the driver returns the certificate as a Buffer. *)
Definition two_ca_world_buffer : World :=
  set_bs (set_blobs (<[ InBucket "root-ca" "root-ca-cert"
                        := Buffer (list_byte_of_string "SHARED-PEM") ]>
                       (blobs (bs two_ca_world)))
            (bs two_ca_world))
    two_ca_world.

(** A namespace that has its own root CA where the root-CA revision of
    the creation puts it, and nothing else in the key store and the blob
    store. *)
Definition own_ca_world (ns : string) : World :=
  {| db := {| namespaces :=
                {[ ns := {| id := ns; created_at := 0; updated_at := 0 |} ]};
              objects := ∅; metadata := []; images := ∅ |};
     tx_snapshot := None;
     keys := {[ ns +:+ "-rootca-private" := "pem:ns1-";
                ns +:+ "-rootca-public" := "pem:ns1+" ]};
     bs := {| blobs := {[ InBucket ns "rootca" := Text "NS1-PEM" ]};
              buckets := {[ ns ]};
              outage := false; absent_rejects := true |};
     log := [] |}.

(** The bucket ids of a namespace as the per-object deletion computes
    them from the rows it deleted. *)
Definition derived_keys (ns : string) (d : Db) : list string :=
  ((AdminSingle.treehubBucketId ns <$>
      ((fun kv : string * string * ObjectRow => kv.1.2) <$>
         map_to_list
           (filter (fun kv : string * string * ObjectRow => kv.1.1 = ns)
              (objects d))))
   ++ ((fun kv : string * string => kv.1) <$>
         map_to_list
           (filter (fun kv : string * string => kv.2 = ns) (images d))))%list.

(** A namespace with two objects, one filed under its first two
    characters and one under its first three. *)
Definition sharded_world : World :=
  {| db := {| namespaces :=
                {[ "t1" := {| id := "t1"; created_at := 0; updated_at := 0 |} ]};
              objects :=
                {[ ("t1", "abcdef") :=
                     {| size := Js.Num 1; status := uploaded |};
                   ("t1", "abcxyz") :=
                     {| size := Js.Num 1; status := uploaded |} ]};
              metadata := []; images := ∅ |};
     tx_snapshot := None;
     keys := ∅;
     bs := {| blobs := {[ Flat "t1/ab/cdef" := Buffer [x2a];
                          Flat "t1/abc/xyz" := Buffer [x2b] ]};
              buckets := ∅; outage := false; absent_rejects := true |};
     log := [] |}.

(** The number that a string of decimal digits writes; [None] for the
    empty string and for a string with any other character.  This is the
    form of a content-length header that reaches a handler. *)
Definition is_digit (c : ascii) : bool :=
  let n := Z.of_nat (nat_of_ascii c) in (48 <=? n) && (n <=? 57).

Fixpoint decimal_from (acc : Z) (s : string) : option Z :=
  match s with
  | EmptyString => Some acc
  | String c r =>
      if is_digit c
      then decimal_from (10 * acc + (Z.of_nat (nat_of_ascii c) - 48)) r
      else None
  end.

Definition decimal (s : string) : option Z :=
  match s with
  | EmptyString => None
  | _ => decimal_from 0 s
  end.

(** The bytes of a string, as numbers. *)
Definition bytes_of (s : string) : list N :=
  N_of_ascii <$> list_ascii_of_string s.

(* ---- vocabulary of the further properties ---------------------------- *)

(** The answer of a download that sends a body: status 200 with the
    content type of a byte stream. *)
Definition octet_stream (c : option Content) : Response :=
  {| code := 200; content_type := Some "application/octet-stream";
     body := SendContent c |}.

(** The key pair of a repository and a role among the eight pairs a
    creation generates. *)
Definition tuf_key (k : TufKeys) (r : TUFRepo) (rl : TUFRole) : KeyPair :=
  match r, rl with
  | image, root => imageRootKey k
  | image, targets => imageTargetsKey k
  | image, snapshot => imageSnapshotKey k
  | image, timestamp => imageTimestampKey k
  | director, root => directorRootKey k
  | director, targets => directorTargetsKey k
  | director, snapshot => directorSnapshotKey k
  | director, timestamp => directorTimestampKey k
  end.

(** The half of a key pair a key record holds. *)
Definition key_material (kp : KeyPair) (u : KeyUse) : string :=
  match u with private => privateKey kp | public => publicKey kp end.

(** The key records of a namespace: each identifier of the enumeration
    with the key it is to hold. *)
Definition key_records (namespace_id : string) (k : TufKeys)
    : list (string * string) :=
  r ← [image; director];
  u ← [private; public];
  rl ← [root; targets; snapshot; timestamp];
  [(key_record_id namespace_id r rl u, key_material (tuf_key k r rl) u)].

(** A key store after the writes, and after the deletions, of a list of
    records, in the order of the list. *)
Definition put_all (kvs : list (string * string)) (m : gmap string string)
    : gmap string string :=
  foldl (fun m kv => <[kv.1 := kv.2]> m) m kvs.

Definition delete_all (ids : list string) (m : gmap string string)
    : gmap string string :=
  foldl (fun m k => delete k m) m ids.

(** The blob store with one more bucket, and with a bucket and its blobs
    gone. *)
Definition with_bucket (b : string) (s : BlobStore) : BlobStore :=
  set_buckets ({[b]} ∪ buckets s) s.

Definition without_bucket (b : string) (s : BlobStore) : BlobStore :=
  set_buckets (buckets s ∖ {[b]})
    (set_blobs (filter (fun kv => in_bucket b kv.1 = false) (blobs s)) s).

(** Nothing of the namespace is in the relational store or the blob
    store. *)
Definition unused_id (ns : string) (w : World) : Prop :=
  namespaces (db w) !! ns = None
  /\ (forall object_id, objects (db w) !! (ns, object_id) = None)
  /\ Forall (fun m => namespace_id m <> ns) (metadata (db w))
  /\ (forall i, images (db w) !! i <> Some ns)
  /\ (ns ∉ buckets (bs w))
  /\ (forall key, blobs (bs w) !! InBucket ns key = None).

(** The later of two rows comes first. *)
Definition later_first (a b : NamespaceRow) : Prop :=
  (created_at b <= created_at a)%nat.

(** No insert into tmpEcuImages among the queries. *)
Definition TmpEcuImagesCreate_free (q : list Rollouts.Query) : Prop :=
  Forall (fun x => match x with
                   | Rollouts.TmpEcuImagesCreate _ _ => False
                   | _ => True
                   end) q.

(** A fleet with one namespace, one ecu and an image of another
    namespace. *)
Definition sample_fleet : Rollouts.Fleet :=
  {| Rollouts.relational :=
       {| namespaces := {[ "ns1" := sample_namespace ]};
          objects := ∅; metadata := [];
          images := {[ "img-of-ns2" := "ns2" ]} |};
     Rollouts.ecus := {[ "ecu1" ]};
     Rollouts.tmpEcuImages := [] |}.

(* ===================================================================== *)
(*  Properties                                                             *)
(* ===================================================================== *)

Lemma size_refused_iff h :
  size_refused h = true <->
  Js.parseInt_header h = Js.NaN \/ Js.parseInt_header h = Js.Num 0.
Proof.
  unfold size_refused. destruct (Js.parseInt_header h) as [|z|b]; simpl.
  - split; [by left | done].
  - rewrite orb_false_r, orb_diag, Z.eqb_eq. split.
    + intros ->. by right.
    + by intros [|[= ->]].
  - split; [done | by intros [|]].
Qed.

Lemma size_accepted_num h :
  size_refused h = false ->
  (exists z, Js.parseInt_header h = Js.Num z /\ z <> 0)
  \/ (exists b, Js.parseInt_header h = Js.Inf b).
Proof.
  unfold size_refused. destruct (Js.parseInt_header h) as [|z|b]; simpl;
    [done| |eauto].
  rewrite orb_false_r, orb_diag, Z.eqb_neq. eauto.
Qed.

Lemma parseInt_missing : Js.parseInt_header None = Js.NaN.
Proof. reflexivity. Qed.

(** What [parseInt] makes of some header values: above 2^53 the nearest
    float64, and an infinity for a number no float64 reaches. *)
Example parseInt_samples :
  Js.parseInt "42" = Js.Num 42 /\ Js.parseInt "0" = Js.Num 0 /\
  Js.parseInt "000" = Js.Num 0 /\ Js.parseInt "" = Js.NaN /\
  Js.parseInt "abc" = Js.NaN /\ Js.parseInt "12abc" = Js.Num 12 /\
  Js.parseInt " -7" = Js.Num (-7) /\ Js.parseInt "0x1f" = Js.Num 31 /\
  Js.parseInt "9007199254740992" = Js.Num 9007199254740992 /\
  Js.parseInt "9007199254740993" = Js.Num 9007199254740992 /\
  Js.parseInt "9007199254740995" = Js.Num 9007199254740996 /\
  Js.parseInt "18446744073709551615" = Js.Num 18446744073709551616 /\
  Js.to_double (2 ^ 1024 - 2 ^ 970 - 1)
    = Js.Num (2 ^ 1024 - 2 ^ 971) /\
  Js.to_double (2 ^ 1024 - 2 ^ 970) = Js.Inf false /\
  Js.to_double (- 2 ^ 1024) = Js.Inf true.
Proof. vm_compute. repeat split. Qed.

(** What [substring] makes of an object id: two code units, which are two
    bytes of an ASCII id, three of an id that begins with an accented e
    and an a, and the four of a character beyond the basic plane; a cut
    through such a character leaves the halves of its pair. *)
Example substring_samples :
  Js.take 2 "abcdef" = "ab" /\ Js.drop 2 "abcdef" = "cdef" /\
  String.length "éa" = 3%nat /\ Js.length "éa" = 2%nat /\
  Js.take 2 "éabc" = "éa" /\ Js.drop 2 "éabc" = "bc" /\
  String.length "😀" = 4%nat /\ Js.length "😀" = 2%nat /\
  Js.take 2 "😀bc" = "😀" /\ Js.drop 2 "😀bc" = "bc" /\
  bytes_of (Js.take 2 "a😀bc") = [97; 237; 160; 189]%N /\
  bytes_of (Js.drop 2 "a😀bc") = [237; 184; 128; 98; 99]%N /\
  Js.length (Js.take 2 "a😀bc") = 2%nat /\
  Js.take 2 "a" = "a" /\ Js.drop 2 "a" = "".
Proof. vm_compute. repeat split. Qed.

Ltac run_handler :=
  unfold TreehubTeam.upload, TreehubTeam.head, TreehubTeam.download,
    TreehubNamespace.upload, TreehubNamespace.download,
    tenant_count, object_upsert, object_update, object_findUnique,
    putObject, getObject, blob_call, transaction, write_db, emit,
    bind, ret, raise;
  simpl.

(** C5: an upload whose content-length is missing, parses to zero or is
    not a number is answered 400 by both routes and leaves the world as
    it was: no row, no blob and no entry in the log of store calls. *)
Theorem upload_bad_size_no_store_access
    (tenant prefix suffix : string) (content : Content)
    (content_length : option string) (w : World) :
  content_length = None \/
  Js.parseInt_header content_length = Js.Num 0 \/
  Js.parseInt_header content_length = Js.NaN ->
  TreehubTeam.upload tenant prefix suffix content content_length w
    = (Ret (respond 400 End), w)
  /\ TreehubNamespace.upload tenant prefix suffix content content_length w
    = (Ret (respond 400 End), w).
Proof.
  intros H.
  assert (Hr : size_refused content_length = true).
  { apply size_refused_iff. destruct H as [-> | [H | H]]; auto. }
  unfold size_refused in Hr.
  unfold TreehubTeam.upload, TreehubNamespace.upload.
  rewrite Hr. done.
Qed.

Lemma upload_bad_size_no_store_access_witness :
  TreehubTeam.upload "t1" "ab" "cdef" (Buffer [x2a]) (Some "0") empty_world
    = (Ret (respond 400 End), empty_world)
  /\ TreehubNamespace.upload "t1" "ab" "cdef" (Buffer [x2a]) (Some "0")
       empty_world
    = (Ret (respond 400 End), empty_world).
Proof.
  apply (upload_bad_size_no_store_access "t1" "ab" "cdef" (Buffer [x2a])
           (Some "0") empty_world).
  right. left. reflexivity.
Defined.

(** C3: HEAD answers 200 exactly when a row for (team, prefix+suffix) is
    in the relational store and 404 otherwise; its only store call is the
    one [findUnique], it changes no store, and its answer is the same for
    any status of the row and any content of the blob store. *)
Theorem head_answers_from_rows_only
    (teamID prefix suffix : string) (w : World) :
  let r := TreehubTeam.head teamID prefix suffix w in
  (r.1 = Ret (respond 200 End)
     <-> is_Some (objects (db w) !! (teamID, prefix +:+ suffix)))
  /\ (r.1 = Ret (respond 404 End)
     <-> objects (db w) !! (teamID, prefix +:+ suffix) = None)
  /\ log r.2 = (log w ++ [DbObjectFind teamID (prefix +:+ suffix)])%list
  /\ filter (fun e => is_blob_event e = true) (calls
       (TreehubTeam.head teamID prefix suffix) w) = []
  /\ db r.2 = db w /\ bs r.2 = bs w /\ keys r.2 = keys w
  /\ (forall b : BlobStore,
        (TreehubTeam.head teamID prefix suffix (set_bs b w)).1 = r.1)
  /\ (forall st : UploadStatus,
        (TreehubTeam.head teamID prefix suffix
           (with_status teamID (prefix +:+ suffix) st w)).1 = r.1).
Proof.
  unfold calls. run_handler.
  destruct (objects (db w) !! (teamID, prefix +:+ suffix)) as [row|] eqn:E;
    simpl; rewrite drop_app_length;
    repeat split; try done; eauto;
    try (intros st; rewrite lookup_alter_eq, E; done);
    try (by intros [? ?]).
Qed.

(* ---- upload: what a run with an accepted size does ------------------- *)

Lemma namespace_upload_run (namespace prefix suffix : string)
    (content : Content) (content_length : option string) (w : World) :
  size_refused content_length = false ->
  let object_id := prefix +:+ suffix in
  let a := Flat (namespace +:+ "/" +:+ prefix +:+ "/" +:+ suffix) in
  TreehubNamespace.upload namespace prefix suffix content content_length w =
    if outage (bs w)
    then (Raise BlobFailure,
          {| db := db w; tx_snapshot := None; keys := keys w; bs := bs w;
             log := log w ++ [DbObjectUpsert ViaTx namespace object_id;
                              BlobPut a] |})
    else (Ret (respond 200 End),
          {| db := stored namespace object_id
                     (Js.parseInt_header content_length) (db w);
             tx_snapshot := None; keys := keys w;
             bs := written a content (bs w);
             log := log w ++ [DbObjectUpsert ViaTx namespace object_id;
                              BlobPut a;
                              DbObjectUpdate ViaTx namespace object_id] |}).
Proof.
  intros Hsz. unfold size_refused in Hsz.
  unfold TreehubNamespace.upload. rewrite Hsz. run_handler.
  destruct (outage (bs w)); simpl.
  - by rewrite <- !app_assoc.
  - rewrite lookup_insert_eq. simpl. unfold stored, written, set_objects.
    simpl. rewrite alter_insert_eq. simpl.
    by rewrite <- !app_assoc.
Qed.

Lemma team_upload_run (teamID prefix suffix : string)
    (content : Content) (content_length : option string) (w : World) :
  size_refused content_length = false ->
  is_Some (namespaces (db w) !! teamID) ->
  let object_id := prefix +:+ suffix in
  let a := InBucket teamID ("treehub/" +:+ prefix +:+ "/" +:+ suffix) in
  TreehubTeam.upload teamID prefix suffix content content_length w =
    if outage (bs w)
    then (Raise BlobFailure,
          {| db := db w; tx_snapshot := None; keys := keys w; bs := bs w;
             log := log w ++ [DbTenantCount teamID;
                              DbObjectUpsert ViaTx teamID object_id;
                              BlobPut a] |})
    else (Ret (respond 204 End),
          {| db := stored teamID object_id
                     (Js.parseInt_header content_length) (db w);
             tx_snapshot := None; keys := keys w;
             bs := written a content (bs w);
             log := log w ++ [DbTenantCount teamID;
                              DbObjectUpsert ViaTx teamID object_id;
                              BlobPut a;
                              DbObjectUpdate ViaTx teamID object_id] |}).
Proof.
  intros Hsz [n Hn]. unfold size_refused in Hsz.
  unfold TreehubTeam.upload. rewrite Hsz. run_handler. rewrite Hn. simpl.
  destruct (outage (bs w)); simpl.
  - by rewrite <- !app_assoc.
  - rewrite lookup_insert_eq. simpl. unfold stored, written, set_objects.
    simpl. rewrite alter_insert_eq. simpl.
    by rewrite <- !app_assoc.
Qed.

(** What a download does once the row is found. *)
Lemma namespace_download_run (namespace prefix suffix : string) (w : World) :
  let object_id := prefix +:+ suffix in
  let a := Flat (namespace +:+ "/" +:+ prefix +:+ "/" +:+ suffix) in
  let r := TreehubNamespace.download namespace prefix suffix w in
  db r.2 = db w /\ bs r.2 = bs w /\ keys r.2 = keys w
  /\ log r.2 =
       (log w ++ DbObjectFind namespace object_id ::
          match objects (db w) !! (namespace, object_id) with
          | Some _ => [BlobGet a]
          | None => []
          end)%list.
Proof.
  run_handler.
  destruct (objects (db w) !! _) as [row|]; simpl; [|repeat split].
  run_handler. destruct (outage (bs w)); simpl.
  { rewrite <- !app_assoc. repeat split. }
  destruct (blobs (bs w) !! _) as [c|]; simpl.
  - destruct (truthy (Some c)); simpl; rewrite <- !app_assoc; repeat split.
  - destruct (absent_rejects (bs w)); simpl; rewrite <- !app_assoc; repeat split.
Qed.

Lemma team_download_run (team_id prefix suffix : string) (w : World) :
  let object_id := prefix +:+ suffix in
  let a := InBucket team_id ("treehub/" +:+ prefix +:+ "/" +:+ suffix) in
  let r := TreehubTeam.download team_id prefix suffix w in
  db r.2 = db w /\ bs r.2 = bs w /\ keys r.2 = keys w
  /\ log r.2 =
       (log w ++ DbObjectFind team_id object_id ::
          match objects (db w) !! (team_id, object_id) with
          | Some _ => [BlobGet a]
          | None => []
          end)%list.
Proof.
  run_handler.
  destruct (objects (db w) !! _) as [row|]; simpl; [|repeat split].
  run_handler. destruct (outage (bs w)); simpl.
  { rewrite <- !app_assoc. repeat split. }
  destruct (blobs (bs w) !! _) as [c|]; simpl.
  - rewrite <- !app_assoc. repeat split.
  - destruct (absent_rejects (bs w)); simpl; rewrite <- !app_assoc; repeat split.
Qed.

(* ---- upload: a blob write that fails ---------------------------------- *)

(** C1, as stated, fails: on [faulty_world] the upsert is issued, the blob
    write rejects, and afterwards there is no row for the object at all. *)
Lemma upload_failure_row_not_left_uploading :
  ~ (forall (tenant prefix suffix : string) (content : Content)
            (content_length : option string) (w : World),
        size_refused content_length = false ->
        is_Some (namespaces (db w) !! tenant) ->
        outage (bs w) = true ->
        exists row,
          objects (db (TreehubTeam.upload tenant prefix suffix content
                         content_length w).2) !! (tenant, prefix +:+ suffix)
            = Some row
          /\ status row = uploading).
Proof.
  intros H.
  destruct (H "t1" "ab" "cdef" (Buffer [x2a]) (Some "1") faulty_world)
    as [row [Hrow _]].
  - reflexivity.
  - by eexists.
  - reflexivity.
  - vm_compute in Hrow. discriminate.
Qed.

(** C1, amended: when the blob write rejects after the upsert, the upload
    ends with that rejection and the transaction is rolled back: the
    relational store is what it was before the request (no row if there
    was none, the old size and status otherwise), and no blob is written.
    The store calls made are the upsert and the write (after the team
    count, on the team route). *)
Theorem upload_blob_failure_rolls_back
    (tenant prefix suffix : string) (content : Content)
    (content_length : option string) (w : World) :
  size_refused content_length = false ->
  outage (bs w) = true ->
  (let r := TreehubNamespace.upload tenant prefix suffix content
              content_length w in
   r.1 = Raise BlobFailure
   /\ db r.2 = db w /\ bs r.2 = bs w
   /\ log r.2 =
        (log w ++ [DbObjectUpsert ViaTx tenant (prefix +:+ suffix);
                   BlobPut (Flat (tenant +:+ "/" +:+ prefix +:+ "/"
                                  +:+ suffix))])%list)
  /\ (is_Some (namespaces (db w) !! tenant) ->
      let r := TreehubTeam.upload tenant prefix suffix content
                 content_length w in
      r.1 = Raise BlobFailure
      /\ db r.2 = db w /\ bs r.2 = bs w
      /\ log r.2 =
           (log w ++ [DbTenantCount tenant;
                      DbObjectUpsert ViaTx tenant (prefix +:+ suffix);
                      BlobPut (InBucket tenant ("treehub/" +:+ prefix
                                                +:+ "/" +:+ suffix))])%list).
Proof.
  intros Hsz Hout. unfold size_refused in Hsz. split.
  - unfold TreehubNamespace.upload. rewrite Hsz. run_handler.
    rewrite Hout. simpl. by rewrite <- !app_assoc.
  - intros [n Hn]. unfold TreehubTeam.upload. rewrite Hsz. run_handler.
    rewrite Hn. simpl. rewrite Hout. simpl. by rewrite <- !app_assoc.
Qed.

Lemma upload_blob_failure_rolls_back_witness :
  (let r := TreehubNamespace.upload "t1" "ab" "cdef" (Buffer [x2a])
              (Some "1") faulty_world in
   r.1 = Raise BlobFailure
   /\ db r.2 = db faulty_world /\ bs r.2 = bs faulty_world
   /\ log r.2 =
        (log faulty_world ++
           [DbObjectUpsert ViaTx "t1" ("ab" +:+ "cdef");
            BlobPut (Flat ("t1" +:+ "/" +:+ "ab" +:+ "/" +:+ "cdef"))])%list)
  /\ (is_Some (namespaces (db faulty_world) !! "t1") ->
      let r := TreehubTeam.upload "t1" "ab" "cdef" (Buffer [x2a])
                 (Some "1") faulty_world in
      r.1 = Raise BlobFailure
      /\ db r.2 = db faulty_world /\ bs r.2 = bs faulty_world
      /\ log r.2 =
           (log faulty_world ++
              [DbTenantCount "t1";
               DbObjectUpsert ViaTx "t1" ("ab" +:+ "cdef");
               BlobPut (InBucket "t1" ("treehub/" +:+ "ab" +:+ "/"
                                       +:+ "cdef"))])%list).
Proof.
  apply (upload_blob_failure_rolls_back "t1" "ab" "cdef" (Buffer [x2a])
           (Some "1") faulty_world); reflexivity.
Defined.

(* ---- download --------------------------------------------------------- *)

(** Without a row both download routes answer 404 after the one
    [findUnique]; the blob store is not called. *)
Lemma download_no_row (tenant prefix suffix : string) (w : World) :
  objects (db w) !! (tenant, prefix +:+ suffix) = None ->
  (let r := TreehubNamespace.download tenant prefix suffix w in
   r.1 = Ret (respond 404 End)
   /\ log r.2 = (log w ++ [DbObjectFind tenant (prefix +:+ suffix)])%list
   /\ db r.2 = db w /\ bs r.2 = bs w)
  /\ (let r := TreehubTeam.download tenant prefix suffix w in
      r.1 = Ret (respond 404 End)
      /\ log r.2 = (log w ++ [DbObjectFind tenant (prefix +:+ suffix)])%list
      /\ db r.2 = db w /\ bs r.2 = bs w).
Proof. intros E. run_handler. rewrite E. done. Qed.

(** With a row, whatever its status, and a readable blob both routes
    answer 200 with the bytes as [application/octet-stream]. *)
Lemma download_hit (tenant prefix suffix : string) (w : World)
    (row : ObjectRow) (c : Content) :
  objects (db w) !! (tenant, prefix +:+ suffix) = Some row ->
  outage (bs w) = false ->
  truthy (Some c) = true ->
  (blobs (bs w) !! Flat (tenant +:+ "/" +:+ prefix +:+ "/" +:+ suffix)
     = Some c ->
   (TreehubNamespace.download tenant prefix suffix w).1
     = Ret {| code := 200; content_type := Some "application/octet-stream";
              body := SendContent (Some c) |})
  /\ (blobs (bs w) !! InBucket tenant ("treehub/" +:+ prefix +:+ "/"
                                       +:+ suffix) = Some c ->
      (TreehubTeam.download tenant prefix suffix w).1
        = Ret {| code := 200;
                 content_type := Some "application/octet-stream";
                 body := SendContent (Some c) |}).
Proof.
  intros E Hout Ht. split; intros Hb; run_handler; rewrite E; simpl;
    run_handler; rewrite Hout, Hb; simpl; [|done].
  by rewrite Ht.
Qed.

(** The team route catches a rejected read and answers 500. *)
Lemma team_download_rejected_read (team_id prefix suffix : string)
    (w : World) (row : ObjectRow) :
  objects (db w) !! (team_id, prefix +:+ suffix) = Some row ->
  outage (bs w) = true
  \/ (blobs (bs w) !! InBucket team_id ("treehub/" +:+ prefix +:+ "/"
                                        +:+ suffix) = None
      /\ absent_rejects (bs w) = true) ->
  let r := TreehubTeam.download team_id prefix suffix w in
  r.1 = Ret (respond 500 End) /\ db r.2 = db w /\ bs r.2 = bs w.
Proof.
  intros E H. run_handler. rewrite E. simpl. run_handler.
  destruct H as [-> | [-> ->]]; [done|].
  by destruct (outage (bs w)).
Qed.

(** The namespace route answers 500 when the read resolves to nothing. *)
Lemma namespace_download_nothing (namespace prefix suffix : string)
    (w : World) (row : ObjectRow) :
  objects (db w) !! (namespace, prefix +:+ suffix) = Some row ->
  outage (bs w) = false ->
  absent_rejects (bs w) = false ->
  blobs (bs w) !! Flat (namespace +:+ "/" +:+ prefix +:+ "/" +:+ suffix)
    = None ->
  let r := TreehubNamespace.download namespace prefix suffix w in
  r.1 = Ret (respond 500 End) /\ db r.2 = db w /\ bs r.2 = bs w.
Proof.
  intros E Hout Habs Hb. run_handler. rewrite E. simpl. run_handler.
  rewrite Hout, Hb, Habs. done.
Qed.

(** C4, the defect: with a row present and a read that rejects, the
    namespace route has no [try] around [getObject]: the rejection leaves
    the handler and no 500 is sent, where the team route answers 500. *)
Theorem namespace_download_rejected_read_escapes :
  (TreehubNamespace.download "t1" "ab" "cdef" diverged_world).1
    = Raise BlobFailure
  /\ (TreehubTeam.download "t1" "ab" "cdef" diverged_world).1
    = Ret (respond 500 End).
Proof. split; reflexivity. Qed.

(** The team route, in turn, sends 200 with no body when the read
    resolves to nothing instead of rejecting. *)
Lemma team_download_nothing_is_200 (team_id prefix suffix : string)
    (w : World) (row : ObjectRow) :
  objects (db w) !! (team_id, prefix +:+ suffix) = Some row ->
  outage (bs w) = false ->
  absent_rejects (bs w) = false ->
  blobs (bs w) !! InBucket team_id ("treehub/" +:+ prefix +:+ "/"
                                    +:+ suffix) = None ->
  (TreehubTeam.download team_id prefix suffix w).1
    = Ret {| code := 200; content_type := Some "application/octet-stream";
             body := SendContent None |}.
Proof.
  intros E Hout Habs Hb. run_handler. rewrite E. simpl. run_handler.
  rewrite Hout, Hb, Habs. done.
Qed.

(* ---- upload: the tenant check ---------------------------------------- *)

(** The team route refuses an upload for a team without a row: 400 after
    the one count, nothing stored. *)
Lemma team_upload_unknown_team (teamID prefix suffix : string)
    (content : Content) (content_length : option string) (w : World) :
  size_refused content_length = false ->
  namespaces (db w) !! teamID = None ->
  let r := TreehubTeam.upload teamID prefix suffix content content_length w in
  r.1 = Ret (respond 400 (Send "could not upload ostree object"))
  /\ db r.2 = db w /\ bs r.2 = bs w /\ keys r.2 = keys w
  /\ log r.2 = (log w ++ [DbTenantCount teamID])%list.
Proof.
  intros Hsz Hn. unfold size_refused in Hsz.
  unfold TreehubTeam.upload. rewrite Hsz. run_handler. rewrite Hn. done.
Qed.

(** C6, the defect: the namespace route does not look the namespace up.
    For a namespace without a row and a valid size it stores the row and
    the blob and answers 200; no count is among its store calls. *)
Theorem namespace_upload_unknown_namespace_accepted :
  let r := TreehubNamespace.upload "ghost" "ab" "cdef" (Buffer [x2a])
             (Some "1") empty_world in
  namespaces (db empty_world) !! "ghost" = None
  /\ r.1 = Ret (respond 200 End)
  /\ objects (db r.2) !! ("ghost", "abcdef")
       = Some {| size := Js.Num 1; status := uploaded |}
  /\ blobs (bs r.2) !! Flat "ghost/ab/cdef" = Some (Buffer [x2a])
  /\ log r.2 = [DbObjectUpsert ViaTx "ghost" "abcdef";
                BlobPut (Flat "ghost/ab/cdef");
                DbObjectUpdate ViaTx "ghost" "abcdef"].
Proof. repeat split; vm_compute; reflexivity. Qed.

(* ---- blob addresses --------------------------------------------------- *)

Lemma append_cons (c : ascii) (s r : string) :
  String c s +:+ r = String c (s +:+ r).
Proof. reflexivity. Qed.

Lemma append_nil (r : string) : "" +:+ r = r.
Proof. reflexivity. Qed.

Lemma append_cancel_l (p x y : string) : p +:+ x = p +:+ y -> x = y.
Proof.
  induction p as [|c p IH]; rewrite ?append_cons, ?append_nil; [done|].
  intros [= H]. by apply IH.
Qed.

Lemma length_append (a b : string) :
  String.length (a +:+ b) = (String.length a + String.length b)%nat.
Proof.
  induction a as [|c a IH]; rewrite ?append_cons, ?append_nil; [done|].
  cbn [String.length]. by rewrite IH.
Qed.

Lemma append_nil_r (r : string) : r +:+ "" = r.
Proof.
  induction r as [|c r IH]; rewrite ?append_cons, ?append_nil; [done|].
  by rewrite IH.
Qed.

Lemma append_assoc (a b c : string) : (a +:+ b) +:+ c = a +:+ (b +:+ c).
Proof.
  induction a as [|x a IH]; rewrite ?append_cons, ?append_nil; [done|].
  by rewrite IH.
Qed.





Lemma js_length_append (a b : string) :
  Js.length (a +:+ b) = (Js.length a + Js.length b)%nat.
Proof.
  induction a as [|c a IH]; rewrite ?append_cons, ?append_nil; [done|].
  cbn [Js.length]. rewrite IH. lia.
Qed.

Lemma js_length_conts (r : string) : Js.length (Js.conts r) = 0%nat.
Proof.
  induction r as [|c r IH]; cbn [Js.conts]; [done|].
  destruct (Js.is_cont c) eqn:E; [|done]. cbn [Js.length]. by rewrite E, IH.
Qed.





(** The key of "summary" under the namespace is not the key of an upload
    of "summary" in two parts. *)
Lemma summary_not_sharded (namespace prefix suffix : string) :
  prefix +:+ suffix = "summary" ->
  namespace +:+ "/" +:+ "summary"
    <> namespace +:+ "/" +:+ prefix +:+ "/" +:+ suffix.
Proof.
  intros Hs E. apply append_cancel_l in E.
  change ("/" +:+ prefix +:+ "/" +:+ suffix)
    with ("/" +:+ (prefix +:+ "/" +:+ suffix)) in E.
  apply append_cancel_l in E.
  apply (f_equal String.length) in E, Hs.
  rewrite !length_append in E. rewrite length_append in Hs.
  cbn [String.length] in E, Hs. lia.
Qed.



(** The deletion's key of an id with an accented first letter, cut after
    two code units, which are three bytes. *)
Example treehubBucketId_of_accented_id :
  AdminSingle.treehubBucketId "t1" ("éa" +:+ "bc") = "t1/éa/bc"
  /\ AdminSingle.treehubBucketId "t1" ("é" +:+ "abc") = "t1/éa/bc".
Proof. by vm_compute. Qed.

(* ---- tenants ---------------------------------------------------------- *)

Lemma prefix_own (t r : string) :
  starts_with (t +:+ "/") (t +:+ "/" +:+ r) = true.
Proof.
  induction t as [|c t IH]; rewrite ?append_cons, ?append_nil;
    cbn [starts_with].
  - done.
  - by rewrite Ascii.eqb_refl.
Qed.

Lemma prefix_other (t1 t2 r : string) :
  no_slash t1 = true -> no_slash t2 = true -> t1 <> t2 ->
  starts_with (t2 +:+ "/") (t1 +:+ "/" +:+ r) = false.
Proof.
  revert t2. induction t1 as [|c t1 IH]; intros [|c2 t2] H1 H2 Hne;
    rewrite ?append_cons, ?append_nil; cbn [starts_with no_slash] in *.
  - done.
  - apply andb_true_iff in H2 as [Hc _].
    apply negb_true_iff in Hc. by rewrite Hc.
  - apply andb_true_iff in H1 as [Hc _].
    apply negb_true_iff in Hc. rewrite Ascii.eqb_sym in Hc. by rewrite Hc.
  - apply andb_true_iff in H1 as [_ H1]. apply andb_true_iff in H2 as [_ H2].
    destruct (Ascii.eqb_spec c2 c) as [->|]; [|done].
    cbn [andb]. apply IH; [done|done|]. congruence.
Qed.

Lemma owns_flat (t1 t2 r : string) :
  no_slash t1 = true -> no_slash t2 = true -> t1 <> t2 ->
  owns t1 (Flat (t1 +:+ "/" +:+ r)) = true
  /\ owns t2 (Flat (t1 +:+ "/" +:+ r)) = false.
Proof. intros. split; [apply prefix_own | by apply prefix_other]. Qed.

Lemma owns_bucket (t1 t2 k : string) :
  t1 <> t2 ->
  owns t1 (InBucket t1 k) = true /\ owns t2 (InBucket t1 k) = false.
Proof.
  intros. simpl. split; [apply String.eqb_refl | by apply String.eqb_neq].
Qed.

Lemma touches_row (t1 t2 : string) :
  t1 <> t2 -> String.eqb t1 t1 = true /\ String.eqb t1 t2 = false.
Proof. intros. split; [apply String.eqb_refl | by apply String.eqb_neq]. Qed.

Lemma isolated_quiet {A} (m : M A) (t1 t2 : string) (w : World) (r : Res A) :
  m w = (r, w) -> isolated m t1 t2 w.
Proof.
  intros E. unfold isolated, calls. rewrite E. simpl.
  rewrite drop_all. repeat split. constructor.
Qed.

(** A run that appends the calls [l], stores rows of [t1] only and writes
    at most the blob [a]. *)
Lemma isolated_run {A} (m : M A) (t1 t2 : string) (w : World)
    (l : list Event) (a : BlobAddr) :
  t1 <> t2 ->
  log (m w).2 = (log w ++ l)%list ->
  Forall (fun e => touches t1 e = true /\ touches t2 e = false) l ->
  owns t2 a = false ->
  (forall k, k.1 <> t1 -> objects (db (m w).2) !! k = objects (db w) !! k) ->
  (forall a', a' <> a -> blobs (bs (m w).2) !! a' = blobs (bs w) !! a') ->
  isolated m t1 t2 w.
Proof.
  intros Hne Hlog Hl Ha Hrows Hblobs. unfold isolated, calls.
  rewrite Hlog, drop_app_length. repeat split; [done| |].
  - intros oid. apply Hrows. simpl. congruence.
  - intros a' Ha'. apply Hblobs. intros ->. congruence.
Qed.

Lemma head_rows (teamID prefix suffix : string) (w : World) :
  let r := TreehubTeam.head teamID prefix suffix w in
  db r.2 = db w /\ bs r.2 = bs w
  /\ log r.2 = (log w ++ [DbObjectFind teamID (prefix +:+ suffix)])%list.
Proof.
  run_handler. destruct (objects (db w) !! _); simpl; repeat split.
Qed.

Lemma stored_other_tenant (t oid : string) (sz : Js.num) (d : Db)
    (k : string * string) :
  k.1 <> t -> objects (stored t oid sz d) !! k = objects d !! k.
Proof.
  intros Hk. unfold stored. simpl. apply lookup_insert_ne.
  intros <-. by apply Hk.
Qed.

Lemma written_other_blob (a a' : BlobAddr) (c : Content) (b : BlobStore) :
  a' <> a -> blobs (written a c b) !! a' = blobs b !! a'.
Proof. intros Hk. unfold written. simpl. by apply lookup_insert_ne. Qed.

Ltac isolation_calls :=
  repeat (first [ apply Forall_nil_2 | apply Forall_cons_2 ]);
  simpl; auto.

(** X25: tenant isolation where the tenant id is a path segment.  For
    two distinct tenant ids, an upload, an existence probe or a download
    of the team route run for the first names the first in each of its
    store calls (the row key is the pair of tenant and object id, the blob
    is in the tenant's bucket), names the second in none, and leaves every
    Object row and every blob of the second as it was.  The same holds of
    the upload and the download of the namespace route, whose blob keys
    begin with "{tenant}/", when neither id holds a "/". *)
Theorem object_sync_tenant_isolation
    (t1 t2 prefix suffix : string) (content : Content)
    (content_length : option string) (w : World) :
  t1 <> t2 ->
  (isolated (TreehubTeam.upload t1 prefix suffix content content_length)
     t1 t2 w
   /\ isolated (TreehubTeam.head t1 prefix suffix) t1 t2 w
   /\ isolated (TreehubTeam.download t1 prefix suffix) t1 t2 w)
  /\ (no_slash t1 = true -> no_slash t2 = true ->
      isolated (TreehubNamespace.upload t1 prefix suffix content
                  content_length) t1 t2 w
      /\ isolated (TreehubNamespace.download t1 prefix suffix) t1 t2 w).
Proof.
  intros Hne.
  destruct (touches_row t1 t2 Hne) as [Hs Ho].
  destruct (owns_bucket t1 t2 ("treehub/" +:+ prefix +:+ "/" +:+ suffix) Hne)
    as [Hbs Hbo].
  split; [split; [|split]
         |intros H1 H2;
          destruct (owns_flat t1 t2 (prefix +:+ "/" +:+ suffix) H1 H2 Hne)
            as [Hfs Hfo];
          split].
  - (* upload, team route *)
    destruct (size_refused content_length) eqn:Hsz.
    { apply (isolated_quiet _ _ _ _ (Ret (respond 400 End))).
      unfold size_refused in Hsz. unfold TreehubTeam.upload. by rewrite Hsz. }
    destruct (namespaces (db w) !! t1) as [n|] eqn:Hn.
    + assert (Hsome : is_Some (namespaces (db w) !! t1)) by eauto.
      pose proof (team_upload_run t1 prefix suffix content content_length w
                    Hsz Hsome) as Hrun. simpl in Hrun.
      destruct (outage (bs w)).
      * eapply isolated_run with (a := InBucket t1 _);
          [done | rewrite Hrun; reflexivity | isolation_calls | exact Hbo
          | rewrite Hrun; done | rewrite Hrun; done ].
      * eapply isolated_run with (a := InBucket t1 _);
          [done | rewrite Hrun; reflexivity | isolation_calls | exact Hbo
          | rewrite Hrun; intros; by apply stored_other_tenant
          | rewrite Hrun; intros; by apply written_other_blob ].
    + destruct (team_upload_unknown_team t1 prefix suffix content
                  content_length w Hsz Hn) as (_ & Hdb & Hbs' & _ & Hlog).
      eapply isolated_run with (a := InBucket t1 "");
        [done | exact Hlog | isolation_calls | by apply owns_bucket
        | by rewrite Hdb | by rewrite Hbs' ].
  - (* existence probe *)
    destruct (head_rows t1 prefix suffix w) as (Hdb & Hbs' & Hlog).
    eapply isolated_run with (a := InBucket t1 "");
      [done | exact Hlog | isolation_calls | by apply owns_bucket
      | by rewrite Hdb | by rewrite Hbs' ].
  - (* download, team route *)
    destruct (team_download_run t1 prefix suffix w) as (Hdb & Hbs' & _ & Hlog).
    eapply isolated_run with (a := InBucket t1 "");
      [done | exact Hlog | | by apply owns_bucket
      | by rewrite Hdb | by rewrite Hbs' ].
    destruct (objects (db w) !! _); isolation_calls.
  - (* upload, namespace route *)
    destruct (size_refused content_length) eqn:Hsz.
    { apply (isolated_quiet _ _ _ _ (Ret (respond 400 End))).
      unfold size_refused in Hsz. unfold TreehubNamespace.upload.
      by rewrite Hsz. }
    pose proof (namespace_upload_run t1 prefix suffix content content_length w
                  Hsz) as Hrun. simpl in Hrun.
    destruct (outage (bs w)).
    + eapply isolated_run with (a := Flat _);
        [done | rewrite Hrun; reflexivity | isolation_calls | exact Hfo
        | rewrite Hrun; done | rewrite Hrun; done ].
    + eapply isolated_run with (a := Flat _);
        [done | rewrite Hrun; reflexivity | isolation_calls | exact Hfo
        | rewrite Hrun; intros; by apply stored_other_tenant
        | rewrite Hrun; intros; by apply written_other_blob ].
  - (* download, namespace route *)
    destruct (namespace_download_run t1 prefix suffix w)
      as (Hdb & Hbs' & _ & Hlog).
    eapply isolated_run with (a := Flat (t1 +:+ "/" +:+ prefix +:+ "/"
                                         +:+ suffix));
      [done | exact Hlog | | exact Hfo | by rewrite Hdb | by rewrite Hbs' ].
    destruct (objects (db w) !! _); isolation_calls.
Qed.

Lemma object_sync_tenant_isolation_witness :
  (isolated (TreehubTeam.upload "t1" "ab" "cdef" (Buffer [x2a]) (Some "1"))
     "t1" "t2" two_tenant_world
   /\ isolated (TreehubTeam.head "t1" "ab" "cdef") "t1" "t2" two_tenant_world
   /\ isolated (TreehubTeam.download "t1" "ab" "cdef") "t1" "t2"
        two_tenant_world)
  /\ (no_slash "t1" = true -> no_slash "t2" = true ->
      isolated (TreehubNamespace.upload "t1" "ab" "cdef" (Buffer [x2a])
                  (Some "1")) "t1" "t2" two_tenant_world
      /\ isolated (TreehubNamespace.download "t1" "ab" "cdef") "t1" "t2"
           two_tenant_world).
Proof.
  apply (object_sync_tenant_isolation "t1" "t2" "ab" "cdef" (Buffer [x2a])
           (Some "1") two_tenant_world). discriminate.
Defined.

(** In [two_tenant_world] the runs of the witness write and read: both
    uploads succeed and both downloads send the blob. *)
Example two_tenant_world_runs :
  (TreehubTeam.upload "t1" "ab" "cdef" (Buffer [x2a]) (Some "1")
     two_tenant_world).1 = Ret (respond 204 End)
  /\ (TreehubNamespace.upload "t1" "ab" "cdef" (Buffer [x2a]) (Some "1")
        two_tenant_world).1 = Ret (respond 200 End)
  /\ (TreehubTeam.download "t1" "ab" "cdef" two_tenant_world).1
       = Ret (octet_stream (Some (Buffer [x31])))
  /\ (TreehubNamespace.download "t1" "ab" "cdef" two_tenant_world).1
       = Ret (octet_stream (Some (Buffer [x31]))).
Proof. by vm_compute. Qed.


(* ---- key identifiers -------------------------------------------------- *)

(** Running a handler on a world given by its fields.  The evaluation is
    by value: each store call is reduced to the world it leaves before the
    next one is looked at. *)
Ltac open_world w :=
  destruct w as [[ns_rows obj_rows md_rows img_rows] snap key_map
                 [blob_map bucket_set out absent] events].

Ltac run_admin :=
  cbv [create create_rootca delete_namespace delete_namespace_rootca
       AdminSingle.create put_tuf_keys delete_tuf_keys
       namespace_create namespace_delete metadata_create tenant_count
       createBucket deleteBucket putObject blob_call putKey deleteKey
       transaction write_db emit bind ret raise
       set_db set_snapshot set_keys set_bs set_blobs set_buckets
       set_namespaces set_objects set_metadata
       db tx_snapshot keys bs log namespaces objects metadata images
       blobs buckets outage absent_rejects fst snd default option_fmap
       fmap option_map Z.eqb Pos.eqb].

Lemma put_tuf_keys_log (ns : string) (k : TufKeys) (w : World) :
  let r := put_tuf_keys ns k w in
  r.1 = Ret tt /\ db r.2 = db w /\ bs r.2 = bs w
  /\ tx_snapshot r.2 = tx_snapshot w
  /\ log r.2 = (log w ++ (KeyPut <$> key_record_ids ns))%list.
Proof.
  open_world w. run_admin. rewrite <- !app_assoc. repeat split.
Qed.

Lemma delete_tuf_keys_log (ns : string) (w : World) :
  let r := delete_tuf_keys ns w in
  r.1 = Ret tt /\ db r.2 = db w /\ bs r.2 = bs w
  /\ tx_snapshot r.2 = tx_snapshot w
  /\ log r.2 = (log w ++ (KeyDelete <$> key_record_ids ns))%list.
Proof.
  open_world w. run_admin. rewrite <- !app_assoc. repeat split.
Qed.

(* ---- namespace creation and deletion --------------------------------- *)

Lemma create_run (config : Config) (now : nat) (g : NamespaceRow)
    (k : TufKeys) (w : World) :
  let r := create config now g k w in
  match namespaces (db w) !! id g with
  | Some _ =>
      r.1 = Raise UniqueViolation /\ db r.2 = db w
      /\ log r.2 = (log w ++ [DbNamespaceCreate ViaTx])%list
  | None =>
      if outage (bs w)
      then r.1 = Raise BlobFailure /\ db r.2 = db w
           /\ log r.2 =
                (log w ++ [DbNamespaceCreate ViaTx;
                           DbMetadataCreate ViaTx (id g);
                           DbMetadataCreate ViaTx (id g);
                           BlobCreateBucket (id g)])%list
      else r.1 = Ret (respond 200 (Json (public_attributes g)))
           /\ db r.2 = with_namespace g (two_roots config now g k) (db w)
           /\ log r.2 =
                (log w ++ [DbNamespaceCreate ViaTx;
                           DbMetadataCreate ViaTx (id g);
                           DbMetadataCreate ViaTx (id g);
                           BlobCreateBucket (id g)]
                       ++ (KeyPut <$> key_record_ids (id g)))%list
  end.
Proof.
  open_world w. run_admin.
  destruct (ns_rows !! id g); [repeat split|].
  destruct out; rewrite <- !app_assoc; repeat split.
Qed.

Lemma create_rootca_run (config : Config) (now : nat)
    (certificateToPem : Certificate -> string) (g : NamespaceRow)
    (k : TufKeys) (ca : KeyPair) (w : World) :
  let r := create_rootca config now certificateToPem g k ca w in
  match namespaces (db w) !! id g with
  | Some _ =>
      r.1 = Raise UniqueViolation /\ db r.2 = db w
      /\ log r.2 = (log w ++ [DbNamespaceCreate ViaTx])%list
  | None =>
      if outage (bs w)
      then r.1 = Raise BlobFailure /\ db r.2 = db w
           /\ log r.2 =
                (log w ++ [DbNamespaceCreate ViaTx;
                           DbMetadataCreate ViaTx (id g);
                           DbMetadataCreate ViaTx (id g);
                           BlobCreateBucket (id g)])%list
      else r.1 = Ret (respond 200 (Json (public_attributes g)))
           /\ db r.2 = with_namespace g (two_roots config now g k) (db w)
           /\ log r.2 =
                (log w ++ [DbNamespaceCreate ViaTx;
                           DbMetadataCreate ViaTx (id g);
                           DbMetadataCreate ViaTx (id g);
                           BlobCreateBucket (id g);
                           BlobPut (InBucket (id g) "rootca")]
                       ++ (KeyPut <$> rootca_key_ids (id g)
                                      ++ key_record_ids (id g)))%list
  end.
Proof.
  open_world w. run_admin.
  destruct (ns_rows !! id g); [repeat split|].
  destruct out; rewrite <- !app_assoc; repeat split.
Qed.

Lemma single_create_run (now ttl : nat) (g : NamespaceRow) (k : TufKeys)
    (w : World) :
  let r := AdminSingle.create now ttl g k w in
  match namespaces (db w) !! id g with
  | Some _ =>
      r.1 = Raise UniqueViolation /\ db r.2 = db w
      /\ log r.2 = (log w ++ [DbNamespaceCreate ViaTx])%list
  | None =>
      r.1 = Ret (respond 200 (Json (public_attributes g)))
      /\ db r.2 =
           with_namespace g
             [{| namespace_id := id g; repo := None; role := root;
                 version := 1;
                 value := generateRoot now ttl 1 (imageRootKey k)
                            (imageTargetsKey k) (imageSnapshotKey k)
                            (imageTimestampKey k);
                 expires_at := None |}] (db w)
      /\ log r.2 =
           (log w ++ [DbNamespaceCreate ViaTx;
                      DbMetadataCreate ViaClient (id g)]
                  ++ (KeyPut <$> private_key_ids (id g)))%list
  end.
Proof.
  open_world w. run_admin.
  destruct (ns_rows !! id g); [repeat split|].
  rewrite <- !app_assoc; repeat split.
Qed.

Lemma delete_run (ns : string) (w : World) :
  let r := delete_namespace ns w in
  match namespaces (db w) !! ns with
  | None =>
      r.1 = Ret delete_refused /\ db r.2 = db w
      /\ log r.2 = (log w ++ [DbTenantCount ns])%list
  | Some _ =>
      if outage (bs w)
      then r.1 = Raise BlobFailure /\ db r.2 = db w
           /\ log r.2 =
                (log w ++ [DbTenantCount ns; DbNamespaceDelete ViaTx ns;
                           BlobDeleteBucket ns])%list
      else r.1 = Ret delete_done /\ db r.2 = cascade ns (db w)
           /\ log r.2 =
                (log w ++ [DbTenantCount ns; DbNamespaceDelete ViaTx ns;
                           BlobDeleteBucket ns]
                       ++ (KeyDelete <$> key_record_ids ns))%list
  end.
Proof.
  open_world w. run_admin.
  destruct (ns_rows !! ns) eqn:E; rewrite ?E; run_admin; [|repeat split].
  destruct out; run_admin; rewrite <- !app_assoc; repeat split.
Qed.

Lemma delete_rootca_run (ns : string) (w : World) :
  let r := delete_namespace_rootca ns w in
  match namespaces (db w) !! ns with
  | None =>
      r.1 = Ret delete_refused /\ db r.2 = db w
      /\ log r.2 = (log w ++ [DbTenantCount ns])%list
  | Some _ =>
      if outage (bs w)
      then r.1 = Raise BlobFailure /\ db r.2 = db w
           /\ log r.2 =
                (log w ++ [DbTenantCount ns; DbNamespaceDelete ViaTx ns;
                           BlobDeleteBucket ns])%list
      else r.1 = Ret delete_done /\ db r.2 = cascade ns (db w)
           /\ log r.2 =
                (log w ++ [DbTenantCount ns; DbNamespaceDelete ViaTx ns;
                           BlobDeleteBucket ns]
                       ++ (KeyDelete <$> rootca_key_ids ns
                                         ++ key_record_ids ns))%list
  end.
Proof.
  open_world w. run_admin.
  destruct (ns_rows !! ns) eqn:E; rewrite ?E; run_admin; [|repeat split].
  destruct out; run_admin; rewrite <- !app_assoc; repeat split.
Qed.

Lemma blob_events_no_key_delete (l : list Event) :
  Forall (fun e => is_blob_event e = true) l -> omap key_delete_id l = [].
Proof.
  induction 1 as [|e l He _ IH]; [done|].
  destruct e; try discriminate He; exact IH.
Qed.

Lemma deleteObject_log (a : BlobAddr) (w : World) :
  log (deleteObject a w).2 = (log w ++ [BlobDeleteObject a])%list.
Proof.
  unfold deleteObject, blob_call, emit, bind. simpl.
  by destruct (outage (bs w)).
Qed.

(** The loop over bucket ids makes blob calls only. *)
Lemma for_await_deleteObject (l : list string) (w : World) :
  exists calls,
    log (AdminSingle.for_await l (fun b => deleteObject (Flat b)) w).2
      = (log w ++ calls)%list
    /\ Forall (fun e => is_blob_event e = true) calls.
Proof.
  revert w. induction l as [|b l IH]; intros w.
  - exists []. simpl. by rewrite app_nil_r.
  - cbn [AdminSingle.for_await]. unfold bind at 1.
    pose proof (deleteObject_log (Flat b) w) as Hb.
    destruct (deleteObject (Flat b) w) as [[[]|e] w1]; simpl in Hb.
    + destruct (IH w1) as (calls & Hlog & Hall).
      exists (BlobDeleteObject (Flat b) :: calls). split.
      * rewrite Hlog, Hb, <- app_assoc. done.
      * by constructor.
    + exists [BlobDeleteObject (Flat b)]. split; [done|].
      by repeat constructor.
Qed.

Ltac run_single :=
  cbv [AdminSingle.delete_namespace calls
       namespace_delete tenant_count deleteKey
       transaction write_db emit bind ret raise
       set_db set_snapshot set_keys set_bs set_blobs set_buckets
       set_namespaces set_objects set_metadata
       db tx_snapshot keys bs log namespaces objects metadata images
       blobs buckets outage absent_rejects fst snd default option_fmap
       fmap option_map Z.eqb Pos.eqb].

(** A loop in the goal either raised or left a world whose log is the one
    before with blob calls appended. *)
Ltac step_loop :=
  match goal with
  | |- context [AdminSingle.for_await ?l ?f ?w1] =>
      let c := fresh "c" in
      let Hl := fresh "Hl" in
      let Ha := fresh "Ha" in
      let e := fresh "e" in
      let w' := fresh "w'" in
      pose proof (for_await_deleteObject l w1) as (c & Hl & Ha);
      destruct (AdminSingle.for_await l f w1) as [[[]|e] w'];
      [destruct w' as [? ? ? ? ?]; cbn [log snd] in Hl | ]
  end.

Lemma single_delete_key_ids (ns : string) (w : World) :
  (AdminSingle.delete_namespace ns w).1 = Ret delete_done ->
  omap key_delete_id (calls (AdminSingle.delete_namespace ns) w)
    = private_key_ids ns.
Proof.
  open_world w. run_single.
  destruct (ns_rows !! ns) eqn:E; rewrite ?E; run_single; [|discriminate].
  step_loop; run_single; [|discriminate].
  step_loop; run_single; [|discriminate].
  intros _. subst. rewrite <- !app_assoc, drop_app_length, !omap_app.
  repeat match goal with
         | H : Forall _ ?c |- _ =>
             rewrite (blob_events_no_key_delete c H); clear H
         end.
  reflexivity.
Qed.

Lemma calls_of_log {A} (m : M A) (w : World) (l : list Event) :
  log (m w).2 = (log w ++ l)%list -> calls m w = l.
Proof. intros E. unfold calls. by rewrite E, drop_app_length. Qed.

(** C7, as stated, fails: a creation by the single-metadata revision
    succeeds and adds one Metadata row, with no repo kind. *)
Lemma single_metadata_creation_has_one_row :
  ~ (forall (now ttl : nat) (g : NamespaceRow) (k : TufKeys) (w : World)
            (r : Response),
        (AdminSingle.create now ttl g k w).1 = Ret r ->
        exists m1 m2,
          metadata (db (AdminSingle.create now ttl g k w).2)
            = (metadata (db w) ++ [m1; m2])%list
          /\ repo m1 = Some image /\ repo m2 = Some director).
Proof.
  intros H.
  destruct (H 0%nat 365%nat sample_namespace sample_keys empty_world
              (respond 200 (Json (public_attributes sample_namespace)))
              eq_refl) as (m1 & m2 & Hmd & _).
  vm_compute in Hmd. discriminate.
Qed.

(** C7, amended: a successful creation by the two-repository revisions
    (with or without a root CA) adds, on the transaction handle of one
    transaction, one Namespace row and two Metadata rows, of role root and
    version 1, one for the image repo and one for the director repo, and
    answers with the id, created_at and updated_at of the namespace; a
    creation that raises leaves the relational store as it was.  A
    successful creation by the single-metadata revision adds one
    Namespace row and one Metadata row of role root and version 1 with no
    repo kind, and answers with the same three attributes. *)
Theorem namespace_creation_rows
    (config : Config) (now : nat) (certificateToPem : Certificate -> string)
    (g : NamespaceRow) (k : TufKeys) (ca : KeyPair) (w : World) :
  (forall r, (create config now g k w).1 = Ret r ->
     let w' := (create config now g k w).2 in
     r = respond 200 (Json {| pub_id := id g; pub_created_at := created_at g;
                              pub_updated_at := updated_at g |})
     /\ namespaces (db w) !! id g = None
     /\ db w' = with_namespace g
                  [{| namespace_id := id g; repo := Some image; role := root;
                      version := 1; value := image_root config now k;
                      expires_at := Some (expires (image_root config now k)) |};
                   {| namespace_id := id g; repo := Some director;
                      role := root; version := 1;
                      value := director_root config now k;
                      expires_at :=
                        Some (expires (director_root config now k)) |}]
                  (db w)
     /\ db_calls (create config now g k) w
          = [DbNamespaceCreate ViaTx; DbMetadataCreate ViaTx (id g);
             DbMetadataCreate ViaTx (id g)])
  /\ (forall e, (create config now g k w).1 = Raise e ->
        db (create config now g k w).2 = db w)
  /\ (forall r, (create_rootca config now certificateToPem g k ca w).1 = Ret r ->
        let w' := (create_rootca config now certificateToPem g k ca w).2 in
        r = respond 200 (Json (public_attributes g))
        /\ namespaces (db w) !! id g = None
        /\ db w' = with_namespace g (two_roots config now g k) (db w)
        /\ db_calls (create_rootca config now certificateToPem g k ca) w
             = [DbNamespaceCreate ViaTx; DbMetadataCreate ViaTx (id g);
                DbMetadataCreate ViaTx (id g)])
  /\ (forall e, (create_rootca config now certificateToPem g k ca w).1
                  = Raise e ->
        db (create_rootca config now certificateToPem g k ca w).2 = db w)
  /\ (forall r, (AdminSingle.create now (TUF_TTL_IMAGE_ROOT config) g k w).1
                  = Ret r ->
        let w' := (AdminSingle.create now (TUF_TTL_IMAGE_ROOT config) g k w).2 in
        r = respond 200 (Json (public_attributes g))
        /\ namespaces (db w) !! id g = None
        /\ db w' = with_namespace g
                     [{| namespace_id := id g; repo := None; role := root;
                         version := 1; value := image_root config now k;
                         expires_at := None |}] (db w)).
Proof.
  pose proof (create_run config now g k w) as H1.
  pose proof (create_rootca_run config now certificateToPem g k ca w) as H2.
  pose proof (single_create_run now (TUF_TTL_IMAGE_ROOT config) g k w) as H3.
  unfold db_calls. cbv zeta in H1, H2, H3.
  assert (Hraise : forall (m : M Response) e0 d,
            (m w).1 = Raise e0 /\ db (m w).2 = d /\ True ->
            forall e, (m w).1 = Raise e -> db (m w).2 = d).
  { intros m e0 d (_ & D & _) e _. exact D. }
  assert (Hnot : forall (m : M Response) e0,
            (m w).1 = Raise e0 -> forall (P : Response -> Prop) r,
            (m w).1 = Ret r -> P r).
  { intros m e0 E P r E'. congruence. }
  destruct (namespaces (db w) !! id g) as [n|].
  - destruct H1 as (E1 & D1 & _), H2 as (E2 & D2 & _), H3 as (E3 & _).
    split; [apply (Hnot _ _ E1)|]. split; [intros e _; exact D1|].
    split; [apply (Hnot _ _ E2)|]. split; [intros e _; exact D2|].
    apply (Hnot _ _ E3).
  - assert (Hsingle : forall r,
              (AdminSingle.create now (TUF_TTL_IMAGE_ROOT config) g k w).1
                = Ret r ->
              r = respond 200 (Json (public_attributes g))
              /\ @None NamespaceRow = None
              /\ db (AdminSingle.create now (TUF_TTL_IMAGE_ROOT config) g k
                       w).2
                   = with_namespace g
                       [{| namespace_id := id g; repo := None; role := root;
                           version := 1; value := image_root config now k;
                           expires_at := None |}] (db w)).
    { destruct H3 as (E3 & D3 & L3). intros r E. rewrite E3 in E.
      injection E as <-.
      split; [done|]. split; [done|]. exact D3. }
    destruct (outage (bs w)).
    + destruct H1 as (E1 & D1 & _), H2 as (E2 & D2 & _).
      split; [apply (Hnot _ _ E1)|]. split; [intros e _; exact D1|].
      split; [apply (Hnot _ _ E2)|]. split; [intros e _; exact D2|].
      exact Hsingle.
    + destruct H1 as (E1 & D1 & L1), H2 as (E2 & D2 & L2).
      assert (Hkeys : forall l : list string,
                filter (fun e => is_db_event e = true) (KeyPut <$> l) = []).
      { intros l. induction l as [|x l IH]; [done|]. exact IH. }
      split; [|split; [|split; [|split]]].
      * intros r E. rewrite E1 in E. injection E as <-.
        rewrite (calls_of_log _ _ _ L1), filter_app, Hkeys.
        repeat split; exact D1.
      * intros e E. congruence.
      * intros r E. rewrite E2 in E. injection E as <-.
        rewrite (calls_of_log _ _ _ L2), filter_app, Hkeys.
        repeat split; exact D2.
      * intros e E. congruence.
      * exact Hsingle.
Qed.

Lemma namespace_creation_rows_witness :
  let w' := (create sample_config 0 sample_namespace sample_keys
               empty_world).2 in
  respond 200 (Json (public_attributes sample_namespace))
    = respond 200 (Json {| pub_id := "ns1"; pub_created_at := 7;
                           pub_updated_at := 7 |})
  /\ namespaces (db empty_world) !! "ns1" = None
  /\ db w' = with_namespace sample_namespace
               (two_roots sample_config 0 sample_namespace sample_keys)
               (db empty_world)
  /\ db_calls (create sample_config 0 sample_namespace sample_keys)
       empty_world
       = [DbNamespaceCreate ViaTx; DbMetadataCreate ViaTx "ns1";
          DbMetadataCreate ViaTx "ns1"].
Proof.
  destruct (namespace_creation_rows sample_config 0 (fun _ => "")
              sample_namespace sample_keys
              {| privateKey := "ca-"; publicKey := "ca+" |} empty_world)
    as (H & _).
  exact (H _ eq_refl).
Defined.

Lemma omap_key_put_fmap (l : list string) :
  omap key_put_id (KeyPut <$> l) = l.
Proof. induction l as [|x l IH]; simpl; [done|]. f_equal. exact IH. Qed.

Lemma omap_key_delete_fmap (l : list string) :
  omap key_delete_id (KeyDelete <$> l) = l.
Proof. induction l as [|x l IH]; simpl; [done|]. f_equal. exact IH. Qed.

(** C8: for each revision of the admin router, when a creation succeeded
    for a namespace and a deletion of that namespace succeeds, the key
    identifiers deleted are those written, in the same order; both are
    the fixed enumeration over the namespace id alone (with the two root-CA
    names in the revision that has them), whatever the stores hold. *)
Theorem deleted_key_ids_are_created_key_ids
    (config : Config) (now : nat) (certificateToPem : Certificate -> string)
    (g : NamespaceRow) (k : TufKeys) (ca : KeyPair) (w1 w2 : World) :
  (forall r, (create config now g k w1).1 = Ret r ->
     (delete_namespace (id g) w2).1 = Ret delete_done ->
     omap key_delete_id (calls (delete_namespace (id g)) w2)
       = omap key_put_id (calls (create config now g k) w1)
     /\ omap key_delete_id (calls (delete_namespace (id g)) w2)
       = key_record_ids (id g)
     /\ list_to_set (omap key_delete_id (calls (delete_namespace (id g)) w2))
       =@{gset string}
        list_to_set (omap key_put_id (calls (create config now g k) w1)))
  /\ (forall r, (create_rootca config now certificateToPem g k ca w1).1 = Ret r ->
        (delete_namespace_rootca (id g) w2).1 = Ret delete_done ->
        omap key_delete_id (calls (delete_namespace_rootca (id g)) w2)
          = omap key_put_id
              (calls (create_rootca config now certificateToPem g k ca) w1)
        /\ omap key_delete_id (calls (delete_namespace_rootca (id g)) w2)
          = (rootca_key_ids (id g) ++ key_record_ids (id g))%list)
  /\ (forall r, (AdminSingle.create now (TUF_TTL_IMAGE_ROOT config) g k w1).1
                  = Ret r ->
        (AdminSingle.delete_namespace (id g) w2).1 = Ret delete_done ->
        omap key_delete_id (calls (AdminSingle.delete_namespace (id g)) w2)
          = omap key_put_id
              (calls (AdminSingle.create now (TUF_TTL_IMAGE_ROOT config) g k)
                 w1)
        /\ omap key_delete_id (calls (AdminSingle.delete_namespace (id g)) w2)
          = private_key_ids (id g)).
Proof.
  pose proof (create_run config now g k w1) as C1.
  pose proof (create_rootca_run config now certificateToPem g k ca w1) as C2.
  pose proof (single_create_run now (TUF_TTL_IMAGE_ROOT config) g k w1) as C3.
  pose proof (delete_run (id g) w2) as D1.
  pose proof (delete_rootca_run (id g) w2) as D2.
  cbv zeta in C1, C2, C3, D1, D2.
  assert (Hcreated :
    forall r, (create config now g k w1).1 = Ret r ->
      omap key_put_id (calls (create config now g k) w1)
        = key_record_ids (id g)).
  { intros r E. destruct (namespaces (db w1) !! id g);
      [destruct C1; congruence|].
    destruct (outage (bs w1)); [destruct C1; congruence|].
    destruct C1 as (_ & _ & L). rewrite (calls_of_log _ _ _ L).
    rewrite omap_app, omap_key_put_fmap. reflexivity. }
  assert (Hdeleted :
    (delete_namespace (id g) w2).1 = Ret delete_done ->
      omap key_delete_id (calls (delete_namespace (id g)) w2)
        = key_record_ids (id g)).
  { intros E. destruct (namespaces (db w2) !! id g);
      [|destruct D1 as (E' & _); rewrite E' in E; discriminate].
    destruct (outage (bs w2)); [destruct D1; congruence|].
    destruct D1 as (_ & _ & L). rewrite (calls_of_log _ _ _ L).
    rewrite omap_app, omap_key_delete_fmap. reflexivity. }
  split; [|split].
  - intros r Ec Ed. rewrite (Hcreated r Ec), (Hdeleted Ed). done.
  - intros r Ec Ed.
    assert (omap key_put_id
              (calls (create_rootca config now certificateToPem g k ca) w1)
            = (rootca_key_ids (id g) ++ key_record_ids (id g))%list) as ->.
    { destruct (namespaces (db w1) !! id g); [destruct C2; congruence|].
      destruct (outage (bs w1)); [destruct C2; congruence|].
      destruct C2 as (_ & _ & L). rewrite (calls_of_log _ _ _ L).
      rewrite omap_app, omap_key_put_fmap. reflexivity. }
    assert (omap key_delete_id (calls (delete_namespace_rootca (id g)) w2)
            = (rootca_key_ids (id g) ++ key_record_ids (id g))%list) as ->.
    { destruct (namespaces (db w2) !! id g);
        [|destruct D2 as (E' & _); rewrite E' in Ed; discriminate].
      destruct (outage (bs w2)); [destruct D2; congruence|].
      destruct D2 as (_ & _ & L). rewrite (calls_of_log _ _ _ L).
      rewrite omap_app, omap_key_delete_fmap. reflexivity. }
    done.
  - intros r Ec Ed. rewrite (single_delete_key_ids _ _ Ed).
    destruct (namespaces (db w1) !! id g); [destruct C3; congruence|].
    destruct C3 as (_ & _ & L). rewrite (calls_of_log _ _ _ L).
    rewrite omap_app, omap_key_put_fmap. split; reflexivity.
Qed.

Lemma deleted_key_ids_are_created_key_ids_witness :
  let w2 := (create sample_config 0 sample_namespace sample_keys
               empty_world).2 in
  omap key_delete_id (calls (delete_namespace "ns1") w2)
    = omap key_put_id
        (calls (create sample_config 0 sample_namespace sample_keys)
           empty_world)
  /\ omap key_delete_id (calls (delete_namespace "ns1") w2)
    = key_record_ids "ns1"
  /\ list_to_set (omap key_delete_id (calls (delete_namespace "ns1") w2))
    =@{gset string}
     list_to_set
       (omap key_put_id
          (calls (create sample_config 0 sample_namespace sample_keys)
             empty_world)).
Proof.
  destruct (deleted_key_ids_are_created_key_ids sample_config 0
              (fun _ => "") sample_namespace sample_keys
              {| privateKey := "ca-"; publicKey := "ca+" |} empty_world
              (create sample_config 0 sample_namespace sample_keys
                 empty_world).2) as (H & _).
  exact (H _ eq_refl eq_refl).
Defined.

(** Creation followed by deletion leaves no key behind. *)
Example create_then_delete_keys :
  keys (delete_namespace "ns1"
          (create sample_config 0 sample_namespace sample_keys
             empty_world).2).2 = ∅.
Proof. vm_compute. reflexivity. Qed.

(* ---- provisioning credentials ----------------------------------------- *)

Ltac run_provisioning :=
  cbv [calls provisioning_credentials tenant_count getKey getObject
       blob_call emit bind ret raise respond provisioning_refused
       db tx_snapshot keys bs log namespaces blobs outage absent_rejects
       fst snd Z.eqb Pos.eqb].

(** Every path of a provisioning-credentials request. *)
Lemma provisioning_run
    (config : Config) (consts : Consts)
    (certificateFromPem : Content -> option Certificate)
    (privateKeyFromPem publicKeyFromPem : string -> option string)
    (namespace : string) (kp : KeyPair) (uuid : string) (w : World) :
  let run := provisioning_credentials config consts certificateFromPem
               privateKeyFromPem publicKeyFromPem namespace kp uuid in
  let priv := RootCAPrivateKeyId consts in
  let pub := RootCAPublicKeyId consts in
  let cert := InBucket (RootCABucket consts) (RootCACertObjId consts) in
  (db (run w).2 = db w /\ keys (run w).2 = keys w /\ bs (run w).2 = bs w)
  /\ match namespaces (db w) !! namespace with
     | None =>
         (run w).1 = Ret provisioning_refused
         /\ calls run w = [DbTenantCount namespace]
     | Some _ =>
         match keys w !! priv with
         | None =>
             (run w).1 = Raise KeyNotFound
             /\ calls run w = [DbTenantCount namespace; KeyGet priv]
         | Some sk =>
             match keys w !! pub with
             | None =>
                 (run w).1 = Raise KeyNotFound
                 /\ calls run w
                      = [DbTenantCount namespace; KeyGet priv; KeyGet pub]
             | Some pk =>
                 calls run w
                   = [DbTenantCount namespace; KeyGet priv; KeyGet pub;
                      BlobGet cert]
                 /\ (run w).1
                    = if outage (bs w) then Raise BlobFailure
                      else
                        match blobs (bs w) !! cert with
                        | None =>
                            Raise (if absent_rejects (bs w)
                                   then BlobFailure else MalformedPem)
                        | Some c =>
                            match certificateFromPem c,
                                  privateKeyFromPem sk,
                                  publicKeyFromPem pk with
                            | Some ca, Some skey, Some _ =>
                                Ret (respond 200 (Pipe [
                                  ("autoprov.url",
                                   FileText (ROBOT_GATEWAY_HOSTNAME config
                                             +:+ "/api/v0/director/"
                                             +:+ namespace));
                                  ("autoprov_credentials.p12",
                                   FileP12
                                     {| p12_key := privateKey kp;
                                        p12_chain :=
                                          [Issued (publicKey kp) uuid skey ca;
                                           ca];
                                        p12_password := None |})]))
                            | _, _, _ => Raise MalformedPem
                            end
                        end
             end
         end
     end.
Proof.
  cbv zeta. open_world w. run_provisioning.
  destruct (ns_rows !! namespace).
  2:{ rewrite drop_app_length. done. }
  destruct (key_map !! RootCAPrivateKeyId consts) as [sk|].
  2:{ rewrite <- !app_assoc, drop_app_length. done. }
  destruct (key_map !! RootCAPublicKeyId consts) as [pk|].
  2:{ rewrite <- !app_assoc, drop_app_length. done. }
  destruct out.
  { rewrite <- !app_assoc, drop_app_length. done. }
  destruct (blob_map !! _) as [c|].
  2:{ destruct absent; rewrite <- !app_assoc, drop_app_length; done. }
  destruct (certificateFromPem c) as [ca|];
    [|rewrite <- !app_assoc, drop_app_length; done].
  destruct (privateKeyFromPem sk) as [skey|];
    [|rewrite <- !app_assoc, drop_app_length; done].
  destruct (publicKeyFromPem pk) as [pkey|];
    rewrite <- !app_assoc, drop_app_length; done.
Qed.

(** C2, as stated, fails, whatever the identifiers of [core/consts] are:
    there is a namespace that exists and has its own root CA in place,
    keys and certificate stored under names made from its id and readable
    as PEM, for which the request is not answered 200, because the
    handler reads the fixed identifiers and finds nothing there. *)
Lemma provisioning_root_ca_not_per_namespace :
  ~ (exists consts : Consts,
       forall (namespace : string) (w : World) (kp : KeyPair)
              (uuid sk pk : string) (c : Content) (ca : Certificate)
              (skey pkey : string),
         is_Some (namespaces (db w) !! namespace) ->
         outage (bs w) = false ->
         keys w !! (namespace +:+ "-rootca-private") = Some sk ->
         keys w !! (namespace +:+ "-rootca-public") = Some pk ->
         blobs (bs w) !! InBucket namespace "rootca" = Some c ->
         sample_fromPem c = Some ca ->
         sample_keyFromPem sk = Some skey ->
         sample_keyFromPem pk = Some pkey ->
         exists url,
           (provisioning_credentials sample_config consts sample_fromPem
              sample_keyFromPem sample_keyFromPem namespace kp uuid w).1
             = Ret (respond 200 (Pipe [
                 ("autoprov.url", FileText url);
                 ("autoprov_credentials.p12",
                  FileP12 {| p12_key := privateKey kp;
                             p12_chain :=
                               [Issued (publicKey kp) uuid skey ca; ca];
                             p12_password := None |})]))).
Proof.
  intros [consts H].
  assert (Hns : exists ns,
             keys (own_ca_world ns) !! RootCAPrivateKeyId consts = None).
  { destruct (decide (RootCAPrivateKeyId consts = "a-rootca-private"))
      as [E|N1]; [exists "b"; by rewrite E|].
    destruct (decide (RootCAPrivateKeyId consts = "a-rootca-public"))
      as [E|N2]; [exists "b"; by rewrite E|].
    exists "a". unfold own_ca_world. cbn [keys].
    rewrite lookup_insert_ne by (intros E; apply N1; by rewrite <- E).
    apply lookup_singleton_ne. intros E. apply N2. by rewrite <- E. }
  destruct Hns as [ns Hkey].
  destruct (H ns (own_ca_world ns)
              {| privateKey := "leaf-"; publicKey := "leaf+" |} "uuid-1"
              "pem:ns1-" "pem:ns1+" (Text "NS1-PEM") (SelfSigned "ns1+" "ns1-")
              "ns1-" "ns1+") as [url Hrun]; try reflexivity.
  - unfold own_ca_world. cbn [db namespaces].
    rewrite lookup_singleton_eq. by eexists.
  - unfold own_ca_world. cbn [keys]. apply lookup_insert_eq.
  - unfold own_ca_world. cbn [keys].
    rewrite lookup_insert_ne; [apply lookup_insert_eq|].
    intros E. apply append_cancel_l in E. discriminate.
  - unfold own_ca_world. cbn [bs blobs]. apply lookup_singleton_eq.
  - pose proof (provisioning_run sample_config consts sample_fromPem
                  sample_keyFromPem sample_keyFromPem ns
                  {| privateKey := "leaf-"; publicKey := "leaf+" |} "uuid-1"
                  (own_ca_world ns)) as (_ & Hp).
    cbv zeta in Hp. rewrite Hkey in Hp.
    replace (namespaces (db (own_ca_world ns)) !! ns)
      with (Some {| id := ns; created_at := 0%nat; updated_at := 0%nat |})
      in Hp by (unfold own_ca_world; cbn [db namespaces];
                by rewrite lookup_singleton_eq).
    destruct Hp as [Hp _]. rewrite Hp in Hrun. discriminate.
Qed.

(** C2, amended: for a namespace with no row the request is answered 400
    after the one count, before any key-store or blob-store call.  For an
    existing namespace, when the key store holds the root CA keys and the
    blob store the root CA certificate under the fixed identifiers of
    [core/consts] (the same for every namespace), and forge reads the two
    key texts and the certificate (a string or a Buffer) as PEM, the
    request is answered 200 with an archive whose PKCS#12 container holds
    the fresh private key, a leaf certificate with the UUID as common
    name, signed with that root CA private key and chained to that root
    CA certificate, and the root CA certificate; no store is changed. *)
Theorem provisioning_credentials_fixed_root_ca
    (config : Config) (consts : Consts)
    (certificateFromPem : Content -> option Certificate)
    (privateKeyFromPem publicKeyFromPem : string -> option string)
    (namespace : string) (kp : KeyPair) (uuid : string) (w : World) :
  let run := provisioning_credentials config consts certificateFromPem
               privateKeyFromPem publicKeyFromPem namespace kp uuid in
  (namespaces (db w) !! namespace = None ->
     (run w).1 = Ret provisioning_refused
     /\ calls run w = [DbTenantCount namespace]
     /\ db (run w).2 = db w /\ keys (run w).2 = keys w /\ bs (run w).2 = bs w)
  /\ (forall (sk pk : string) (c : Content) (ca : Certificate)
             (skey pkey : string),
        is_Some (namespaces (db w) !! namespace) ->
        keys w !! RootCAPrivateKeyId consts = Some sk ->
        keys w !! RootCAPublicKeyId consts = Some pk ->
        outage (bs w) = false ->
        blobs (bs w) !! InBucket (RootCABucket consts) (RootCACertObjId consts)
          = Some c ->
        certificateFromPem c = Some ca ->
        privateKeyFromPem sk = Some skey ->
        publicKeyFromPem pk = Some pkey ->
        (run w).1 =
          Ret (respond 200 (Pipe [
            ("autoprov.url",
             FileText (ROBOT_GATEWAY_HOSTNAME config +:+ "/api/v0/director/"
                       +:+ namespace));
            ("autoprov_credentials.p12",
             FileP12 {| p12_key := privateKey kp;
                        p12_chain := [Issued (publicKey kp) uuid skey ca; ca];
                        p12_password := None |})]))
        /\ calls run w =
             [DbTenantCount namespace;
              KeyGet (RootCAPrivateKeyId consts);
              KeyGet (RootCAPublicKeyId consts);
              BlobGet (InBucket (RootCABucket consts)
                                (RootCACertObjId consts))]
        /\ db (run w).2 = db w /\ keys (run w).2 = keys w
        /\ bs (run w).2 = bs w).
Proof.
  pose proof (provisioning_run config consts certificateFromPem
                privateKeyFromPem publicKeyFromPem namespace kp uuid w)
    as ((Hd & Hk & Hb) & Hp).
  cbv zeta in *. split.
  - intros Hn. rewrite Hn in Hp. destruct Hp as [-> ->]. done.
  - intros sk pk c ca skey pkey [n Hn] Hsk Hpk Hout Hc Hca Hs Hpub.
    rewrite Hn, Hsk, Hpk, Hout, Hc, Hca, Hs, Hpub in Hp.
    destruct Hp as [-> ->]. done.
Qed.

Lemma provisioning_credentials_fixed_root_ca_witness :
  let run := provisioning_credentials sample_config sample_consts
               sample_fromPem sample_keyFromPem sample_keyFromPem "ns1"
               {| privateKey := "leaf-"; publicKey := "leaf+" |} "uuid-1" in
  let w := two_ca_world_buffer in
  (run w).1 =
    Ret (respond 200 (Pipe [
      ("autoprov.url",
       FileText ("https://gateway.example" +:+ "/api/v0/director/" +:+ "ns1"));
      ("autoprov_credentials.p12",
       FileP12 {| p12_key := "leaf-";
                  p12_chain := [Issued "leaf+" "uuid-1" "shared-"
                                  (SelfSigned "shared+" "shared-");
                                SelfSigned "shared+" "shared-"];
                  p12_password := None |})]))
  /\ calls run w =
       [DbTenantCount "ns1"; KeyGet "root-ca-private";
        KeyGet "root-ca-public"; BlobGet (InBucket "root-ca" "root-ca-cert")]
  /\ db (run w).2 = db w /\ keys (run w).2 = keys w /\ bs (run w).2 = bs w.
Proof.
  destruct (provisioning_credentials_fixed_root_ca sample_config
              sample_consts sample_fromPem sample_keyFromPem
              sample_keyFromPem "ns1"
              {| privateKey := "leaf-"; publicKey := "leaf+" |} "uuid-1"
              two_ca_world_buffer) as (_ & H).
  apply (H "pem:shared-" "pem:shared+"
           (Buffer (list_byte_of_string "SHARED-PEM"))
           (SelfSigned "shared+" "shared-") "shared-" "shared+");
    first [ by eexists | reflexivity ].
Defined.

(* ===================================================================== *)
(*  Further properties of the object routes                                *)
(* ===================================================================== *)

(** What a successful upload leaves, on each route. *)
Lemma namespace_upload_leaves (namespace prefix suffix : string)
    (content : Content) (content_length : option string) (w : World) :
  size_refused content_length = false ->
  outage (bs w) = false ->
  let r := TreehubNamespace.upload namespace prefix suffix content
             content_length w in
  let a := Flat (namespace +:+ "/" +:+ prefix +:+ "/" +:+ suffix) in
  r.1 = Ret (respond 200 End)
  /\ objects (db r.2) !! (namespace, prefix +:+ suffix)
       = Some {| size := Js.parseInt_header content_length;
                 status := uploaded |}
  /\ blobs (bs r.2) !! a = Some content
  /\ outage (bs r.2) = false
  /\ absent_rejects (bs r.2) = absent_rejects (bs w)
  /\ namespaces (db r.2) = namespaces (db w)
  /\ keys r.2 = keys w
  /\ (forall k, k <> (namespace, prefix +:+ suffix) ->
        objects (db r.2) !! k = objects (db w) !! k)
  /\ (forall a', a' <> a -> blobs (bs r.2) !! a' = blobs (bs w) !! a').
Proof.
  intros Hsz Hout. cbv zeta.
  rewrite (namespace_upload_run _ _ _ _ _ _ Hsz), Hout. simpl.
  rewrite !lookup_insert_eq. repeat split; try done.
  - intros k Hk. by rewrite lookup_insert_ne.
  - intros a' Ha. by rewrite lookup_insert_ne.
Qed.

Lemma team_upload_leaves (teamID prefix suffix : string)
    (content : Content) (content_length : option string) (w : World) :
  size_refused content_length = false ->
  is_Some (namespaces (db w) !! teamID) ->
  outage (bs w) = false ->
  let r := TreehubTeam.upload teamID prefix suffix content content_length w in
  let a := InBucket teamID ("treehub/" +:+ prefix +:+ "/" +:+ suffix) in
  r.1 = Ret (respond 204 End)
  /\ objects (db r.2) !! (teamID, prefix +:+ suffix)
       = Some {| size := Js.parseInt_header content_length;
                 status := uploaded |}
  /\ blobs (bs r.2) !! a = Some content
  /\ outage (bs r.2) = false
  /\ absent_rejects (bs r.2) = absent_rejects (bs w)
  /\ namespaces (db r.2) = namespaces (db w)
  /\ keys r.2 = keys w
  /\ (forall k, k <> (teamID, prefix +:+ suffix) ->
        objects (db r.2) !! k = objects (db w) !! k)
  /\ (forall a', a' <> a -> blobs (bs r.2) !! a' = blobs (bs w) !! a').
Proof.
  intros Hsz Hteam Hout. cbv zeta.
  rewrite (team_upload_run _ _ _ _ _ _ Hsz Hteam), Hout. simpl.
  rewrite !lookup_insert_eq. repeat split; try done.
  - intros k Hk. by rewrite lookup_insert_ne.
  - intros a' Ha. by rewrite lookup_insert_ne.
Qed.

(** The answers of the team route's download, by what the read gives. *)
Lemma team_download_answer (team_id prefix suffix : string) (w : World) :
  (TreehubTeam.download team_id prefix suffix w).1 =
    match objects (db w) !! (team_id, prefix +:+ suffix) with
    | None => Ret (respond 404 End)
    | Some _ =>
        if outage (bs w) then Ret (respond 500 End)
        else
          match blobs (bs w) !! InBucket team_id ("treehub/" +:+ prefix
                                                  +:+ "/" +:+ suffix) with
          | Some c =>
              Ret {| code := 200;
                     content_type := Some "application/octet-stream";
                     body := SendContent (Some c) |}
          | None =>
              if absent_rejects (bs w) then Ret (respond 500 End)
              else Ret {| code := 200;
                          content_type := Some "application/octet-stream";
                          body := SendContent None |}
          end
    end.
Proof.
  run_handler. destruct (objects (db w) !! _); simpl; [|done].
  run_handler. destruct (outage (bs w)); simpl; [done|].
  destruct (blobs (bs w) !! _); simpl; [done|].
  by destruct (absent_rejects (bs w)).
Qed.

Lemma namespace_download_answer (namespace prefix suffix : string)
    (w : World) :
  (TreehubNamespace.download namespace prefix suffix w).1 =
    match objects (db w) !! (namespace, prefix +:+ suffix) with
    | None => Ret (respond 404 End)
    | Some _ =>
        if outage (bs w) then Raise BlobFailure
        else
          match blobs (bs w) !! Flat (namespace +:+ "/" +:+ prefix +:+ "/"
                                      +:+ suffix) with
          | Some c =>
              if truthy (Some c)
              then Ret {| code := 200;
                          content_type := Some "application/octet-stream";
                          body := SendContent (Some c) |}
              else Ret (respond 500 End)
          | None =>
              if absent_rejects (bs w) then Raise BlobFailure
              else Ret (respond 500 End)
          end
    end.
Proof.
  run_handler. destruct (objects (db w) !! _); simpl; [|done].
  run_handler. destruct (outage (bs w)); simpl; [done|].
  destruct (blobs (bs w) !! _) as [c|]; simpl.
  - by destruct (truthy (Some c)).
  - by destruct (absent_rejects (bs w)).
Qed.

Lemma head_answer (teamID prefix suffix : string) (w : World) :
  (TreehubTeam.head teamID prefix suffix w).1 =
    match objects (db w) !! (teamID, prefix +:+ suffix) with
    | Some _ => Ret (respond 200 End)
    | None => Ret (respond 404 End)
    end.
Proof. run_handler. by destruct (objects (db w) !! _). Qed.

(** X1: on the team route an upload with an accepted size for a team
    that exists, on a blob store that works, is answered 204, and a
    download of the same team, prefix and suffix is then answered 200 with
    the content type of a byte stream and the uploaded content. *)
Theorem upload_download_round_trip
    (teamID prefix suffix : string) (content : Content)
    (content_length : option string) (w : World) :
  size_refused content_length = false ->
  outage (bs w) = false ->
  is_Some (namespaces (db w) !! teamID) ->
  let up := TreehubTeam.upload teamID prefix suffix content
              content_length w in
  up.1 = Ret (respond 204 End)
  /\ (TreehubTeam.download teamID prefix suffix up.2).1
       = Ret (octet_stream (Some content)).
Proof.
  intros Hsz Hout Hteam.
  destruct (team_upload_leaves teamID prefix suffix content
              content_length w Hsz Hteam Hout)
    as (Hr & Hrow & Hblob & Hout' & _).
  cbv zeta. split; [exact Hr|].
  rewrite team_download_answer, Hrow, Hout', Hblob. done.
Qed.

Lemma upload_download_round_trip_witness :
  let up := TreehubTeam.upload "t1" "ab" "cdef" (Buffer [x2a])
              (Some "1") diverged_world in
  up.1 = Ret (respond 204 End)
  /\ (TreehubTeam.download "t1" "ab" "cdef" up.2).1
       = Ret (octet_stream (Some (Buffer [x2a]))).
Proof.
  apply (upload_download_round_trip "t1" "ab" "cdef" (Buffer [x2a])
           (Some "1") diverged_world); first [ reflexivity | by eexists ].
Defined.

(** X2: on the team route the existence probe follows the upload: after
    an upload that succeeded it answers 200; after an upload whose blob
    write was rejected it answers as before the upload, 404 if the object
    had no row. *)
Theorem head_after_upload
    (teamID prefix suffix : string) (content : Content)
    (content_length : option string) (w : World) :
  size_refused content_length = false ->
  is_Some (namespaces (db w) !! teamID) ->
  let up := TreehubTeam.upload teamID prefix suffix content content_length w in
  (outage (bs w) = false ->
     (TreehubTeam.head teamID prefix suffix up.2).1 = Ret (respond 200 End))
  /\ (outage (bs w) = true ->
      (TreehubTeam.head teamID prefix suffix up.2).1
        = (TreehubTeam.head teamID prefix suffix w).1).
Proof.
  intros Hsz Hteam. cbv zeta. split; intros Hout.
  - destruct (team_upload_leaves teamID prefix suffix content
                content_length w Hsz Hteam Hout) as (_ & Hrow & _).
    by rewrite head_answer, Hrow.
  - rewrite !head_answer, (team_upload_run _ _ _ _ _ _ Hsz Hteam), Hout.
    done.
Qed.

Lemma head_after_upload_witness :
  let up := TreehubTeam.upload "t1" "ab" "cdef" (Buffer [x2a]) (Some "1")
              faulty_world in
  (outage (bs faulty_world) = false ->
     (TreehubTeam.head "t1" "ab" "cdef" up.2).1 = Ret (respond 200 End))
  /\ (outage (bs faulty_world) = true ->
      (TreehubTeam.head "t1" "ab" "cdef" up.2).1
        = (TreehubTeam.head "t1" "ab" "cdef" faulty_world).1).
Proof.
  apply (head_after_upload "t1" "ab" "cdef" (Buffer [x2a]) (Some "1")
           faulty_world); [reflexivity | by eexists].
Defined.

(** X3: the last upload wins.  Two successful uploads of the same object
    leave the relational store and the blob store as the second one alone
    would: no trace of the first size or content remains. *)
Theorem upload_last_writer_wins
    (tenant prefix suffix : string) (c1 c2 : Content)
    (h1 h2 : option string) (w : World) :
  size_refused h1 = false ->
  size_refused h2 = false ->
  outage (bs w) = false ->
  (let w1 := (TreehubNamespace.upload tenant prefix suffix c1 h1 w).2 in
   let w2 := (TreehubNamespace.upload tenant prefix suffix c2 h2 w1).2 in
   let w2' := (TreehubNamespace.upload tenant prefix suffix c2 h2 w).2 in
   db w2 = db w2' /\ bs w2 = bs w2')
  /\ (is_Some (namespaces (db w) !! tenant) ->
      let w1 := (TreehubTeam.upload tenant prefix suffix c1 h1 w).2 in
      let w2 := (TreehubTeam.upload tenant prefix suffix c2 h2 w1).2 in
      let w2' := (TreehubTeam.upload tenant prefix suffix c2 h2 w).2 in
      db w2 = db w2' /\ bs w2 = bs w2').
Proof.
  intros H1 H2 Hout. split.
  - cbv zeta.
    rewrite (namespace_upload_run _ _ _ _ _ w H1),
      (namespace_upload_run _ _ _ _ _ w H2), Hout. simpl.
    rewrite (namespace_upload_run _ _ _ _ _ _ H2). simpl. rewrite Hout.
    simpl. unfold stored, written, set_objects, set_blobs. simpl.
    by rewrite !insert_insert_eq.
  - intros Hteam. cbv zeta.
    rewrite (team_upload_run _ _ _ _ _ w H1 Hteam),
      (team_upload_run _ _ _ _ _ w H2 Hteam), Hout. simpl.
    rewrite team_upload_run; [|exact H2|exact Hteam]. simpl. rewrite Hout.
    simpl. unfold stored, written, set_objects, set_blobs. simpl.
    by rewrite !insert_insert_eq.
Qed.

Lemma upload_last_writer_wins_witness :
  (let w1 := (TreehubNamespace.upload "t1" "ab" "cdef" (Buffer [x2a])
                (Some "1") diverged_world).2 in
   let w2 := (TreehubNamespace.upload "t1" "ab" "cdef" (Buffer [x2b; x2c])
                (Some "2") w1).2 in
   let w2' := (TreehubNamespace.upload "t1" "ab" "cdef" (Buffer [x2b; x2c])
                 (Some "2") diverged_world).2 in
   db w2 = db w2' /\ bs w2 = bs w2')
  /\ (is_Some (namespaces (db diverged_world) !! "t1") ->
      let w1 := (TreehubTeam.upload "t1" "ab" "cdef" (Buffer [x2a])
                   (Some "1") diverged_world).2 in
      let w2 := (TreehubTeam.upload "t1" "ab" "cdef" (Buffer [x2b; x2c])
                   (Some "2") w1).2 in
      let w2' := (TreehubTeam.upload "t1" "ab" "cdef" (Buffer [x2b; x2c])
                    (Some "2") diverged_world).2 in
      db w2 = db w2' /\ bs w2 = bs w2').
Proof.
  apply (upload_last_writer_wins "t1" "ab" "cdef" (Buffer [x2a])
           (Buffer [x2b; x2c]) (Some "1") (Some "2") diverged_world);
    reflexivity.
Defined.

(** X4: a download does not look at the status of the row: on both routes
    the answer is the same whether the row says uploading or uploaded. *)
Theorem download_ignores_status
    (tenant prefix suffix : string) (st : UploadStatus) (w : World) :
  (TreehubNamespace.download tenant prefix suffix
     (with_status tenant (prefix +:+ suffix) st w)).1
    = (TreehubNamespace.download tenant prefix suffix w).1
  /\ (TreehubTeam.download tenant prefix suffix
        (with_status tenant (prefix +:+ suffix) st w)).1
    = (TreehubTeam.download tenant prefix suffix w).1.
Proof.
  rewrite !namespace_download_answer, !team_download_answer.
  unfold with_status. simpl. rewrite lookup_alter_eq.
  by destruct (objects (db w) !! _).
Qed.

(** Two splits of one object id give two blob keys. *)
Lemma split_paths_differ (p1 s1 p2 s2 : string) :
  no_slash p1 = true -> no_slash p2 = true -> p1 <> p2 ->
  p1 +:+ "/" +:+ s1 <> p2 +:+ "/" +:+ s2.
Proof.
  intros H1 H2 Hne E.
  pose proof (prefix_own p1 s1) as Hown. rewrite E in Hown.
  rewrite (prefix_other p2 p1 s2) in Hown; [done|done|done|congruence].
Qed.

(** X5: the row is keyed by prefix+suffix, the blob by the split.  After
    a successful upload on the team route, a request for the same object
    id split at another place finds the row (the probe answers 200) but
    reads another blob key: if the store holds nothing there and rejects
    the read, the download answers 500, while the split of the upload
    gives the content. *)
Theorem other_split_finds_row_not_blob
    (teamID p1 s1 p2 s2 : string) (content : Content)
    (content_length : option string) (w : World) :
  p1 +:+ s1 = p2 +:+ s2 ->
  p1 <> p2 ->
  no_slash p1 = true ->
  no_slash p2 = true ->
  size_refused content_length = false ->
  is_Some (namespaces (db w) !! teamID) ->
  outage (bs w) = false ->
  absent_rejects (bs w) = true ->
  blobs (bs w) !! InBucket teamID ("treehub/" +:+ p2 +:+ "/" +:+ s2) = None ->
  let up := TreehubTeam.upload teamID p1 s1 content content_length w in
  (TreehubTeam.head teamID p2 s2 up.2).1 = Ret (respond 200 End)
  /\ (TreehubTeam.download teamID p2 s2 up.2).1 = Ret (respond 500 End)
  /\ (TreehubTeam.download teamID p1 s1 up.2).1
       = Ret (octet_stream (Some content)).
Proof.
  intros Eid Hne Hs1 Hs2 Hsz Hteam Hout Habs Hnone.
  destruct (team_upload_leaves teamID p1 s1 content content_length w
              Hsz Hteam Hout)
    as (_ & Hrow & Hblob & Hout' & Habs' & _ & _ & _ & Hothers).
  cbv zeta in *. repeat split.
  - by rewrite head_answer, <- Eid, Hrow.
  - rewrite team_download_answer, <- Eid, Hrow, Hout', Hothers, Hnone,
      Habs', Habs; [done|].
    intros [= E]. apply append_cancel_l in E.
    by apply (split_paths_differ p2 s2 p1 s1).
  - by rewrite team_download_answer, Hrow, Hout', Hblob.
Qed.

Lemma other_split_finds_row_not_blob_witness :
  let up := TreehubTeam.upload "t1" "ab" "cdef" (Buffer [x2a]) (Some "1")
              diverged_world in
  (TreehubTeam.head "t1" "abc" "def" up.2).1 = Ret (respond 200 End)
  /\ (TreehubTeam.download "t1" "abc" "def" up.2).1 = Ret (respond 500 End)
  /\ (TreehubTeam.download "t1" "ab" "cdef" up.2).1
       = Ret (octet_stream (Some (Buffer [x2a]))).
Proof.
  apply (other_split_finds_row_not_blob "t1" "ab" "cdef" "abc" "def"
           (Buffer [x2a]) (Some "1") diverged_world);
    first [ reflexivity | discriminate | by eexists ].
Defined.

(** [parseInt] on a string of decimal digits. *)
Lemma digits_decimal (s : string) (a z : Z) :
  decimal_from a s = Some z -> Js.digits 10 s (Some a) = Some z.
Proof.
  revert a. induction s as [|c r IH]; intros a; cbn [decimal_from Js.digits].
  - done.
  - unfold is_digit, Js.digit_of.
    destruct ((48 <=? Z.of_nat (nat_of_ascii c))
              && (Z.of_nat (nat_of_ascii c) <=? 57)) eqn:E; [|done].
    apply andb_true_iff in E as [E1 E2].
    apply Z.leb_le in E1, E2.
    destruct (Z.ltb_spec (Z.of_nat (nat_of_ascii c) - 48) 10); [|lia].
    cbn [default]. apply IH.
Qed.

Lemma parseInt_decimal (s : string) (z : Z) :
  decimal s = Some z -> Js.parseInt s = Js.to_double z.
Proof.
  destruct s as [|c r]; [done|]. unfold decimal.
  assert (Hstep : forall d : Z,
             decimal_from (10 * 0 + d) r = Some z ->
             match Js.digits 10 r (Some (10 * default 0 None + d)) with
             | Some z0 => Js.to_double (1 * z0)
             | None => Js.NaN
             end = Js.to_double z).
  { intros d Hd. cbn [default].
    rewrite (digits_decimal _ _ _ Hd). by rewrite Z.mul_1_l. }
  destruct c as [[] [] [] [] [] [] [] []];
    cbn [decimal_from]; try discriminate;
    match goal with
    | |- (if is_digit ?c then _ else _) = _ -> _ =>
        change (is_digit c) with true; cbv iota
    end.
  all: try (intros Hd; exact (Hstep _ Hd)).
  (* the digit 0: what follows is a digit and no x *)
  destruct r as [|c2 r2]; [by intros [= <-]|].
  intros Hd. pose proof Hd as Hd2. cbn [decimal_from] in Hd2.
  destruct (is_digit c2) eqn:E2; [|done]. clear Hd2.
  destruct c2 as [[] [] [] [] [] [] [] []]; try discriminate E2;
    exact (Hstep _ Hd).
Qed.

(** The float64 of a positive integer is a positive number or the
    positive infinity, never zero and never NaN. *)
Lemma to_double_pos (z : Z) :
  0 < z ->
  (exists m, Js.to_double z = Js.Num m /\ 0 < m)
  \/ Js.to_double z = Js.Inf false.
Proof.
  intros Hz. unfold Js.to_double. rewrite (Z.abs_eq z) by lia.
  destruct (Z.ltb_spec z (2 ^ 53)) as [Hs|Hb]; [left; eauto|].
  assert (He : 1 <= Z.log2 z - 52).
  { pose proof (Z.log2_le_mono _ _ Hb) as H.
    rewrite Z.log2_pow2 in H by lia. lia. }
  set (e := Z.log2 z - 52) in *.
  assert (Hq : 1 <= Z.shiftr z e).
  { rewrite Z.shiftr_div_pow2 by lia.
    assert (0 < z / 2 ^ e); [|lia].
    apply Z.div_str_pos. split; [apply Z.pow_pos_nonneg; lia|].
    transitivity (2 ^ Z.log2 z).
    - apply Z.pow_le_mono_r; lia.
    - apply Z.log2_spec. lia. }
  set (q := Z.shiftr z e) in *.
  match goal with |- context [Z.shiftl ?q' e] => set (q1 := q') end.
  assert (Hq1 : 1 <= q1).
  { subst q1. destruct (_ || _); lia. }
  assert (Hm : 0 < Z.shiftl q1 e).
  { rewrite Z.shiftl_mul_pow2 by lia.
    apply Z.mul_pos_pos; [lia|apply Z.pow_pos_nonneg; lia]. }
  destruct (2 ^ 1024 <=? Z.shiftl q1 e).
  - right. f_equal. apply Z.ltb_ge. lia.
  - left. eexists. split; [reflexivity|]. rewrite Z.sgn_pos by lia. lia.
Qed.

(** X6: on the team route the size of the row is the number that
    [parseInt] reads from the content-length header: for a header of
    decimal digits that write a positive number [z] the row holds the
    float64 nearest to [z], which is [z] itself below 2^53, with the
    status uploaded, and the blob store holds the body as the handler
    received it. *)
Theorem upload_stores_declared_size
    (teamID prefix suffix : string) (content : Content)
    (header : string) (z : Z) (w : World) :
  decimal header = Some z ->
  0 < z ->
  is_Some (namespaces (db w) !! teamID) ->
  outage (bs w) = false ->
  let w' := (TreehubTeam.upload teamID prefix suffix content
               (Some header) w).2 in
  objects (db w') !! (teamID, prefix +:+ suffix)
    = Some {| size := Js.to_double z; status := uploaded |}
  /\ (z < 2 ^ 53 -> Js.to_double z = Js.Num z)
  /\ blobs (bs w')
       !! InBucket teamID ("treehub/" +:+ prefix +:+ "/" +:+ suffix)
       = Some content.
Proof.
  intros Hdec Hz Hteam Hout.
  assert (Hparse : Js.parseInt_header (Some header) = Js.to_double z)
    by (by apply parseInt_decimal).
  assert (Hsz : size_refused (Some header) = false).
  { unfold size_refused. rewrite Hparse.
    destruct (to_double_pos z Hz) as [(m & -> & Hm)| ->]; [|done].
    cbn. destruct (Z.eqb_spec m 0); [lia|done]. }
  destruct (team_upload_leaves teamID prefix suffix content
              (Some header) w Hsz Hteam Hout) as (_ & Hrow & Hblob & _).
  cbv zeta in *. rewrite Hparse in Hrow.
  split; [exact Hrow|]. split; [|exact Hblob].
  intros Hs. unfold Js.to_double. rewrite (Z.abs_eq z) by lia.
  by destruct (Z.ltb_spec z (2 ^ 53)); [|lia].
Qed.

Lemma upload_stores_declared_size_witness :
  let w' := (TreehubTeam.upload "t1" "ab" "cdef" (Buffer [x2a; x2b])
               (Some "2") diverged_world).2 in
  objects (db w') !! ("t1", "ab" +:+ "cdef")
    = Some {| size := Js.to_double 2; status := uploaded |}
  /\ (2 < 2 ^ 53 -> Js.to_double 2 = Js.Num 2)
  /\ blobs (bs w') !! InBucket "t1" ("treehub/" +:+ "ab" +:+ "/" +:+ "cdef")
       = Some (Buffer [x2a; x2b]).
Proof.
  apply (upload_stores_declared_size "t1" "ab" "cdef" (Buffer [x2a; x2b])
           "2" 2 diverged_world);
    first [ reflexivity | by eexists ].
Defined.

(** X7: the existence probe and both downloads only read: whatever they
    answer, the relational store, the blob store and the key store are
    afterwards what they were; a row without a blob is not repaired. *)
Theorem object_reads_change_no_store
    (tenant prefix suffix : string) (w : World) :
  (let r := TreehubTeam.head tenant prefix suffix w in
   db r.2 = db w /\ bs r.2 = bs w /\ keys r.2 = keys w)
  /\ (let r := TreehubTeam.download tenant prefix suffix w in
      db r.2 = db w /\ bs r.2 = bs w /\ keys r.2 = keys w)
  /\ (let r := TreehubNamespace.download tenant prefix suffix w in
      db r.2 = db w /\ bs r.2 = bs w /\ keys r.2 = keys w).
Proof.
  split; [|split].
  - run_handler. destruct (objects (db w) !! _); simpl; repeat split.
  - destruct (team_download_run tenant prefix suffix w) as (? & ? & ? & _).
    by repeat split.
  - destruct (namespace_download_run tenant prefix suffix w)
      as (? & ? & ? & _).
    by repeat split.
Qed.

(** X8: the team route refuses an upload for a team that has no row: it
    answers 400 after the one count, calls neither the blob store nor the
    object table, and leaves every store as it was. *)
Theorem team_upload_refused_without_team
    (teamID prefix suffix : string) (content : Content)
    (content_length : option string) (w : World) :
  size_refused content_length = false ->
  namespaces (db w) !! teamID = None ->
  let run := TreehubTeam.upload teamID prefix suffix content content_length in
  (run w).1 = Ret (respond 400 (Send "could not upload ostree object"))
  /\ calls run w = [DbTenantCount teamID]
  /\ db (run w).2 = db w /\ bs (run w).2 = bs w /\ keys (run w).2 = keys w.
Proof.
  intros Hsz Hn.
  destruct (team_upload_unknown_team teamID prefix suffix content
              content_length w Hsz Hn) as (Hr & Hdb & Hbs & Hk & Hlog).
  cbv zeta in *. rewrite (calls_of_log _ _ _ Hlog). done.
Qed.

Lemma team_upload_refused_without_team_witness :
  let run := TreehubTeam.upload "ghost" "ab" "cdef" (Buffer [x2a])
               (Some "1") in
  (run empty_world).1
    = Ret (respond 400 (Send "could not upload ostree object"))
  /\ calls run empty_world = [DbTenantCount "ghost"]
  /\ db (run empty_world).2 = db empty_world
  /\ bs (run empty_world).2 = bs empty_world
  /\ keys (run empty_world).2 = keys empty_world.
Proof.
  apply (team_upload_refused_without_team "ghost" "ab" "cdef" (Buffer [x2a])
           (Some "1") empty_world); reflexivity.
Defined.

(* ===================================================================== *)
(*  Further properties of the admin router                                 *)
(* ===================================================================== *)

Lemma delete_all_absent (ids : list string) (m : gmap string string)
    (k : string) :
  m !! k = None -> delete_all ids m !! k = None.
Proof.
  revert m. induction ids as [|i ids IH]; intros m Hm; [done|].
  simpl. apply IH. rewrite lookup_delete. by case_decide.
Qed.

Lemma lookup_delete_all (ids : list string) (m : gmap string string)
    (k : string) :
  delete_all ids m !! k = if decide (k ∈ ids) then None else m !! k.
Proof.
  revert m. induction ids as [|i ids IH]; intros m.
  - simpl. destruct (decide (k ∈ [])) as [H|H]; [by apply elem_of_nil in H|done].
  - simpl. destruct (decide (k = i)) as [->|Hne].
    + rewrite decide_True by apply list_elem_of_here.
      apply delete_all_absent, lookup_delete_eq.
    + rewrite IH, lookup_delete_ne by done.
      destruct (decide (k ∈ ids)) as [Hin|Hin].
      * rewrite decide_True; [done|by apply list_elem_of_further].
      * rewrite decide_False; [done|].
        intros [?|?]%elem_of_cons; done.
Qed.

Lemma lookup_put_all_other (kvs : list (string * string))
    (m : gmap string string) (k : string) :
  k ∉ kvs.*1 -> put_all kvs m !! k = m !! k.
Proof.
  revert m. induction kvs as [|[k0 v0] kvs IH]; intros m Hk; [done|].
  simpl in *. rewrite IH.
  - apply lookup_insert_ne. intros ->. apply Hk, list_elem_of_here.
  - intros Hin. apply Hk. by apply list_elem_of_further.
Qed.

Lemma lookup_put_all (kvs : list (string * string))
    (m : gmap string string) (k v : string) :
  NoDup kvs.*1 -> (k, v) ∈ kvs -> put_all kvs m !! k = Some v.
Proof.
  revert m. induction kvs as [|[k0 v0] kvs IH]; intros m Hnd Hin.
  - by apply elem_of_nil in Hin.
  - simpl in *. apply NoDup_cons in Hnd as [Hk0 Hnd].
    apply elem_of_cons in Hin as [[= -> ->]|Hin].
    + rewrite lookup_put_all_other by done. apply lookup_insert_eq.
    + by apply IH.
Qed.

Lemma delete_all_put_all (kvs : list (string * string))
    (m : gmap string string) :
  (forall k, k ∈ kvs.*1 -> m !! k = None) ->
  delete_all kvs.*1 (put_all kvs m) = m.
Proof.
  intros Hfresh. apply map_eq. intros k. rewrite lookup_delete_all.
  destruct (decide (k ∈ kvs.*1)) as [Hin|Hin].
  - symmetry. by apply Hfresh.
  - by apply lookup_put_all_other.
Qed.

Lemma key_record_ids_spelled (ns : string) :
  key_record_ids ns = String.append ns <$> key_record_ids "".
Proof. reflexivity. Qed.

Lemma key_records_ids (ns : string) (k : TufKeys) :
  (key_records ns k).*1 = key_record_ids ns.
Proof. reflexivity. Qed.

#[local] Instance append_inj (p : string) : Inj (=) (=) (String.append p).
Proof. intros x y. apply append_cancel_l. Qed.

(** The sixteen identifiers of a namespace are pairwise distinct. *)
Lemma key_record_ids_NoDup (ns : string) : NoDup (key_record_ids ns).
Proof.
  rewrite key_record_ids_spelled. apply (NoDup_fmap_2 _).
  apply (bool_decide_unpack _). vm_compute. exact I.
Qed.

Lemma key_records_elem (ns : string) (k : TufKeys) (r : TUFRepo)
    (rl : TUFRole) (u : KeyUse) :
  (key_record_id ns r rl u, key_material (tuf_key k r rl) u)
    ∈ key_records ns k.
Proof.
  destruct r, rl, u; cbn -[key_record_id];
    repeat first [ apply list_elem_of_here | apply list_elem_of_further ].
Qed.

(** The stores a creation and a deletion leave when they succeed. *)
Lemma create_stores (config : Config) (now : nat) (g : NamespaceRow)
    (k : TufKeys) (w : World) :
  namespaces (db w) !! id g = None ->
  outage (bs w) = false ->
  let r := create config now g k w in
  r.1 = Ret (respond 200 (Json (public_attributes g)))
  /\ db r.2 = with_namespace g (two_roots config now g k) (db w)
  /\ keys r.2 = put_all (key_records (id g) k) (keys w)
  /\ bs r.2 = with_bucket (id g) (bs w).
Proof.
  open_world w. cbn [db namespaces bs outage]. intros Hn ->.
  run_admin. rewrite Hn. rewrite <- !app_assoc. repeat split.
Qed.

Lemma delete_stores (ns : string) (w : World) :
  is_Some (namespaces (db w) !! ns) ->
  outage (bs w) = false ->
  let r := delete_namespace ns w in
  r.1 = Ret delete_done
  /\ db r.2 = cascade ns (db w)
  /\ keys r.2 = delete_all (key_record_ids ns) (keys w)
  /\ bs r.2 = without_bucket ns (bs w).
Proof.
  open_world w. cbn [db namespaces bs outage]. intros [n Hn] ->.
  run_admin. rewrite !Hn. run_admin. repeat split.
Qed.

Ltac run_delete :=
  cbv [delete_namespace delete_namespace_rootca AdminSingle.delete_namespace
       calls delete_tuf_keys namespace_delete tenant_count deleteBucket
       blob_call deleteKey transaction write_db emit bind ret raise
       set_db set_snapshot set_keys set_bs set_blobs set_buckets
       db tx_snapshot keys bs log namespaces objects metadata images
       blobs buckets outage absent_rejects fst snd default option_fmap
       fmap option_map Z.eqb Pos.eqb].

(** X9: a deletion for an id that has no Namespace row is answered 400
    by each revision of the admin router after the one count; no row, key
    or blob is touched. *)
Theorem delete_unknown_namespace_refused (ns : string) (w : World) :
  namespaces (db w) !! ns = None ->
  (let r := delete_namespace ns w in
   r.1 = Ret delete_refused /\ calls (delete_namespace ns) w = [DbTenantCount ns]
   /\ db r.2 = db w /\ keys r.2 = keys w /\ bs r.2 = bs w)
  /\ (let r := delete_namespace_rootca ns w in
      r.1 = Ret delete_refused
      /\ calls (delete_namespace_rootca ns) w = [DbTenantCount ns]
      /\ db r.2 = db w /\ keys r.2 = keys w /\ bs r.2 = bs w)
  /\ (let r := AdminSingle.delete_namespace ns w in
      r.1 = Ret delete_refused
      /\ calls (AdminSingle.delete_namespace ns) w = [DbTenantCount ns]
      /\ db r.2 = db w /\ keys r.2 = keys w /\ bs r.2 = bs w).
Proof.
  open_world w. cbn [db namespaces]. intros Hn.
  run_delete. rewrite !Hn. run_delete. rewrite !drop_app_length.
  repeat split.
Qed.

Lemma delete_unknown_namespace_refused_witness :
  (let r := delete_namespace "ghost" empty_world in
   r.1 = Ret delete_refused
   /\ calls (delete_namespace "ghost") empty_world = [DbTenantCount "ghost"]
   /\ db r.2 = db empty_world /\ keys r.2 = keys empty_world
   /\ bs r.2 = bs empty_world)
  /\ (let r := delete_namespace_rootca "ghost" empty_world in
      r.1 = Ret delete_refused
      /\ calls (delete_namespace_rootca "ghost") empty_world
           = [DbTenantCount "ghost"]
      /\ db r.2 = db empty_world /\ keys r.2 = keys empty_world
      /\ bs r.2 = bs empty_world)
  /\ (let r := AdminSingle.delete_namespace "ghost" empty_world in
      r.1 = Ret delete_refused
      /\ calls (AdminSingle.delete_namespace "ghost") empty_world
           = [DbTenantCount "ghost"]
      /\ db r.2 = db empty_world /\ keys r.2 = keys empty_world
      /\ bs r.2 = bs empty_world).
Proof.
  apply (delete_unknown_namespace_refused "ghost" empty_world). reflexivity.
Defined.

(** X10: when the bucket cannot be deleted, a deletion of the two
    revisions that work on the transaction handle ends with the rejection
    and nothing is deleted: the Namespace row and its dependent rows are
    back, no key is deleted, and the request can be made again. *)
Theorem delete_blob_failure_deletes_nothing (ns : string) (w : World) :
  is_Some (namespaces (db w) !! ns) ->
  outage (bs w) = true ->
  (let r := delete_namespace ns w in
   r.1 = Raise BlobFailure
   /\ db r.2 = db w /\ keys r.2 = keys w /\ bs r.2 = bs w
   /\ calls (delete_namespace ns) w
        = [DbTenantCount ns; DbNamespaceDelete ViaTx ns; BlobDeleteBucket ns])
  /\ (let r := delete_namespace_rootca ns w in
      r.1 = Raise BlobFailure
      /\ db r.2 = db w /\ keys r.2 = keys w /\ bs r.2 = bs w
      /\ calls (delete_namespace_rootca ns) w
           = [DbTenantCount ns; DbNamespaceDelete ViaTx ns;
              BlobDeleteBucket ns]).
Proof.
  open_world w. cbn [db namespaces bs outage]. intros [n Hn] ->.
  run_delete. rewrite !Hn. run_delete.
  rewrite <- !app_assoc, !drop_app_length. repeat split.
Qed.

Lemma delete_blob_failure_deletes_nothing_witness :
  (let r := delete_namespace "t1" faulty_world in
   r.1 = Raise BlobFailure
   /\ db r.2 = db faulty_world /\ keys r.2 = keys faulty_world
   /\ bs r.2 = bs faulty_world
   /\ calls (delete_namespace "t1") faulty_world
        = [DbTenantCount "t1"; DbNamespaceDelete ViaTx "t1";
           BlobDeleteBucket "t1"])
  /\ (let r := delete_namespace_rootca "t1" faulty_world in
      r.1 = Raise BlobFailure
      /\ db r.2 = db faulty_world /\ keys r.2 = keys faulty_world
      /\ bs r.2 = bs faulty_world
      /\ calls (delete_namespace_rootca "t1") faulty_world
           = [DbTenantCount "t1"; DbNamespaceDelete ViaTx "t1";
              BlobDeleteBucket "t1"]).
Proof.
  apply (delete_blob_failure_deletes_nothing "t1" faulty_world);
    [by eexists | reflexivity].
Defined.

(** X11: a creation whose generated id is already taken ends with the
    unique-constraint violation of the first statement, in each revision:
    no metadata row, bucket or key is written. *)
Theorem create_taken_id_writes_nothing
    (config : Config) (now : nat) (certificateToPem : Certificate -> string)
    (g : NamespaceRow) (k : TufKeys) (ca : KeyPair) (w : World) :
  is_Some (namespaces (db w) !! id g) ->
  (let r := create config now g k w in
   r.1 = Raise UniqueViolation
   /\ calls (create config now g k) w = [DbNamespaceCreate ViaTx]
   /\ db r.2 = db w /\ keys r.2 = keys w /\ bs r.2 = bs w)
  /\ (let r := create_rootca config now certificateToPem g k ca w in
      r.1 = Raise UniqueViolation
      /\ calls (create_rootca config now certificateToPem g k ca) w
           = [DbNamespaceCreate ViaTx]
      /\ db r.2 = db w /\ keys r.2 = keys w /\ bs r.2 = bs w)
  /\ (let r := AdminSingle.create now (TUF_TTL_IMAGE_ROOT config) g k w in
      r.1 = Raise UniqueViolation
      /\ calls (AdminSingle.create now (TUF_TTL_IMAGE_ROOT config) g k) w
           = [DbNamespaceCreate ViaTx]
      /\ db r.2 = db w /\ keys r.2 = keys w /\ bs r.2 = bs w).
Proof.
  open_world w. cbn [db namespaces]. intros [n Hn].
  unfold calls. run_admin. rewrite !Hn. run_admin.
  rewrite !drop_app_length. repeat split.
Qed.

Lemma create_taken_id_writes_nothing_witness :
  let g := {| id := "t1"; created_at := 9; updated_at := 9 |} in
  let r := create sample_config 0 g sample_keys faulty_world in
  r.1 = Raise UniqueViolation
  /\ calls (create sample_config 0 g sample_keys) faulty_world
       = [DbNamespaceCreate ViaTx]
  /\ db r.2 = db faulty_world /\ keys r.2 = keys faulty_world
  /\ bs r.2 = bs faulty_world.
Proof.
  destruct (create_taken_id_writes_nothing sample_config 0 (fun _ => "")
              {| id := "t1"; created_at := 9; updated_at := 9 |} sample_keys
              {| privateKey := "ca-"; publicKey := "ca+" |} faulty_world)
    as (H & _); [by eexists|]. exact H.
Defined.

(** X12: after a successful creation each of the sixteen key records can
    be read back: the identifier {id}-{repo}-{role}-{private|public}
    holds the private or public key generated for that repo and role, no
    later write of the creation having overwritten it. *)
Theorem created_keys_are_retrievable
    (config : Config) (now : nat) (g : NamespaceRow) (k : TufKeys)
    (w : World) (r : TUFRepo) (rl : TUFRole) (u : KeyUse) :
  namespaces (db w) !! id g = None ->
  outage (bs w) = false ->
  let w' := (create config now g k w).2 in
  getKey (key_record_id (id g) r rl u) w'
    = (Ret (key_material (tuf_key k r rl) u),
       (emit (KeyGet (key_record_id (id g) r rl u)) w').2).
Proof.
  intros Hn Hout.
  destruct (create_stores config now g k w Hn Hout) as (_ & _ & Hkeys & _).
  cbv zeta in *. unfold getKey, bind, emit. cbn [fst snd keys].
  rewrite Hkeys, (lookup_put_all _ _ _ (key_material (tuf_key k r rl) u)).
  - done.
  - rewrite key_records_ids. apply key_record_ids_NoDup.
  - apply key_records_elem.
Qed.

Lemma created_keys_are_retrievable_witness :
  let w' := (create sample_config 0 sample_namespace sample_keys
               empty_world).2 in
  getKey (key_record_id "ns1" director snapshot public) w'
    = (Ret "ds+",
       (emit (KeyGet (key_record_id "ns1" director snapshot public)) w').2).
Proof.
  apply (created_keys_are_retrievable sample_config 0 sample_namespace
           sample_keys empty_world director snapshot public); reflexivity.
Defined.

Lemma list_filter_all {A} (P : A -> Prop) `{!forall x, Decision (P x)}
    (l : list A) :
  Forall P l -> filter P l = l.
Proof.
  induction 1 as [|x l Hx _ IH]; [done|].
  rewrite filter_cons_True by done. by rewrite IH.
Qed.

Lemma cascade_with_namespace (g : NamespaceRow) (rows : list MetadataRow)
    (d : Db) :
  namespaces d !! id g = None ->
  (forall object_id, objects d !! (id g, object_id) = None) ->
  Forall (fun m => namespace_id m <> id g) (metadata d) ->
  (forall i, images d !! i <> Some (id g)) ->
  Forall (fun m => namespace_id m = id g) rows ->
  cascade (id g) (with_namespace g rows d) = d.
Proof.
  intros Hn Hobj Hmd Himg Hrows. destruct d as [ns objs md imgs].
  unfold cascade, with_namespace. simpl in *. f_equal.
  - by rewrite delete_insert_eq, delete_id.
  - apply map_filter_id. intros [t oid] x Hx. simpl. intros ->.
    by rewrite Hobj in Hx.
  - rewrite filter_app, (list_filter_all _ md Hmd).
    assert (filter (fun m => namespace_id m <> id g) rows = []) as ->.
    { induction Hrows as [|x l Hx _ IH]; [done|].
      rewrite filter_cons_False; [done|]. by intros H. }
    by rewrite app_nil_r.
  - apply map_filter_id. intros i x Hx. simpl. intros ->.
    by apply (Himg i).
Qed.

Lemma without_with_bucket (b : string) (s : BlobStore) :
  b ∉ buckets s ->
  (forall key, blobs s !! InBucket b key = None) ->
  without_bucket b (with_bucket b s) = s.
Proof.
  intros Hb Hblobs. destruct s as [bl bk out ar].
  unfold without_bucket, with_bucket, set_buckets, set_blobs. simpl in *.
  f_equal.
  - apply map_filter_id. intros [bid|b' key] c Hc; simpl; [done|].
    apply bool_decide_eq_false. intros ->. by rewrite Hblobs in Hc.
  - apply set_eq. intros x.
    rewrite elem_of_difference, elem_of_union, !elem_of_singleton. split.
    + by intros [[->|?] ?].
    + intros Hx. split; [by right|]. by intros ->.
Qed.

(** X13: creation and deletion are inverse on the stores.  On a world
    that holds nothing of the generated id (no row, bucket or blob of it,
    none of its sixteen key names), a successful creation followed by the
    deletion of that id succeeds and leaves the relational store, the key
    store and the blob store exactly as they were before the creation. *)
Theorem create_then_delete_restores
    (config : Config) (now : nat) (g : NamespaceRow) (k : TufKeys)
    (w : World) :
  unused_id (id g) w ->
  (forall kid, kid ∈ key_record_ids (id g) -> keys w !! kid = None) ->
  outage (bs w) = false ->
  let w1 := (create config now g k w).2 in
  let r := delete_namespace (id g) w1 in
  (create config now g k w).1 = Ret (respond 200 (Json (public_attributes g)))
  /\ r.1 = Ret delete_done
  /\ db r.2 = db w /\ keys r.2 = keys w /\ bs r.2 = bs w.
Proof.
  intros (Hn & Hobj & Hmd & Himg & Hbk & Hbl) Hkeys Hout.
  destruct (create_stores config now g k w Hn Hout) as (Hr & Hdb & Hk & Hbs).
  cbv zeta in *.
  destruct (delete_stores (id g) (create config now g k w).2)
    as (Hr' & Hdb' & Hk' & Hbs').
  { rewrite Hdb. simpl. rewrite lookup_insert_eq. by eexists. }
  { by rewrite Hbs. }
  cbv zeta in *. rewrite Hdb', Hk', Hbs', Hdb, Hk, Hbs.
  repeat split; try done.
  - apply cascade_with_namespace; try done. by repeat constructor.
  - rewrite <- (key_records_ids (id g) k). apply delete_all_put_all.
    by rewrite key_records_ids.
  - by apply without_with_bucket.
Qed.

Lemma create_then_delete_restores_witness :
  let w1 := (create sample_config 0 sample_namespace sample_keys
               empty_world).2 in
  let r := delete_namespace "ns1" w1 in
  (create sample_config 0 sample_namespace sample_keys empty_world).1
    = Ret (respond 200 (Json (public_attributes sample_namespace)))
  /\ r.1 = Ret delete_done
  /\ db r.2 = db empty_world /\ keys r.2 = keys empty_world
  /\ bs r.2 = bs empty_world.
Proof.
  apply (create_then_delete_restores sample_config 0 sample_namespace
           sample_keys empty_world).
  - repeat split; try done.
  - intros kid _. apply lookup_empty.
  - reflexivity.
Defined.

(** X14: what a successful deletion does to the key store and the blob
    store: the sixteen key names of the namespace hold nothing afterwards
    and every other key is as before; the bucket of the namespace is gone
    with the blobs in it, and the blobs of other buckets are as before. *)
Theorem delete_removes_keys_and_bucket (ns : string) (w : World) :
  is_Some (namespaces (db w) !! ns) ->
  outage (bs w) = false ->
  let w' := (delete_namespace ns w).2 in
  namespaces (db w') !! ns = None
  /\ (forall kid,
        keys w' !! kid
          = if decide (kid ∈ key_record_ids ns) then None else keys w !! kid)
  /\ (ns ∉ buckets (bs w'))
  /\ (forall key, blobs (bs w') !! InBucket ns key = None)
  /\ (forall b key, b <> ns ->
        blobs (bs w') !! InBucket b key = blobs (bs w) !! InBucket b key).
Proof.
  intros Hns Hout.
  destruct (delete_stores ns w Hns Hout) as (_ & Hdb & Hk & Hbs).
  cbv zeta in *. rewrite Hdb, Hk, Hbs. repeat split.
  - simpl. apply lookup_delete_eq.
  - intros kid. apply lookup_delete_all.
  - simpl. rewrite elem_of_difference, elem_of_singleton. by intros [_ ?].
  - intros key. simpl. apply map_lookup_filter_None_2. right.
    intros c _. simpl. rewrite bool_decide_eq_true_2; done.
  - intros b key Hb. simpl.
    destruct (blobs (bs w) !! InBucket b key) as [c|] eqn:E.
    + apply map_lookup_filter_Some. split; [done|]. simpl.
      by apply bool_decide_eq_false.
    + apply map_lookup_filter_None_2. by left.
Qed.

Lemma delete_removes_keys_and_bucket_witness :
  let w := (create sample_config 0 sample_namespace sample_keys
              empty_world).2 in
  let w' := (delete_namespace "ns1" w).2 in
  namespaces (db w') !! "ns1" = None
  /\ (forall kid,
        keys w' !! kid
          = if decide (kid ∈ key_record_ids "ns1") then None
            else keys w !! kid)
  /\ ("ns1" ∉ buckets (bs w'))
  /\ (forall key, blobs (bs w') !! InBucket "ns1" key = None)
  /\ (forall b key, b <> "ns1" ->
        blobs (bs w') !! InBucket b key = blobs (bs w) !! InBucket b key).
Proof.
  apply (delete_removes_keys_and_bucket "ns1"
           (create sample_config 0 sample_namespace sample_keys
              empty_world).2); [by eexists | reflexivity].
Defined.

Lemma for_await_outage (l : list string) (w : World) :
  l <> [] ->
  outage (bs w) = true ->
  exists w',
    AdminSingle.for_await l (fun b => deleteObject (Flat b)) w
      = (Raise BlobFailure, w')
    /\ db w' = db w /\ tx_snapshot w' = tx_snapshot w
    /\ keys w' = keys w /\ bs w' = bs w.
Proof.
  destruct l as [|b l]; [done|]. intros _ Hout.
  cbn [AdminSingle.for_await].
  unfold deleteObject, blob_call, emit, bind. simpl. rewrite Hout.
  eexists. split; [reflexivity|]. done.
Qed.

(** X15: the single-metadata revision deletes the Namespace row on the
    global client, not on the transaction handle.  When the namespace has
    an object and the blob store rejects the first delete, the request
    ends with the rejection, the row and its dependent rows stay deleted,
    and no key has been deleted. *)
Theorem single_delete_failure_is_not_rolled_back
    (ns object_id : string) (row : ObjectRow) (w : World) :
  is_Some (namespaces (db w) !! ns) ->
  objects (db w) !! (ns, object_id) = Some row ->
  outage (bs w) = true ->
  let r := AdminSingle.delete_namespace ns w in
  r.1 = Raise BlobFailure
  /\ db r.2 = cascade ns (db w)
  /\ namespaces (db r.2) !! ns = None
  /\ keys r.2 = keys w /\ bs r.2 = bs w.
Proof.
  open_world w. cbn [db namespaces objects bs outage].
  intros [n Hn] Hrow ->. run_single. rewrite !Hn. run_single.
  match goal with
  | |- context [AdminSingle.for_await ?l ?f ?w1] =>
      assert (Hl : l <> []);
      [| destruct (for_await_outage l w1 Hl eq_refl)
           as ([d' s' k' b' l'] & E & Hd & Hs & Hk & Hb);
         rewrite !E; cbn [db tx_snapshot keys bs] in Hd, Hs, Hk, Hb; subst ]
  end.
  { assert (filter (fun kv : string * string * ObjectRow => kv.1.1 = ns)
              obj_rows !! (ns, object_id) = Some row) as Hin.
    { by apply map_lookup_filter_Some. }
    apply elem_of_map_to_list in Hin.
    intros E0.
    match type of E0 with
    | list_fmap _ _ _ (list_fmap _ _ _ ?L) = [] =>
        assert (HL : (ns, object_id, row) ∈ L) by exact Hin;
        destruct L; [by apply elem_of_nil in HL | discriminate E0]
    end. }
  run_single. repeat split. apply lookup_delete_eq.
Qed.

Lemma single_delete_failure_is_not_rolled_back_witness :
  let w := set_bs (bs faulty_world) diverged_world in
  let r := AdminSingle.delete_namespace "t1" w in
  r.1 = Raise BlobFailure
  /\ db r.2 = cascade "t1" (db w)
  /\ namespaces (db r.2) !! "t1" = None
  /\ keys r.2 = keys w /\ bs r.2 = bs w.
Proof.
  cbv zeta.
  apply (single_delete_failure_is_not_rolled_back "t1" "abcdef"
           {| size := Js.Num 4; status := uploaded |});
    [by eexists | reflexivity | reflexivity].
Defined.

(** X16: a provisioning-credentials request never writes: whatever it
    answers or raises, the relational store, the key store and the blob
    store are afterwards what they were, so neither the fresh key pair nor
    the certificate issued is kept anywhere. *)
Theorem provisioning_changes_no_store
    (config : Config) (consts : Consts)
    (certificateFromPem : Content -> option Certificate)
    (privateKeyFromPem publicKeyFromPem : string -> option string)
    (namespace : string) (kp : KeyPair) (uuid : string) (w : World) :
  let r := provisioning_credentials config consts certificateFromPem
             privateKeyFromPem publicKeyFromPem namespace kp uuid w in
  db r.2 = db w /\ keys r.2 = keys w /\ bs r.2 = bs w.
Proof.
  exact (proj1 (provisioning_run config consts certificateFromPem
                  privateKeyFromPem publicKeyFromPem namespace kp uuid w)).
Qed.

(** X17: how a provisioning-credentials request for an existing namespace
    fails when the root CA is not in place.  Without the private key it
    raises after the first key read, before the public key or the blob
    store is asked; without the public key after the second; with both
    keys it raises when the blob store rejects the read or holds nothing
    under the certificate's name, and when forge does not read the
    certificate, the private key text or the public key text as PEM.  A
    certificate that forge reads is accepted as a string and as a
    Buffer. *)
Theorem provisioning_without_root_ca
    (config : Config) (consts : Consts)
    (certificateFromPem : Content -> option Certificate)
    (privateKeyFromPem publicKeyFromPem : string -> option string)
    (namespace : string) (kp : KeyPair) (uuid : string) (w : World) :
  is_Some (namespaces (db w) !! namespace) ->
  let run := provisioning_credentials config consts certificateFromPem
               privateKeyFromPem publicKeyFromPem namespace kp uuid in
  let priv := RootCAPrivateKeyId consts in
  let pub := RootCAPublicKeyId consts in
  let cert := InBucket (RootCABucket consts) (RootCACertObjId consts) in
  (keys w !! priv = None ->
     (run w).1 = Raise KeyNotFound
     /\ calls run w = [DbTenantCount namespace; KeyGet priv])
  /\ (is_Some (keys w !! priv) -> keys w !! pub = None ->
      (run w).1 = Raise KeyNotFound
      /\ calls run w = [DbTenantCount namespace; KeyGet priv; KeyGet pub])
  /\ (forall sk pk,
        keys w !! priv = Some sk -> keys w !! pub = Some pk ->
        (outage (bs w) = true -> (run w).1 = Raise BlobFailure)
        /\ (outage (bs w) = false ->
            (blobs (bs w) !! cert = None ->
               (run w).1 = Raise (if absent_rejects (bs w)
                                  then BlobFailure else MalformedPem))
            /\ (forall c, blobs (bs w) !! cert = Some c ->
                  (certificateFromPem c = None ->
                     (run w).1 = Raise MalformedPem)
                  /\ (privateKeyFromPem sk = None ->
                      (run w).1 = Raise MalformedPem)
                  /\ (publicKeyFromPem pk = None ->
                      (run w).1 = Raise MalformedPem)))).
Proof.
  intros [n Hn].
  pose proof (provisioning_run config consts certificateFromPem
                privateKeyFromPem publicKeyFromPem namespace kp uuid w)
    as (_ & Hp).
  cbv zeta in *. rewrite Hn in Hp. split; [|split].
  - intros Hk. by rewrite Hk in Hp.
  - intros [sk Hsk] Hpk. by rewrite Hsk, Hpk in Hp.
  - intros sk pk Hsk Hpk. rewrite Hsk, Hpk in Hp. destruct Hp as [_ Hp].
    split.
    + intros Hout. by rewrite Hout in Hp.
    + intros Hout. rewrite Hout in Hp. split.
      * intros Hc. by rewrite Hc in Hp.
      * intros c Hc. rewrite Hc in Hp. rewrite Hp.
        split; [|split].
        -- by intros ->.
        -- intros ->. by destruct (certificateFromPem c).
        -- intros ->.
           by destruct (certificateFromPem c), (privateKeyFromPem sk).
Qed.

Lemma provisioning_without_root_ca_witness :
  let w := (create sample_config 0 sample_namespace sample_keys
              empty_world).2 in
  let run := provisioning_credentials sample_config sample_consts
               sample_fromPem sample_keyFromPem sample_keyFromPem "ns1"
               {| privateKey := "leaf-"; publicKey := "leaf+" |} "uuid-1" in
  (run w).1 = Raise KeyNotFound
  /\ calls run w = [DbTenantCount "ns1"; KeyGet "root-ca-private"].
Proof.
  destruct (provisioning_without_root_ca sample_config sample_consts
              sample_fromPem sample_keyFromPem sample_keyFromPem "ns1"
              {| privateKey := "leaf-"; publicKey := "leaf+" |} "uuid-1"
              (create sample_config 0 sample_namespace sample_keys
                 empty_world).2) as (H & _); [by eexists|].
  apply H. reflexivity.
Defined.

(** A key text that is no PEM message makes the request raise although
    both keys and the certificate are in place. *)
Example provisioning_with_unreadable_key :
  let w := set_keys (<[ "root-ca-private" := "shared-" ]> (keys two_ca_world))
             two_ca_world in
  (provisioning_credentials sample_config sample_consts sample_fromPem
     sample_keyFromPem sample_keyFromPem "ns1"
     {| privateKey := "leaf-"; publicKey := "leaf+" |} "uuid-1" w).1
    = Raise MalformedPem.
Proof. by vm_compute. Qed.

(* ===================================================================== *)
(*  Listing and rollouts                                                   *)
(* ===================================================================== *)

Lemma insert_desc_perm (n : NamespaceRow) (l : list NamespaceRow) :
  Listing.insert_desc n l ≡ₚ n :: l.
Proof.
  induction l as [|m r IH]; simpl; [done|].
  destruct (created_at m <? created_at n)%nat; [done|].
  rewrite IH. apply Permutation_swap.
Qed.

Lemma order_perm (l : list NamespaceRow) :
  foldr Listing.insert_desc [] l ≡ₚ l.
Proof.
  induction l as [|n l IH]; simpl; [done|].
  by rewrite insert_desc_perm, IH.
Qed.

Lemma insert_desc_sorted (n : NamespaceRow) (l : list NamespaceRow) :
  StronglySorted later_first l ->
  StronglySorted later_first (Listing.insert_desc n l).
Proof.
  induction 1 as [|m r Hr IH Hm]; simpl.
  - repeat constructor.
  - destruct (Nat.ltb_spec (created_at m) (created_at n)) as [Hlt|Hge].
    + constructor; [by constructor|]. constructor.
      * unfold later_first. lia.
      * eapply Forall_impl; [exact Hm|]. unfold later_first. simpl. lia.
    + constructor; [exact IH|].
      rewrite insert_desc_perm. by constructor.
Qed.

Lemma order_sorted (l : list NamespaceRow) :
  StronglySorted later_first (foldr Listing.insert_desc [] l).
Proof.
  induction l as [|n l IH]; simpl; [constructor|].
  by apply insert_desc_sorted.
Qed.

Lemma sorted_fmap_public (l : list NamespaceRow) :
  StronglySorted later_first l ->
  StronglySorted
    (fun a b => (pub_created_at b <= pub_created_at a)%nat)
    (public_attributes <$> l).
Proof.
  induction 1 as [|m r Hr IH Hm]; simpl; constructor; [exact IH|].
  apply Forall_fmap. eapply Forall_impl; [exact Hm|]. done.
Qed.

Lemma list_namespaces_complete_and_ordered_perm (d : Db) :
  (Listing.list_namespaces d).2
    ≡ₚ public_attributes <$> (map_to_list (namespaces d)).*2.
Proof.
  unfold Listing.list_namespaces, Listing.findMany. simpl.
  change (public_attributes <$>
            foldr Listing.insert_desc [] (map_to_list (namespaces d)).*2
          ≡ₚ public_attributes <$> (map_to_list (namespaces d)).*2).
  by rewrite order_perm.
Qed.

(** X18: the listing answers 200 with one entry per Namespace row, no
    row left out and none twice, each reduced to id, created_at and
    updated_at, the later created first. *)
Theorem list_namespaces_complete_and_ordered (d : Db) :
  (Listing.list_namespaces d).1 = 200
  /\ (Listing.list_namespaces d).2
       ≡ₚ public_attributes <$> (map_to_list (namespaces d)).*2
  /\ StronglySorted
       (fun a b => (pub_created_at b <= pub_created_at a)%nat)
       (Listing.list_namespaces d).2.
Proof.
  unfold Listing.list_namespaces, Listing.findMany. simpl.
  split; [done|]. split.
  - apply list_namespaces_complete_and_ordered_perm.
  - apply sorted_fmap_public, order_sorted.
Qed.

(** X19: a namespace that has just been created is listed, with the
    attributes the creation answered, next to every namespace listed
    before. *)
Theorem created_namespace_is_listed
    (config : Config) (now : nat) (g : NamespaceRow) (k : TufKeys)
    (w : World) :
  namespaces (db w) !! id g = None ->
  outage (bs w) = false ->
  let r := create config now g k w in
  r.1 = Ret (respond 200 (Json (public_attributes g)))
  /\ (Listing.list_namespaces (db r.2)).2
       ≡ₚ public_attributes g :: (Listing.list_namespaces (db w)).2.
Proof.
  intros Hn Hout.
  destruct (create_stores config now g k w Hn Hout) as (Hr & Hdb & _).
  cbv zeta in *. split; [exact Hr|].
  rewrite !list_namespaces_complete_and_ordered_perm, Hdb. simpl.
  rewrite (map_to_list_insert _ _ _ Hn). done.
Qed.

Lemma created_namespace_is_listed_witness :
  let r := create sample_config 0 sample_namespace sample_keys empty_world in
  r.1 = Ret (respond 200 (Json (public_attributes sample_namespace)))
  /\ (Listing.list_namespaces (db r.2)).2
       ≡ₚ public_attributes sample_namespace
            :: (Listing.list_namespaces (db empty_world)).2.
Proof.
  apply (created_namespace_is_listed sample_config 0 sample_namespace
           sample_keys empty_world); reflexivity.
Defined.

(** X20: a rollout is checked for existence alone.  The handler answers
    400 exactly when the namespace has no row, the ecu id is unknown or no
    image has the image id; the ecu and the image are looked up by id
    only, of whatever namespace.  In that case nothing is inserted.  When
    the three exist it inserts one row with the two ids into tmpEcuImages:
    if the table takes the row the answer is 200 with that row, and if it
    does not the handler sends no response.  The other tables are never
    changed. *)
Theorem rollout_checks_existence_only
    (admits : list Rollouts.TmpEcuImages -> Rollouts.TmpEcuImages -> bool)
    (namespace_id ecu_id image_id : string) (now : nat)
    (f : Rollouts.Fleet) :
  let r := Rollouts.create_rollout admits namespace_id ecu_id image_id now f in
  let row := {| Rollouts.image_id := image_id; Rollouts.ecu_id := ecu_id;
                Rollouts.created_at := now; Rollouts.updated_at := now |} in
  let present :=
    is_Some (namespaces (Rollouts.relational f) !! namespace_id)
    /\ ecu_id ∈ Rollouts.ecus f
    /\ is_Some (images (Rollouts.relational f) !! image_id) in
  (Rollouts.status_of r.1.1 = Some 400 <-> ~ present)
  /\ (Rollouts.status_of r.1.1 = Some 400 ->
      r.1.2 = f /\ TmpEcuImagesCreate_free r.2)
  /\ (present ->
      last r.2 = Some (Rollouts.TmpEcuImagesCreate image_id ecu_id)
      /\ if admits (Rollouts.tmpEcuImages f) row
         then r.1.1 = Rollouts.Created row
              /\ Rollouts.tmpEcuImages r.1.2
                   = (Rollouts.tmpEcuImages f ++ [row])%list
         else r.1.1 = Rollouts.Rejected /\ r.1.2 = f)
  /\ Rollouts.relational r.1.2 = Rollouts.relational f
  /\ Rollouts.ecus r.1.2 = Rollouts.ecus f.
Proof.
  unfold Rollouts.create_rollout, TmpEcuImagesCreate_free. cbv zeta.
  destruct (namespaces (Rollouts.relational f) !! namespace_id) as [n|];
    simpl.
  2:{ split; [split; [intros _ ([? [=]] & _) | done]|].
      split; [intros _; split; [done | repeat constructor]|].
      split; [by intros ([? [=]] & _) | done]. }
  destruct (decide (ecu_id ∈ Rollouts.ecus f)) as [He|He]; simpl.
  2:{ split; [split; [by intros _ (_ & ? & _) | done]|].
      split; [intros _; split; [done | repeat constructor]|].
      split; [by intros (_ & ? & _) | done]. }
  destruct (images (Rollouts.relational f) !! image_id) as [owner|]; simpl.
  2:{ split; [split; [intros _ (_ & _ & [? [=]]) | done]|].
      split; [intros _; split; [done | repeat constructor]|].
      split; [by intros (_ & _ & [? [=]]) | done]. }
  destruct (admits _ _); simpl.
  all: split; [split; [done | intros H; exfalso; apply H; eauto]|].
  all: split; [done|].
  all: split; [by intros _ | done].
Qed.

(** The image of another namespace is accepted for "ns1". *)
Example rollout_of_foreign_image :
  (Rollouts.create_rollout (fun _ _ => true) "ns1" "ecu1" "img-of-ns2" 5
     sample_fleet).1.1
    = Rollouts.Created
        {| Rollouts.image_id := "img-of-ns2"; Rollouts.ecu_id := "ecu1";
           Rollouts.created_at := 5; Rollouts.updated_at := 5 |}.
Proof. reflexivity. Qed.

(* ===================================================================== *)
(*  The root CA of the root-CA revision                                    *)
(* ===================================================================== *)

Lemma create_rootca_stores (config : Config) (now : nat)
    (certificateToPem : Certificate -> string) (g : NamespaceRow)
    (k : TufKeys) (ca : KeyPair) (w : World) :
  namespaces (db w) !! id g = None ->
  outage (bs w) = false ->
  let r := create_rootca config now certificateToPem g k ca w in
  r.1 = Ret (respond 200 (Json (public_attributes g)))
  /\ keys r.2
       = put_all (key_records (id g) k)
           (put_all [(id g +:+ "-rootca-private", privateKey ca);
                     (id g +:+ "-rootca-public", publicKey ca)] (keys w))
  /\ bs r.2
       = written (InBucket (id g) "rootca")
           (Text (certificateToPem
                    (SelfSigned (publicKey ca) (privateKey ca))))
           (with_bucket (id g) (bs w)).
Proof.
  open_world w. cbn [db namespaces bs outage]. intros Hn ->.
  run_admin. rewrite Hn. repeat split.
Qed.

Lemma delete_rootca_stores (ns : string) (w : World) :
  is_Some (namespaces (db w) !! ns) ->
  outage (bs w) = false ->
  let r := delete_namespace_rootca ns w in
  r.1 = Ret delete_done
  /\ keys r.2 = delete_all (rootca_key_ids ns ++ key_record_ids ns) (keys w)
  /\ bs r.2 = without_bucket ns (bs w).
Proof.
  open_world w. cbn [db namespaces bs outage]. intros [n Hn] ->.
  run_admin. rewrite !Hn. run_admin. repeat split.
Qed.

Lemma rootca_ids_not_tuf (ns : string) :
  (ns +:+ "-rootca-private" ∉ key_record_ids ns)
  /\ (ns +:+ "-rootca-public" ∉ key_record_ids ns).
Proof.
  rewrite key_record_ids_spelled.
  split; intros (y & E & Hy)%list_elem_of_fmap;
    apply append_cancel_l in E; subst y; revert Hy;
    apply (bool_decide_unpack _); vm_compute; exact I.
Qed.

(** X21: the root-CA revision keeps the namespace's own root CA.  After
    a successful creation the bucket of the namespace holds, under
    "rootca", the PEM text of a self-signed certificate for the generated
    CA key pair, and the key store holds that pair under
    {id}-rootca-private and {id}-rootca-public, not overwritten by the
    sixteen TUF keys; a successful deletion by the same revision leaves
    none of the three. *)
Theorem rootca_is_stored_and_deleted
    (config : Config) (now : nat) (certificateToPem : Certificate -> string)
    (g : NamespaceRow) (k : TufKeys) (ca : KeyPair) (w : World) :
  namespaces (db w) !! id g = None ->
  outage (bs w) = false ->
  let w1 := (create_rootca config now certificateToPem g k ca w).2 in
  let w2 := (delete_namespace_rootca (id g) w1).2 in
  (blobs (bs w1) !! InBucket (id g) "rootca"
     = Some (Text (certificateToPem
                     (generateCertificate ca None)))
   /\ generateCertificate ca None = SelfSigned (publicKey ca) (privateKey ca)
   /\ keys w1 !! (id g +:+ "-rootca-private") = Some (privateKey ca)
   /\ keys w1 !! (id g +:+ "-rootca-public") = Some (publicKey ca))
  /\ ((delete_namespace_rootca (id g) w1).1 = Ret delete_done
      /\ blobs (bs w2) !! InBucket (id g) "rootca" = None
      /\ keys w2 !! (id g +:+ "-rootca-private") = None
      /\ keys w2 !! (id g +:+ "-rootca-public") = None).
Proof.
  intros Hn Hout.
  destruct (create_rootca_stores config now certificateToPem g k ca w
              Hn Hout) as (_ & Hk & Hbs).
  destruct (rootca_ids_not_tuf (id g)) as [Hpriv Hpub].
  cbv zeta in *. split.
  - rewrite Hk, Hbs. repeat split.
    + unfold written. simpl. apply lookup_insert_eq.
    + rewrite lookup_put_all_other by (by rewrite key_records_ids).
      simpl. rewrite lookup_insert_ne; [apply lookup_insert_eq|].
      intros E. apply append_cancel_l in E. discriminate.
    + rewrite lookup_put_all_other by (by rewrite key_records_ids).
      simpl. apply lookup_insert_eq.
  - destruct (delete_rootca_stores (id g)
                (create_rootca config now certificateToPem g k ca w).2)
      as (Hr & Hk' & Hbs').
    { pose proof (create_rootca_run config now certificateToPem g k ca w)
        as Hrun.
      cbv zeta in Hrun. rewrite Hn, Hout in Hrun. destruct Hrun as (_ & -> & _). simpl.
      rewrite lookup_insert_eq. by eexists. }
    { by rewrite Hbs. }
    cbv zeta in *. rewrite Hk', Hbs'. repeat split; [exact Hr| | |].
    + simpl. apply map_lookup_filter_None_2. right. intros c _. simpl.
      rewrite bool_decide_eq_true_2; done.
    + rewrite lookup_delete_all, decide_True; [done|].
      apply elem_of_app. left. apply list_elem_of_here.
    + rewrite lookup_delete_all, decide_True; [done|].
      apply elem_of_app. left. apply list_elem_of_further,
        list_elem_of_here.
Qed.

Lemma rootca_is_stored_and_deleted_witness :
  let ca := {| privateKey := "ca-"; publicKey := "ca+" |} in
  let pem := fun c : Certificate =>
               match c with
               | SelfSigned p _ => "PEM of " +:+ p
               | Issued p _ _ _ => "PEM of " +:+ p
               end in
  let w1 := (create_rootca sample_config 0 pem sample_namespace sample_keys
               ca empty_world).2 in
  let w2 := (delete_namespace_rootca "ns1" w1).2 in
  (blobs (bs w1) !! InBucket "ns1" "rootca"
     = Some (Text (pem (generateCertificate ca None)))
   /\ generateCertificate ca None = SelfSigned "ca+" "ca-"
   /\ keys w1 !! ("ns1" +:+ "-rootca-private") = Some "ca-"
   /\ keys w1 !! ("ns1" +:+ "-rootca-public") = Some "ca+")
  /\ ((delete_namespace_rootca "ns1" w1).1 = Ret delete_done
      /\ blobs (bs w2) !! InBucket "ns1" "rootca" = None
      /\ keys w2 !! ("ns1" +:+ "-rootca-private") = None
      /\ keys w2 !! ("ns1" +:+ "-rootca-public") = None).
Proof.
  cbv zeta.
  apply (rootca_is_stored_and_deleted sample_config 0 _ sample_namespace
           sample_keys {| privateKey := "ca-"; publicKey := "ca+" |}
           empty_world); reflexivity.
Defined.

(* ===================================================================== *)
(*  Uploaded objects and the per-object deletion; a creation that fails    *)
(* ===================================================================== *)

Lemma deleteObject_ok (a : BlobAddr) (w : World) :
  outage (bs w) = false ->
  deleteObject a w
    = (Ret tt,
       set_bs (set_blobs (delete a (blobs (bs w))) (bs w))
         (emit (BlobDeleteObject a) w).2).
Proof.
  intros Hout. unfold deleteObject, blob_call, emit, bind. simpl.
  by rewrite Hout.
Qed.

(** On a working blob store the loop deletes the blobs of its bucket ids
    and no other. *)
Lemma for_await_deletes (l : list string) (w : World) :
  outage (bs w) = false ->
  exists w',
    AdminSingle.for_await l (fun b => deleteObject (Flat b)) w = (Ret tt, w')
    /\ db w' = db w /\ tx_snapshot w' = tx_snapshot w /\ keys w' = keys w
    /\ outage (bs w') = false
    /\ (forall a,
          blobs (bs w') !! a
            = if decide (a ∈ Flat <$> l) then None else blobs (bs w) !! a).
Proof.
  revert w. induction l as [|b l IH]; intros w Hout.
  - exists w. repeat split; done.
  - cbn [AdminSingle.for_await]. unfold bind at 1.
    rewrite (deleteObject_ok _ _ Hout).
    match goal with
    | |- context [AdminSingle.for_await l _ ?w1] =>
        destruct (IH w1 Hout) as (w' & E & Hd & Hs & Hk & Ho & Hb)
    end.
    exists w'. split; [exact E|].
    repeat split; try done. intros a. rewrite Hb.
    change (blobs (bs (set_bs (set_blobs (delete (Flat b) (blobs (bs w)))
                                 (bs w))
                         (emit (BlobDeleteObject (Flat b)) w).2)))
      with (delete (Flat b) (blobs (bs w))).
    destruct (decide (a ∈ Flat <$> l)) as [Hin|Hin];
      destruct (decide (a ∈ Flat <$> b :: l)) as [Hin'|Hin']; try done.
    + exfalso. apply Hin'. rewrite fmap_cons. by apply list_elem_of_further.
    + rewrite fmap_cons in Hin'. apply elem_of_cons in Hin' as [->|?];
        [|done]. apply lookup_delete_eq.
    + apply lookup_delete_ne. intros <-. apply Hin'. rewrite fmap_cons.
      apply list_elem_of_here.
Qed.

(** The bucket ids the per-object deletion passes to the blob store: one
    derived from each object row of the namespace, then the id of each of
    its images. *)
Lemma derived_keys_elem (ns : string) (d : Db) (a : BlobAddr) :
  a ∈ Flat <$> derived_keys ns d <->
  (exists object_id,
      is_Some (objects d !! (ns, object_id))
      /\ a = Flat (AdminSingle.treehubBucketId ns object_id))
  \/ (exists image, images d !! image = Some ns /\ a = Flat image).
Proof.
  unfold derived_keys. rewrite fmap_app, elem_of_app. split.
  - intros [Hin|Hin]; [left|right].
    + apply list_elem_of_fmap in Hin as (b & -> & Hin).
      apply list_elem_of_fmap in Hin as (o & -> & Hin).
      apply list_elem_of_fmap in Hin as ([[t o'] row] & -> & Hin).
      apply elem_of_map_to_list, map_lookup_filter_Some in Hin as [Hin Ht].
      cbn [fst snd] in *. subst t. exists o'. split; [by eexists|done].
    + apply list_elem_of_fmap in Hin as (b & -> & Hin).
      apply list_elem_of_fmap in Hin as ([i t] & -> & Hin).
      apply elem_of_map_to_list, map_lookup_filter_Some in Hin as [Hin Ht].
      cbn [fst snd] in *. subst t. by exists i.
  - intros [(o & [row Hrow] & ->)|(i & Hi & ->)]; [left|right].
    + apply list_elem_of_fmap_2.
      apply (list_elem_of_fmap_2' _ _ o); [|done].
      apply (list_elem_of_fmap_2' _ _ (ns, o, row)); [|done].
      by apply elem_of_map_to_list, map_lookup_filter_Some.
    + apply list_elem_of_fmap_2.
      apply (list_elem_of_fmap_2' _ _ (i, ns)); [|done].
      by apply elem_of_map_to_list, map_lookup_filter_Some.
Qed.

(** What a deletion by the single-metadata revision leaves, on a blob
    store that works. *)
Lemma single_delete_stores (ns : string) (w : World) :
  is_Some (namespaces (db w) !! ns) ->
  outage (bs w) = false ->
  let r := AdminSingle.delete_namespace ns w in
  r.1 = Ret delete_done
  /\ db r.2 = cascade ns (db w)
  /\ keys r.2 = delete_all (private_key_ids ns) (keys w)
  /\ (forall a,
        blobs (bs r.2) !! a
          = if decide (a ∈ Flat <$> derived_keys ns (db w))
            then None else blobs (bs w) !! a).
Proof.
  open_world w. cbn [db namespaces bs outage]. intros [n Hn] ->.
  run_single. rewrite !Hn. run_single.
  match goal with
  | |- context [AdminSingle.for_await ?l ?f ?w1] =>
      destruct (for_await_deletes l w1 eq_refl)
        as ([d1 s1 k1 [bl1 bk1 o1 a1] l1] & E & Hd & Hs & Hk & Ho & Hb);
      rewrite !E; cbn [db tx_snapshot keys bs outage blobs] in Hd, Hs, Hk,
        Ho, Hb; subst
  end.
  run_single.
  match goal with
  | |- context [AdminSingle.for_await ?l ?f ?w1] =>
      destruct (for_await_deletes l w1 eq_refl)
        as ([d2 s2 k2 [bl2 bk2 o2 a2] l2] & E2 & Hd2 & Hs2 & Hk2 & Ho2 & Hb2);
      rewrite !E2; cbn [db tx_snapshot keys bs outage blobs] in Hd2, Hs2,
        Hk2, Ho2, Hb2; subst
  end.
  run_single. split; [done|]. split; [done|]. split; [done|].
  intros a. rewrite Hb2, Hb. unfold derived_keys. cbn [objects images].
  match goal with
  | |- context [decide (a ∈ list_fmap _ _ Flat (?L1 ++ ?L2)%list)] =>
      assert (Hiff : a ∈ list_fmap _ _ Flat (L1 ++ L2)%list
                     <-> a ∈ Flat <$> L1 \/ a ∈ Flat <$> L2)
        by (by rewrite <- elem_of_app, <- fmap_app)
  end.
  repeat case_decide; try done; exfalso.
  all: match goal with
       | Hy : _ ∈ list_fmap _ _ Flat (_ ++ _)%list |- _ =>
           apply Hiff in Hy; destruct Hy as [Hy|Hy];
           match goal with
           | Hn : ¬ _ |- _ => solve [apply Hn; exact Hy]
           end
       | Hn : ¬ (_ ∈ list_fmap _ _ Flat (_ ++ _)%list) |- _ =>
           apply Hn, Hiff; solve [left; assumption | right; assumption]
       end.
Qed.

(** X22: what the per-object deletion removes.  For an existing namespace
    and a blob store that works, the deletion by the single-metadata
    revision answers 200, removes the Namespace row with its dependent
    rows and the eight private keys of the namespace, and leaves no blob
    under the key derived from any of its object rows ({namespace}/summary
    for the id "summary", otherwise the id cut after two code units) or
    under the id of any of its images; every other blob and key is as
    before. *)
Theorem single_delete_removes_derived_blobs (ns : string) (w : World) :
  is_Some (namespaces (db w) !! ns) ->
  outage (bs w) = false ->
  let r := AdminSingle.delete_namespace ns w in
  r.1 = Ret delete_done
  /\ db r.2 = cascade ns (db w)
  /\ (forall kid,
        keys r.2 !! kid
          = if decide (kid ∈ private_key_ids ns) then None
            else keys w !! kid)
  /\ (forall object_id,
        is_Some (objects (db w) !! (ns, object_id)) ->
        blobs (bs r.2) !! Flat (AdminSingle.treehubBucketId ns object_id)
          = None)
  /\ (forall image,
        images (db w) !! image = Some ns ->
        blobs (bs r.2) !! Flat image = None)
  /\ (forall a,
        (forall object_id,
           is_Some (objects (db w) !! (ns, object_id)) ->
           a <> Flat (AdminSingle.treehubBucketId ns object_id)) ->
        (forall image, images (db w) !! image = Some ns -> a <> Flat image) ->
        blobs (bs r.2) !! a = blobs (bs w) !! a).
Proof.
  intros Hns Hout.
  destruct (single_delete_stores ns w Hns Hout) as (Hr & Hd & Hk & Hb).
  cbv zeta in *.
  split; [exact Hr|]. split; [exact Hd|].
  split; [intros kid; rewrite Hk; apply lookup_delete_all|].
  split; [|split].
  - intros o Ho. rewrite Hb, decide_True; [done|].
    apply derived_keys_elem. left. by exists o.
  - intros i Hi. rewrite Hb, decide_True; [done|].
    apply derived_keys_elem. right. by exists i.
  - intros a Ho Hi. rewrite Hb, decide_False; [done|].
    rewrite derived_keys_elem. intros [(o & Hrow & ->)|(i & Himg & ->)].
    + by apply (Ho o).
    + by apply (Hi i).
Qed.

Lemma single_delete_removes_derived_blobs_witness :
  let w := sharded_world in
  let r := AdminSingle.delete_namespace "t1" w in
  r.1 = Ret delete_done
  /\ db r.2 = cascade "t1" (db w)
  /\ (forall kid,
        keys r.2 !! kid
          = if decide (kid ∈ private_key_ids "t1") then None
            else keys w !! kid)
  /\ (forall object_id,
        is_Some (objects (db w) !! ("t1", object_id)) ->
        blobs (bs r.2) !! Flat (AdminSingle.treehubBucketId "t1" object_id)
          = None)
  /\ (forall image,
        images (db w) !! image = Some "t1" ->
        blobs (bs r.2) !! Flat image = None)
  /\ (forall a,
        (forall object_id,
           is_Some (objects (db w) !! ("t1", object_id)) ->
           a <> Flat (AdminSingle.treehubBucketId "t1" object_id)) ->
        (forall image, images (db w) !! image = Some "t1" -> a <> Flat image) ->
        blobs (bs r.2) !! a = blobs (bs w) !! a).
Proof.
  apply (single_delete_removes_derived_blobs "t1" sharded_world);
    [by eexists | reflexivity].
Defined.

(** The deletion of [sharded_world] removes the blob filed under the first
    two characters and keeps the one filed under the first three. *)
Example single_delete_of_sharded_world :
  let r := AdminSingle.delete_namespace "t1" sharded_world in
  blobs (bs sharded_world) !! Flat "t1/ab/cdef" = Some (Buffer [x2a])
  /\ blobs (bs r.2) !! Flat "t1/ab/cdef" = None
  /\ blobs (bs r.2) !! Flat "t1/abc/xyz" = Some (Buffer [x2b])
  /\ objects (db r.2) = ∅.
Proof. by vm_compute. Qed.

(** A prefix of code units: [substring(0, n)] never holds more than [n]. *)
Lemma lone_surrogate_length (low : bool) (ten : N) :
  Js.length (Js.lone_surrogate low ten) = 1%nat.
Proof.
  unfold Js.lone_surrogate. cbn [Js.length].
  pose proof (N.mod_lt (ten / 64) 16 ltac:(done)) as Hh.
  pose proof (N.mod_lt ten 64 ltac:(done)) as Hl.
  set (h := ((ten / 64) mod 16)%N) in *. set (l := (ten mod 64)%N) in *.
  clearbody h l.
  assert (H2 : Js.is_cont (ascii_of_N ((if low then 176 else 160) + h))
               = true).
  { unfold Js.is_cont. rewrite N_ascii_embedding by (destruct low; lia).
    destruct low; apply andb_true_iff; split;
      [apply N.leb_le|apply N.ltb_lt|apply N.leb_le|apply N.ltb_lt]; lia. }
  assert (H3 : Js.is_cont (ascii_of_N (128 + l)) = true).
  { unfold Js.is_cont. rewrite N_ascii_embedding by lia.
    apply andb_true_iff; split; [apply N.leb_le|apply N.ltb_lt]; lia. }
  rewrite H2, H3. reflexivity.
Qed.

Lemma js_length_take (n : nat) (x : string) :
  (Js.length (Js.take n x) <= n)%nat.
Proof.
  revert x. induction n as [n IH] using lt_wf_ind. intros x.
  destruct n as [|n]; [by destruct x|].
  destruct x as [|c r]; cbn [Js.take Js.length]; [lia|].
  destruct (Js.is_astral c) eqn:Ha.
  - destruct n as [|n].
    + unfold Js.high_surrogate. rewrite lone_surrogate_length. lia.
    + rewrite js_length_append. cbn [Js.length].
      rewrite Ha, js_length_conts.
      pose proof (IH n ltac:(lia) (Js.skip_conts r)).
      destruct (Js.is_cont c); lia.
  - rewrite js_length_append. cbn [Js.length].
    rewrite Ha, js_length_conts.
    pose proof (IH n ltac:(lia) (Js.skip_conts r)).
    destruct (Js.is_cont c); lia.
Qed.

(** Of two paths that are equal, the one whose first part holds no "/"
    has the shorter first part. *)
Lemma slash_prefix (a b p s : string) :
  no_slash p = true ->
  a +:+ "/" +:+ b = p +:+ "/" +:+ s ->
  exists a', a = p +:+ a'.
Proof.
  revert a. induction p as [|c p IH]; intros a Hp E.
  - exists a. by rewrite append_nil.
  - cbn [no_slash] in Hp. apply andb_true_iff in Hp as [Hc Hp].
    apply negb_true_iff, Ascii.eqb_neq in Hc.
    destruct a as [|x a]; rewrite ?append_cons, ?append_nil in E.
    + injection E as E _. congruence.
    + injection E as -> E. destruct (IH a Hp E) as [a' ->].
      exists a'. by rewrite append_cons.
Qed.

(** The key the deletion derives from a row differs from the key of the
    upload when the prefix is longer than two code units or the object
    id is "summary". *)
Lemma treehubBucketId_misses (ns prefix suffix : string) :
  no_slash prefix = true ->
  (2 < Js.length prefix)%nat \/ prefix +:+ suffix = "summary" ->
  AdminSingle.treehubBucketId ns (prefix +:+ suffix)
    <> ns +:+ "/" +:+ prefix +:+ "/" +:+ suffix.
Proof.
  intros Hslash Hcase. unfold AdminSingle.treehubBucketId.
  destruct (String.eqb_spec (prefix +:+ suffix) "summary") as [Hs|Hs].
  - rewrite Hs. by apply summary_not_sharded.
  - destruct Hcase as [Hlen|]; [|done].
    intros E. apply append_cancel_l in E.
    change ("/" +:+ prefix +:+ "/" +:+ suffix)
      with ("/" +:+ (prefix +:+ "/" +:+ suffix)) in E.
    change ("/" +:+ Js.take 2 (prefix +:+ suffix) +:+ "/"
            +:+ Js.drop 2 (prefix +:+ suffix))
      with ("/" +:+ (Js.take 2 (prefix +:+ suffix) +:+ "/"
                     +:+ Js.drop 2 (prefix +:+ suffix))) in E.
    apply append_cancel_l in E.
    destruct (slash_prefix _ _ _ _ Hslash E) as [a' Ha].
    pose proof (js_length_take 2 (prefix +:+ suffix)) as Hle.
    rewrite Ha, js_length_append in Hle. lia.
Qed.

(** X23: the per-object deletion misses what it cannot derive.  The
    deletion rebuilds the blob key from the row: the first two code units
    of the object id, a slash and the rest, or the id itself for
    "summary".  A blob filed as {namespace}/{prefix}/{suffix} for a row
    with the id prefix+suffix, where the prefix (without "/") is longer
    than two code units or the id is "summary", is still in the blob
    store after a deletion of the namespace that answered 200 and removed
    the row, unless another row or an image of the namespace names its
    key. *)
Theorem single_delete_leaves_misfiled_blob
    (ns prefix suffix : string) (content : Content) (w : World) :
  is_Some (namespaces (db w) !! ns) ->
  outage (bs w) = false ->
  no_slash prefix = true ->
  (2 < Js.length prefix)%nat \/ prefix +:+ suffix = "summary" ->
  is_Some (objects (db w) !! (ns, prefix +:+ suffix)) ->
  blobs (bs w) !! Flat (ns +:+ "/" +:+ prefix +:+ "/" +:+ suffix)
    = Some content ->
  (forall object_id,
     object_id <> prefix +:+ suffix ->
     is_Some (objects (db w) !! (ns, object_id)) ->
     AdminSingle.treehubBucketId ns object_id
       <> ns +:+ "/" +:+ prefix +:+ "/" +:+ suffix) ->
  (forall image,
     images (db w) !! image = Some ns ->
     image <> ns +:+ "/" +:+ prefix +:+ "/" +:+ suffix) ->
  let r := AdminSingle.delete_namespace ns w in
  r.1 = Ret delete_done
  /\ objects (db r.2) !! (ns, prefix +:+ suffix) = None
  /\ blobs (bs r.2) !! Flat (ns +:+ "/" +:+ prefix +:+ "/" +:+ suffix)
       = Some content.
Proof.
  intros Hns Hout Hslash Hcase Hrow Hblob Hobjs Himgs.
  pose proof (treehubBucketId_misses ns prefix suffix Hslash Hcase) as Hmiss.
  destruct (single_delete_stores ns w Hns Hout) as (Hr & Hd & _ & Hb).
  cbv zeta in *.
  split; [exact Hr|]. split.
  - rewrite Hd. cbn [cascade objects].
    apply map_lookup_filter_None_2. right. intros x _ Hx. by apply Hx.
  - rewrite Hb, decide_False; [done|].
    rewrite derived_keys_elem. intros [(o & Ho & [= E])|(i & Hi & [= E])].
    + destruct (decide (o = prefix +:+ suffix)) as [->|Hne].
      * by apply Hmiss.
      * by apply (Hobjs o).
    + by apply (Himgs i).
Qed.

Lemma single_delete_leaves_misfiled_blob_witness :
  let r := AdminSingle.delete_namespace "t1" sharded_world in
  r.1 = Ret delete_done
  /\ objects (db r.2) !! ("t1", "abc" +:+ "xyz") = None
  /\ blobs (bs r.2) !! Flat ("t1" +:+ "/" +:+ "abc" +:+ "/" +:+ "xyz")
       = Some (Buffer [x2b]).
Proof.
  apply (single_delete_leaves_misfiled_blob "t1" "abc" "xyz" (Buffer [x2b])
           sharded_world).
  - by eexists.
  - reflexivity.
  - reflexivity.
  - left. vm_compute. lia.
  - by eexists.
  - reflexivity.
  - intros object_id Hne [row Hrow].
    unfold sharded_world in Hrow. cbn [db objects] in Hrow.
    apply lookup_insert_Some in Hrow as [[[= <-] _]|[_ Hrow]].
    + by vm_compute.
    + apply lookup_singleton_Some in Hrow as [[= <-] _]. done.
  - intros image Himage.
    unfold sharded_world in Himage. cbn [db images] in Himage.
    by rewrite lookup_empty in Himage.
Defined.

(** X24: when the bucket cannot be created, a creation of the two
    revisions that create one ends with the rejection after the three
    inserts and the one blob-store call: the Namespace row and the two
    root rows are taken back, no key has been written, and the same id
    can be created later. *)
Theorem create_blob_failure_creates_nothing
    (config : Config) (now : nat) (certificateToPem : Certificate -> string)
    (g : NamespaceRow) (k : TufKeys) (ca : KeyPair) (w : World) :
  namespaces (db w) !! id g = None ->
  outage (bs w) = true ->
  (let r := create config now g k w in
   r.1 = Raise BlobFailure
   /\ db r.2 = db w /\ keys r.2 = keys w /\ bs r.2 = bs w
   /\ calls (create config now g k) w
        = [DbNamespaceCreate ViaTx; DbMetadataCreate ViaTx (id g);
           DbMetadataCreate ViaTx (id g); BlobCreateBucket (id g)])
  /\ (let r := create_rootca config now certificateToPem g k ca w in
      r.1 = Raise BlobFailure
      /\ db r.2 = db w /\ keys r.2 = keys w /\ bs r.2 = bs w
      /\ calls (create_rootca config now certificateToPem g k ca) w
           = [DbNamespaceCreate ViaTx; DbMetadataCreate ViaTx (id g);
              DbMetadataCreate ViaTx (id g); BlobCreateBucket (id g)]).
Proof.
  open_world w. cbn [db namespaces bs outage]. intros Hn ->.
  unfold calls. run_admin. rewrite !Hn. run_admin.
  rewrite <- !app_assoc, !drop_app_length. repeat split.
Qed.

Lemma create_blob_failure_creates_nothing_witness :
  (let r := create sample_config 0 sample_namespace sample_keys faulty_world in
   r.1 = Raise BlobFailure
   /\ db r.2 = db faulty_world /\ keys r.2 = keys faulty_world
   /\ bs r.2 = bs faulty_world
   /\ calls (create sample_config 0 sample_namespace sample_keys) faulty_world
        = [DbNamespaceCreate ViaTx;
           DbMetadataCreate ViaTx (id sample_namespace);
           DbMetadataCreate ViaTx (id sample_namespace);
           BlobCreateBucket (id sample_namespace)])
  /\ (let r := create_rootca sample_config 0 (fun _ => "pem") sample_namespace
                 sample_keys {| privateKey := "p"; publicKey := "q" |}
                 faulty_world in
      r.1 = Raise BlobFailure
      /\ db r.2 = db faulty_world /\ keys r.2 = keys faulty_world
      /\ bs r.2 = bs faulty_world
      /\ calls (create_rootca sample_config 0 (fun _ => "pem") sample_namespace
                  sample_keys {| privateKey := "p"; publicKey := "q" |})
           faulty_world
           = [DbNamespaceCreate ViaTx;
              DbMetadataCreate ViaTx (id sample_namespace);
              DbMetadataCreate ViaTx (id sample_namespace);
              BlobCreateBucket (id sample_namespace)]).
Proof.
  apply (create_blob_failure_creates_nothing sample_config 0 (fun _ => "pem")
           sample_namespace sample_keys
           {| privateKey := "p"; publicKey := "q" |} faulty_world);
    reflexivity.
Defined.
